(** * GitHub Streak Manager: streak analysis and backdated commits

  A shallow embedding of [github_streak_manager/main.py]
  ([StreakManager.analyze_streak], [StreakManager.backdate_commit],
  [StreakManager.bulk_backdate]) and the properties of these functions.

  Conventions.
  - Python [str] is [string]; Python compares strings by code point,
    which on the byte strings used here is [String.compare].
  - A [datetime.date] is represented by its proleptic Gregorian ordinal
    ([date.toordinal()]), which is how [datetime] itself does date
    arithmetic; [datetime._ord2ymd] is followed line by line.
  - Calls into the file system, git, the clock and the random generator
    are answered by an explicit environment; everything the program does
    to the outside world is recorded in a trace. The environment may
    answer differently each time: it sees the trace so far.
  - An exception is a result [Raise e]; [try ... except Exception] is
    [try_except].

  Outside the model: the HTTP requests of [analyze_streak] (the function
  is taken from the GraphQL answer on), the duration of [time.sleep],
  exceptions that are not [Exception]s (interrupts), and strings with
  digits outside ASCII. *)

From Stdlib Require Import ZArith Lia List Ascii String.
From stdpp Require Import base option list strings gmap sorting pretty.

Local Open Scope Z_scope.

(** ** The [datetime] calendar *)

Module Calendar.

(** [datetime._MAXORDINAL], the ordinal of 9999-12-31. *)
Definition MAXORDINAL : Z := 3652059.

Definition DI400Y : Z := 146097.
Definition DI100Y : Z := 36524.
Definition DI4Y : Z := 1461.

(** [datetime._is_leap]. *)
Definition is_leap (year : Z) : bool :=
  (year mod 4 =? 0) && (negb (year mod 100 =? 0) || (year mod 400 =? 0)).

(** [datetime._DAYS_IN_MONTH], indexed from 1. *)
Definition DAYS_IN_MONTH (month : Z) : Z :=
  match month with
  | 1 => 31 | 2 => 28 | 3 => 31 | 4 => 30 | 5 => 31 | 6 => 30
  | 7 => 31 | 8 => 31 | 9 => 30 | 10 => 31 | 11 => 30 | 12 => 31
  | _ => 0
  end.

(** [datetime._DAYS_BEFORE_MONTH], indexed from 1. *)
Definition DAYS_BEFORE_MONTH (month : Z) : Z :=
  match month with
  | 1 => 0 | 2 => 31 | 3 => 59 | 4 => 90 | 5 => 120 | 6 => 151
  | 7 => 181 | 8 => 212 | 9 => 243 | 10 => 273 | 11 => 304 | 12 => 334
  | _ => 0
  end.

Definition b2z (b : bool) : Z := if b then 1 else 0.

(** [datetime._days_in_month]. *)
Definition days_in_month (year month : Z) : Z :=
  if (month =? 2) && is_leap year then 29 else DAYS_IN_MONTH month.

(** [datetime._days_before_year]. *)
Definition days_before_year (year : Z) : Z :=
  let y := year - 1 in y * 365 + y / 4 - y / 100 + y / 400.

(** [datetime._days_before_month]. *)
Definition days_before_month (year month : Z) : Z :=
  DAYS_BEFORE_MONTH month + b2z ((2 <? month) && is_leap year).

(** [datetime._ymd2ord]. *)
Definition ymd2ord (year month day : Z) : Z :=
  days_before_year year + days_before_month year month + day.

(** The month and day of the [n]-th day (from 0) of a year, the last
    part of [datetime._ord2ymd]. *)
Definition month_day (leapyear : bool) (n : Z) : Z * Z :=
  let month := Z.shiftr (n + 50) 5 in
  let preceding := DAYS_BEFORE_MONTH month + b2z ((2 <? month) && leapyear) in
  if n <? preceding then
    let month' := month - 1 in
    let preceding' :=
      preceding - (DAYS_IN_MONTH month' + b2z ((month' =? 2) && leapyear)) in
    (month', n - preceding' + 1)
  else (month, n - preceding + 1).

(** [datetime._ord2ymd]: ordinal to (year, month, day), 0001-01-01 being
    day 1. *)
Definition ord2ymd (n : Z) : Z * Z * Z :=
  let n := n - 1 in
  let n400 := n / DI400Y in
  let n := n mod DI400Y in
  let year := n400 * 400 + 1 in
  let n100 := n / DI100Y in
  let n := n mod DI100Y in
  let n4 := n / DI4Y in
  let n := n mod DI4Y in
  let n1 := n / 365 in
  let n := n mod 365 in
  let year := year + n100 * 100 + n4 * 4 + n1 in
  if (n1 =? 4) || (n100 =? 4) then (year - 1, 12, 31)
  else
    let leapyear := (n1 =? 3) && (negb (n4 =? 24) || (n100 =? 3)) in
    let '(month, day) := month_day leapyear n in
    (year, month, day).

(** Decimal digit of a number below ten. *)
Definition digit (n : Z) : ascii :=
  ascii_of_N (48 + Z.to_N (n mod 10)).

(** ["%02d"] of a number in 0..99. *)
Definition fmt02 (n : Z) : string :=
  String (digit (n / 10)) (String (digit n) EmptyString).

(** ["%04d"] of a number in 0..9999. *)
Definition fmt04 (n : Z) : string :=
  String (digit (n / 1000)) (String (digit (n / 100))
    (String (digit (n / 10)) (String (digit n) EmptyString))).

(** [date.isoformat()]: ["%04d-%02d-%02d"]. *)
Definition isoformat (d : Z) : string :=
  let '(y, m, dd) := ord2ymd d in
  fmt04 y +:+ "-" +:+ fmt02 m +:+ "-" +:+ fmt02 dd.

(** [date.__sub__(timedelta(days=i))]: raises [OverflowError] (here
    [None]) when the result leaves 0001-01-01 .. 9999-12-31. *)
Definition sub_days (d i : Z) : option Z :=
  let o := d - i in
  if (0 <? o) && (o <=? MAXORDINAL) then Some o else None.

End Calendar.

(** ** Streak analysis ([StreakManager.analyze_streak]) *)

(** One entry of [contribution_days]: [{"date": ..., "count": ...}]. *)
Record ContributionDay := mkDay { date : string; count : Z }.

(** The dictionary returned by [analyze_streak]. *)
Record StreakReport := mkReport {
  current_streak : nat;
  longest_streak : nat;
  missing_dates : list string;
  last_commit_date : option string;
  contribution_days : list ContributionDay
}.

(** The nested loop over [weeks] and their [contributionDays] that fills
    [contribution_days]. *)
Definition collect_days (weeks : list (list ContributionDay))
  : list ContributionDay :=
  foldl (fun acc week => foldl (fun acc day => acc ++ [day]) acc week) [] weeks.

(** [list.sort(key=lambda x: x["date"], reverse=True)]. Python's sort is
    stable, also with [reverse=True]: entries with equal dates keep their
    original order. The element in front of an already sorted tail goes
    behind the entries with a strictly later date. *)
Fixpoint insert_reverse (x : ContributionDay) (l : list ContributionDay)
  : list ContributionDay :=
  match l with
  | [] => [x]
  | y :: l' =>
      if String.ltb (date x) (date y) then y :: insert_reverse x l'
      else x :: y :: l'
  end.

Definition sort_reverse (l : list ContributionDay) : list ContributionDay :=
  foldr insert_reverse [] l.

(** [sorted(contribution_days, key=lambda x: x["date"])], stable as well. *)
Fixpoint insert_sorted (x : ContributionDay) (l : list ContributionDay)
  : list ContributionDay :=
  match l with
  | [] => [x]
  | y :: l' =>
      if String.ltb (date y) (date x) then y :: insert_sorted x l'
      else x :: y :: l'
  end.

Definition sorted (l : list ContributionDay) : list ContributionDay :=
  foldr insert_sorted [] l.

(** The loop computing [current_streak]: count entries until the first one
    whose count is not positive. *)
Fixpoint current_streak_loop (days : list ContributionDay) : nat :=
  match days with
  | [] => 0%nat
  | day :: rest =>
      if 0 <? count day then S (current_streak_loop rest) else 0%nat
  end.

(** One iteration of the loop computing [longest_streak]; the state is
    [(longest_streak, current_longest)]. *)
Definition longest_step (st : nat * nat) (day : ContributionDay) : nat * nat :=
  let '(longest, current_longest) := st in
  if 0 <? count day then (longest, S current_longest)
  else (Nat.max longest current_longest, 0%nat).

Definition longest_streak_loop (days : list ContributionDay) : nat :=
  let '(longest, current_longest) := foldl longest_step (0%nat, 0%nat) days in
  Nat.max longest current_longest.

(** [[(today - timedelta(days=i)).isoformat() for i in range(30)]]. *)
Definition last_30_days (today : Z) : option (list string) :=
  mapM (fun i => Calendar.isoformat <$> Calendar.sub_days today (Z.of_nat i))
       (seq 0 30).

(** [analyze_streak] from the GraphQL answer on; [today] is
    [datetime.date.today()]. [None] stands for the [OverflowError] of the
    date subtraction. *)
Definition analyze_streak (today : Z) (weeks : list (list ContributionDay))
  : option StreakReport :=
  let contribution_days := sort_reverse (collect_days weeks) in
  let current_streak := current_streak_loop contribution_days in
  let longest_streak := longest_streak_loop (sorted contribution_days) in
  last_30_days ← last_30_days today;
  let recent_contribution_dates : gset string :=
    list_to_set (date <$> take 30 contribution_days) in
  let missing_dates :=
    filter (fun d => d ∉ recent_contribution_dates) last_30_days in
  let last_commit_date :=
    match contribution_days with
    | day :: _ => if 0 <? count day then Some (date day) else None
    | [] => None
    end in
  Some {| current_streak := current_streak;
          longest_streak := longest_streak;
          missing_dates := missing_dates;
          last_commit_date := last_commit_date;
          contribution_days := take 90 contribution_days |}.

(** ** Strings, paths and [datetime.datetime] *)

(** The newline character of the f-strings. *)
Definition nl : string := String (ascii_of_nat 10) EmptyString.

(** [str.endswith("/")]. *)
Definition ends_with_sep (a : string) : bool :=
  match String.rev a with
  | String c _ => Ascii.eqb c "/"
  | EmptyString => false
  end.

(** [posixpath.join(a, b)]. *)
Definition path_join (a b : string) : string :=
  if String.prefix "/" b then b
  else if String.eqb a "" || ends_with_sep a then a +:+ b
  else a +:+ "/" +:+ b.

(** Drop the leading characters equal to ["/"]. *)
Fixpoint lstrip_sep (s : string) : string :=
  match s with
  | String c s' => if Ascii.eqb c "/" then lstrip_sep s' else s
  | EmptyString => EmptyString
  end.

(** Drop the leading characters up to, not including, the first ["/"]. *)
Fixpoint drop_to_sep (s : string) : string :=
  match s with
  | String c s' => if Ascii.eqb c "/" then s else drop_to_sep s'
  | EmptyString => EmptyString
  end.

(** [posixpath.dirname(p)]: the part up to the last ["/"], without its
    trailing separators unless it consists of separators only. The
    reversed path is scanned from its front. *)
Definition dirname (p : string) : string :=
  let head := drop_to_sep (String.rev p) in
  match lstrip_sep head with
  | EmptyString => String.rev head
  | stripped => String.rev stripped
  end.

(** The fields of a [datetime.datetime] the program reads or sets. *)
Record datetime := mkDatetime {
  year : Z; month : Z; day : Z; hour : Z; minute : Z; second : Z
}.

(** [date.replace(hour=.., minute=.., second=..)]. *)
Definition replace_time (d : datetime) (h m s : Z) : datetime :=
  {| year := year d; month := month d; day := day d;
     hour := h; minute := m; second := s |}.

(** [date.strftime("%Y-%m-%d %H:%M:%S")], for years from 1000 on (below,
    the width of [%Y] is the one of the C library). *)
Definition strftime (d : datetime) : string :=
  Calendar.fmt04 (year d) +:+ "-" +:+ Calendar.fmt02 (month d) +:+ "-"
  +:+ Calendar.fmt02 (day d) +:+ " " +:+ Calendar.fmt02 (hour d) +:+ ":"
  +:+ Calendar.fmt02 (minute d) +:+ ":" +:+ Calendar.fmt02 (second d).

Module Strptime.

Definition is_digit (c : ascii) : bool :=
  let n := Z.of_N (N_of_ascii c) in (48 <=? n) && (n <=? 57).

Definition value (c : ascii) : Z := Z.of_N (N_of_ascii c) - 48.

Definition between (lo hi : Z) (c : ascii) : bool :=
  is_digit c && (lo <=? value c) && (value c <=? hi).

(** [%Y] is the regular expression [\d\d\d\d]. *)
Definition parse_Y (s : string) : option (Z * string) :=
  match s with
  | String a (String b (String c (String d rest))) =>
      if is_digit a && is_digit b && is_digit c && is_digit d
      then Some (1000 * value a + 100 * value b + 10 * value c + value d,
                 rest)
      else None
  | _ => None
  end.

(** [%m] is [1[0-2]|0[1-9]|[1-9]]; the separator that follows decides
    between the alternatives, so the first one that fits is the one
    the matcher ends with. *)
Definition parse_m (s : string) : option (Z * string) :=
  match s with
  | String a (String b rest) =>
      if Ascii.eqb a "1" && between 0 2 b then Some (10 + value b, rest)
      else if Ascii.eqb a "0" && between 1 9 b then Some (value b, rest)
      else if between 1 9 a then Some (value a, String b rest)
      else None
  | String a rest => if between 1 9 a then Some (value a, rest) else None
  | EmptyString => None
  end.

(** [%d] is [3[0-1]|[1-2]\d|0[1-9]|[1-9]| [1-9]], the last part of the
    pattern: the first alternative that fits is taken. *)
Definition parse_d (s : string) : option (Z * string) :=
  match s with
  | String a (String b rest) =>
      if Ascii.eqb a "3" && between 0 1 b then Some (30 + value b, rest)
      else if between 1 2 a && is_digit b
           then Some (10 * value a + value b, rest)
      else if Ascii.eqb a "0" && between 1 9 b then Some (value b, rest)
      else if between 1 9 a then Some (value a, String b rest)
      else if Ascii.eqb a " " && between 1 9 b then Some (value b, rest)
      else None
  | String a rest => if between 1 9 a then Some (value a, rest) else None
  | EmptyString => None
  end.

Definition expect_sep (s : string) : option string :=
  match s with
  | String c rest => if Ascii.eqb c "-" then Some rest else None
  | EmptyString => None
  end.

(** [datetime.datetime.strptime(s, "%Y-%m-%d")] on an ASCII string;
    [None] stands for its [ValueError]: the string does not match the
    pattern, text remains after the match, or the fields are not a
    date of the calendar. *)
Definition strptime (s : string) : option datetime :=
  '(y, s) ← parse_Y s;
  s ← expect_sep s;
  '(m, s) ← parse_m s;
  s ← expect_sep s;
  '(d, s) ← parse_d s;
  if String.eqb s "" && (1 <=? y) && (d <=? Calendar.days_in_month y m)
  then Some (mkDatetime y m d 0 0 0)
  else None.

End Strptime.

(** ** The outside world *)

(** Calls that can raise: the git collaborator and file-system I/O. *)
Inductive Op :=
| OpRepo (repo_path : string)                       (* [Repo(repo_path)] *)
| OpRead (path : string)                  (* [open(path, 'r')], [f.read()] *)
| OpMakedirs (path : string)        (* [os.makedirs(path, exist_ok=True)] *)
| OpWrite (path content : string)       (* [open(path, 'w')], [f.write()] *)
| OpGitAdd (repo_path file_path : string)       (* [repo.git.add(file_path)] *)
| OpGitCommit (repo_path message git_date : string)
    (* [repo.git.commit("-m", message, env=env)] with both
       [GIT_AUTHOR_DATE] and [GIT_COMMITTER_DATE] set to [git_date] *)
| OpGitPush (repo_path : string).                      (* [repo.git.push()] *)

(** What happened, in order. [Call op err] is a call of [op] that
    returned ([err = None]) or raised an exception with text [e]
    ([err = Some e]). *)
Inductive Event :=
| Call (op : Op) (err : option string)
| PathExists (path : string) (answer : bool)         (* [os.path.exists] *)
| Now (answer : string)          (* [datetime.datetime.now().isoformat()] *)
| Random (draw : Z)                      (* a draw of the [random] module *)
| Sleep                                                   (* [time.sleep] *)
| Printed (text : string).

(** The environment answers every interaction from the history so far. *)
Record Env := mkEnv {
  raises : list Event -> Op -> option string;
  exists_ : list Event -> string -> bool;
  contents : list Event -> string -> string;
  now : list Event -> string;
  draw : list Event -> Z
}.

Inductive exn :=
| ValueError (text : string)
| Exception (text : string).

(** [str(e)]. *)
Definition exn_str (e : exn) : string :=
  match e with ValueError t => t | Exception t => t end.

Inductive Res (A : Type) :=
| Return (a : A)
| Raise (e : exn).
Arguments Return {A} a.
Arguments Raise {A} e.

(** Computations: the trace is threaded through, an exception ends them. *)
Definition M (A : Type) : Type := list Event -> Res A * list Event.

Definition ret {A} (a : A) : M A := fun tr => (Return a, tr).

Definition bind {A B} (m : M A) (k : A -> M B) : M B :=
  fun tr =>
    match m tr with
    | (Return a, tr') => k a tr'
    | (Raise e, tr') => (Raise e, tr')
    end.

Definition raise {A} (e : exn) : M A := fun tr => (Raise e, tr).

(** [try: m  except Exception as e: h e]. *)
Definition try_except {A} (m : M A) (h : exn -> M A) : M A :=
  fun tr =>
    match m tr with
    | (Return a, tr') => (Return a, tr')
    | (Raise e, tr') => h e tr'
    end.

Declare Scope py_scope.
Delimit Scope py_scope with py.
Notation "x <- m ;; k" := (bind m (fun x => k))
  (at level 100, m at next level, k at level 200, right associativity,
   only parsing) : py_scope.
Notation "m ;;; k" := (bind m (fun _ => k))
  (at level 100, k at level 200, right associativity, only parsing)
  : py_scope.

Section World.
  Context (env : Env).
  Local Open Scope py_scope.

Definition call (op : Op) : M unit :=
  fun tr =>
    match raises env tr op with
    | None => (Return tt, tr ++ [Call op None])
    | Some e => (Raise (Exception e), tr ++ [Call op (Some e)])
    end.

Definition path_exists (path : string) : M bool :=
  fun tr => let b := exists_ env tr path in (Return b, tr ++ [PathExists path b]).

(** [with open(path, 'r') as f: content = f.read()]. *)
Definition read_file (path : string) : M string :=
  fun tr =>
    match raises env tr (OpRead path) with
    | None => (Return (contents env tr path), tr ++ [Call (OpRead path) None])
    | Some e => (Raise (Exception e), tr ++ [Call (OpRead path) (Some e)])
    end.

Definition now_isoformat : M string :=
  fun tr => let s := now env tr in (Return s, tr ++ [Now s]).

Definition random_draw : M Z :=
  fun tr => let v := draw env tr in (Return v, tr ++ [Random v]).

(** [random.randint(a, b)], for [a <= b]. *)
Definition randint (a b : Z) : M Z :=
  v <- random_draw ;; ret (a + v mod (b - a + 1)).

(** [random.choice(seq)] for a non-empty [seq]. *)
Definition choice (seq : list string) : M string :=
  v <- random_draw ;;
  ret (nth (Z.to_nat (v mod Z.of_nat (length seq))) seq "").

Definition sleep : M unit := fun tr => (Return tt, tr ++ [Sleep]).

Definition print (text : string) : M unit :=
  fun tr => (Return tt, tr ++ [Printed text]).

End World.

(** ** Backdated commits ([StreakManager.backdate_commit]) *)

(** The [date] argument: [Union[str, datetime.datetime]]. *)
Inductive DateArg :=
| DateStr (s : string)
| DateTime (d : datetime).

(** Python's [not x] for an [Optional[str]]: [None] and [""] are falsy. *)
Definition falsy (x : option string) : bool :=
  match x with
  | None => true
  | Some s => String.eqb s ""
  end.

(** [repr(s)] of an ASCII string: in single quotes, or in double quotes
    when it holds a single quote and no double quote; the quote in use
    and the backslash are escaped, as are the control characters. *)
Definition double_quote : ascii := ascii_of_nat 34.

Definition hex_digit (n : N) : ascii :=
  nth (N.to_nat n) (list_ascii_of_string "0123456789abcdef") "0"%char.

Definition contains (c : ascii) (s : string) : bool :=
  existsb (Ascii.eqb c) (list_ascii_of_string s).

Definition repr_char (quote c : ascii) : string :=
  let n := N_of_ascii c in
  if Ascii.eqb c quote || Ascii.eqb c "\" then String "\" (String c "")
  else if (n =? 9)%N then "\t"
  else if (n =? 10)%N then "\n"
  else if (n =? 13)%N then "\r"
  else if (n <? 32)%N || (n =? 127)%N
       then "\x" +:+ String (hex_digit (n / 16))
                       (String (hex_digit (n mod 16)) "")
  else String c "".

Definition repr (s : string) : string :=
  let quote :=
    if contains "'" s && negb (contains double_quote s) then double_quote
    else "'"%char in
  String quote
    (String.concat "" (repr_char quote <$> list_ascii_of_string s))
  +:+ String quote "".

(** The match of the pattern of [%Y-%m-%d] at the start of the data: the
    three fields and the text that remains after the match. *)
Definition strptime_fields (s : string) : option (Z * Z * Z * string) :=
  '(y, s) ← Strptime.parse_Y s;
  s ← Strptime.expect_sep s;
  '(m, s) ← Strptime.parse_m s;
  s ← Strptime.expect_sep s;
  '(d, s) ← Strptime.parse_d s;
  Some (y, m, d, s).

(** The [ValueError] of [strptime] for data it rejects: the pattern does
    not match; text remains after the match; or the fields are not a date
    of the calendar, and then the [date] constructor complains about the
    year ([%Y] also matches [0000]) or about the day (the pattern keeps
    the month within 1..12 and the day within 1..31). *)
Definition strptime_error (data_string : string) : exn :=
  match strptime_fields data_string with
  | None =>
      ValueError ("time data " +:+ repr data_string
                  +:+ " does not match format '%Y-%m-%d'")
  | Some (y, m, d, rest) =>
      if negb (String.eqb rest "")
      then ValueError ("unconverted data remains: " +:+ rest)
      else if y <? 1
      then ValueError ("year " +:+ pretty y +:+ " is out of range")
      else ValueError "day is out of range for month"
  end.

Definition commit_messages : list string :=
  [ "Update README.md"; "Fix typo in documentation";
    "Add comments for clarity"; "Clean up code formatting";
    "Refactor utility function"; "Update dependencies";
    "Add missing documentation"; "Fix minor bug in error handling";
    "Improve code readability"; "Add unit test for edge case";
    "Optimize performance"; "Improve error messages";
    "Update configuration"; "Fix linting issues";
    "Add new feature implementation"; "Implement requested changes";
    "Remove deprecated code"; "Update documentation"; "Fix edge case";
    "Merge recent changes"; "Add new test cases"; "Improve logging" ].

(** The f-strings of [bulk_backdate]. *)
Definition bulk_file_path (date_str : string) (i : nat) : string :=
  "streak_updates/" +:+ date_str +:+ "/" +:+ pretty i +:+ ".md".

Definition bulk_content (date_str : string) (i : nat) (commit_count : Z)
  : string :=
  "# Update for " +:+ date_str +:+ nl +:+ nl +:+ "Commit #"
  +:+ pretty (S i) +:+ " of " +:+ pretty commit_count +:+ nl +:+ nl
  +:+ "Generated by GitHub Streak Manager".

Definition bulk_commit_message (date_str : string) (i : nat)
    (commit_count : Z) : string :=
  "Update for " +:+ date_str +:+ " (" +:+ pretty (S i) +:+ "/"
  +:+ pretty commit_count +:+ ")".

Section Commits.
  Context (env : Env).
  Local Open Scope py_scope.

(** [_generate_commit_message]. *)
Definition generate_commit_message : M string :=
  choice env commit_messages.

Definition backdate_commit (repo_path : string) (date : DateArg)
    (commit_message file_content file_path : option string)
    (push : bool) : M bool :=
  (* Convert string date to datetime if needed *)
  date <- match date with
          | DateStr s =>
              match Strptime.strptime s with
              | Some d => ret d
              | None => raise (strptime_error s)
              end
          | DateTime d => ret d
          end ;;
  (* Add random hour, minute, second for more natural commit times *)
  date <- (if (hour date =? 0) && (minute date =? 0) && (second date =? 0)
           then
             hour <- randint env 9 19 ;;
             minute <- randint env 0 59 ;;
             second <- randint env 0 59 ;;
             ret (replace_time date hour minute second)
           else ret date) ;;
  (* Format date for Git *)
  let git_date := strftime date in
  (* Generate commit message if not provided *)
  commit_message <- (if falsy commit_message then generate_commit_message
                     else ret (default "" commit_message)) ;;
  try_except
    (call env (OpRepo repo_path) ;;;
     (* Default file modification if none specified *)
     let file_path :=
       if falsy file_path then "README.md" else default "" file_path in
     let full_path := path_join repo_path file_path in
     (* Create or modify the file *)
     file_content <-
       match file_content with
       | None =>
           present <- path_exists env full_path ;;
           if present then
             content <- read_file env full_path ;;
             stamp <- now_isoformat env ;;
             ret (content +:+ nl +:+ nl +:+ "<!-- Updated: " +:+ stamp
                  +:+ " -->")
           else
             stamp <- now_isoformat env ;;
             ret ("# Placeholder" +:+ nl +:+ nl
                  +:+ "This file was created by GitHub Streak Manager."
                  +:+ nl +:+ nl +:+ "<!-- Created: " +:+ stamp +:+ " -->")
       | Some content => ret content
       end ;;
     (* Create directory if it doesn't exist *)
     call env (OpMakedirs (dirname full_path)) ;;;
     (* Write the content to the file *)
     call env (OpWrite full_path file_content) ;;;
     (* Stage the changes *)
     call env (OpGitAdd repo_path file_path) ;;;
     (* Commit with backdated timestamp *)
     call env (OpGitCommit repo_path commit_message git_date) ;;;
     (* Push if requested *)
     (if push then call env (OpGitPush repo_path) else ret tt) ;;;
     ret true)
    (fun e =>
       print ("Error creating backdated commit: " +:+ exn_str e) ;;;
       ret false).

(** ** Bulk backdating ([StreakManager.bulk_backdate]) *)

(** One iteration of the inner loop [for i in range(commit_count)], up
    to the value assigned to [success]. Of
    [time.sleep(random.uniform(0.5, 2.0))] the draw and the sleep are
    recorded, not the duration. *)
Definition commit_attempt (repo_path date_str : string) (commit_count : Z)
    (i : nat) : M bool :=
  let file_path := bulk_file_path date_str i in
  call env (OpMakedirs (dirname (path_join repo_path file_path))) ;;;
  let content := bulk_content date_str i commit_count in
  let commit_message := bulk_commit_message date_str i commit_count in
  (* Add slight delay between commits for more natural behavior *)
  (if (0 <? i)%nat then random_draw env ;;; sleep else ret tt) ;;;
  backdate_commit repo_path (DateStr date_str)
    (Some commit_message) (Some content) (Some file_path) false.

(** The inner loop, run on the indices still to come, with the current
    value of [success]; it is left at the first failed attempt. *)
Fixpoint commit_loop (repo_path date_str : string) (commit_count : Z)
    (range : list nat) (success : bool) : M bool :=
  match range with
  | [] => ret success
  | i :: range' =>
      success <- commit_attempt repo_path date_str commit_count i ;;
      if negb success then ret success
      else commit_loop repo_path date_str commit_count range' success
  end.

(** The [try] block that pushes the commits of one date; its value is
    the value of [success] after it. *)
Definition push_commits (repo_path : string) : M bool :=
  try_except
    (call env (OpRepo repo_path) ;;;
     call env (OpGitPush repo_path) ;;;
     ret true)
    (fun e =>
       print ("Error pushing commits: " +:+ exn_str e) ;;;
       ret false).

(** The body of the outer loop for one date, up to the value stored
    in [results]. *)
Definition backdate_date (repo_path date_str : string) (commit_count : Z)
    (push : bool) : M bool :=
  success <- commit_loop repo_path date_str commit_count
               (seq 0 (Z.to_nat commit_count)) false ;;
  if success && push then push_commits repo_path else ret success.

(** The outer loop [for date_str in dates]. *)
Fixpoint date_loop (repo_path : string) (dates : list string)
    (commit_count : Z) (push : bool) (results : gmap string bool)
  : M (gmap string bool) :=
  match dates with
  | [] => ret results
  | date_str :: dates' =>
      success <- backdate_date repo_path date_str commit_count push ;;
      date_loop repo_path dates' commit_count push
        (<[date_str := success]> results)
  end.

Definition bulk_backdate (repo_path : string) (dates : list string)
    (commit_count : Z) (push : bool) : M (gmap string bool) :=
  date_loop repo_path dates commit_count push ∅.

End Commits.

(** ** The [try] block of [backdate_commit] on its own *)

Section CommitBody.
  Context (env : Env).
  Local Open Scope py_scope.

(** The code between the commit message and the [try] block does not
    interact with the world; the block is run with the formatted date and
    the commit message computed before it. *)
Definition commit_body (repo_path git_date commit_message : string)
    (file_content file_path : option string) (push : bool) : M bool :=
  call env (OpRepo repo_path) ;;;
  let file_path :=
    if falsy file_path then "README.md" else default "" file_path in
  let full_path := path_join repo_path file_path in
  file_content <-
    match file_content with
    | None =>
        present <- path_exists env full_path ;;
        if present then
          content <- read_file env full_path ;;
          stamp <- now_isoformat env ;;
          ret (content +:+ nl +:+ nl +:+ "<!-- Updated: " +:+ stamp
               +:+ " -->")
        else
          stamp <- now_isoformat env ;;
          ret ("# Placeholder" +:+ nl +:+ nl
               +:+ "This file was created by GitHub Streak Manager."
               +:+ nl +:+ nl +:+ "<!-- Created: " +:+ stamp +:+ " -->")
    | Some content => ret content
    end ;;
  call env (OpMakedirs (dirname full_path)) ;;;
  call env (OpWrite full_path file_content) ;;;
  call env (OpGitAdd repo_path file_path) ;;;
  call env (OpGitCommit repo_path commit_message git_date) ;;;
  (if push then call env (OpGitPush repo_path) else ret tt) ;;;
  ret true.

(** The [except Exception as e] clause of [backdate_commit]. *)
Definition commit_handler (e : exn) : M bool :=
  print ("Error creating backdated commit: " +:+ exn_str e) ;;;
  ret false.

End CommitBody.

(** ** Filling the missing dates ([StreakManager.fill_missing_streak_dates]) *)

(** [missing_dates.sort()] on a list of strings. *)
Fixpoint insert_string (x : string) (l : list string) : list string :=
  match l with
  | [] => [x]
  | y :: l' =>
      if String.ltb y x then y :: insert_string x l' else x :: y :: l'
  end.

Definition sort_strings (l : list string) : list string :=
  foldr insert_string [] l.

Section Fill.
  Context (env : Env).
  Local Open Scope py_scope.

(** [fill_missing_streak_dates] from the return of [self.analyze_streak()]
    on: [streak_info] is the report, [today] is [datetime.date.today()].
    The [OverflowError] of [timedelta] and of the date subtraction is an
    [Exception]. *)
Definition fill_missing_streak_dates (streak_info : StreakReport)
    (today : Z) (repo_path : string) (days_back : Z) (push : bool)
  : M (gmap string bool) :=
  (* Filter missing dates to only include those within days_back *)
  if 999999999 <? Z.abs days_back then
    raise (Exception ("days=" +:+ pretty days_back
                      +:+ "; must have magnitude <= 999999999"))
  else
  match Calendar.sub_days today days_back with
  | None => raise (Exception "date value out of range")
  | Some cutoff =>
      let cutoff_date := Calendar.isoformat cutoff in
      let missing_dates :=
        filter (λ date, String.leb cutoff_date date = true)
          (missing_dates streak_info) in
      match missing_dates with
      | [] =>
          print "No missing dates found in the specified time range." ;;;
          ret ∅
      | _ =>
          (* Sort dates chronologically *)
          let missing_dates := sort_strings missing_dates in
          (* Create backdated commits for each missing date *)
          commit_count <- randint env 1 3 ;;
          bulk_backdate env repo_path missing_dates commit_count push
      end
  end.

End Fill.

(** ** The scheduler ([StreakScheduler.check_and_fill_streak]) *)

Section Scheduler.
  Context (env : Env).
  Local Open Scope py_scope.

(** [logger.info(text)] and [logger.error(text)]: the record is handed to
    the handlers, which do not raise. The trace keeps its level and its
    message. *)
Definition logger_info (text : string) : M unit :=
  fun tr => (Return tt, tr ++ [Printed ("INFO - " +:+ text)]).

Definition logger_error (text : string) : M unit :=
  fun tr => (Return tt, tr ++ [Printed ("ERROR - " +:+ text)]).

(** [analysis] is the call [self.manager.analyze_streak()], which returns
    the report or raises; [today] is [datetime.date.today()]. *)
Definition check_and_fill_streak (analysis : M StreakReport) (today : Z)
    (repo_path : string) : M bool :=
  logger_info "Checking GitHub contribution streak..." ;;;
  try_except
    ((* Analyze current streak *)
     streak_info <- analysis ;;
     (* Get today's date *)
     let today := Calendar.isoformat today in
     (* Check if we've already contributed today *)
     if bool_decide (today ∉ missing_dates streak_info) then
       logger_info "Already have a contribution for today! No action needed." ;;;
       ret true
     else
       (* We need to make a contribution for today *)
       logger_info "No contribution found for today. Creating one..." ;;;
       (* Create a commit for today with a random commit message *)
       success <- backdate_commit env repo_path (DateStr today)
                    None None None true ;;
       if success then
         logger_info "Successfully created commit for today!" ;;;
         ret true
       else
         logger_error "Failed to create commit for today." ;;;
         ret false)
    (fun e =>
       logger_error ("Error checking and filling streak: " +:+ exn_str e) ;;;
       ret false).

End Scheduler.

(** ** Suggested repositories ([StreakManager.suggest_repos]) *)

(** The fields of a repository of the GitHub answer that the program
    reads; [None] is a key that is missing, or [null] for the
    language. *)
Record RepoInfo := mkRepo {
  name : string;
  language : option string;
  updated_at : option string
}.

(** [x.get('updated_at', '')]. *)
Definition updated_key (x : RepoInfo) : string := default "" (updated_at x).

(** [repos.sort(key=lambda x: x.get('updated_at', ''))], stable. *)
Fixpoint insert_repo (x : RepoInfo) (l : list RepoInfo) : list RepoInfo :=
  match l with
  | [] => [x]
  | y :: l' =>
      if String.ltb (updated_key y) (updated_key x)
      then y :: insert_repo x l'
      else x :: y :: l'
  end.

Definition sort_repos (l : list RepoInfo) : list RepoInfo :=
  foldr insert_repo [] l.

(** [suggest_repos] from the answer of [get_user_repos] on. *)
Definition suggest_repos (repos : list RepoInfo) (lang : option string)
  : list RepoInfo :=
  (* Filter by language if specified *)
  let repos :=
    if falsy lang then repos
    else filter (λ repo, language repo = lang) repos in
  (* Sort by last updated (oldest first) *)
  sort_repos repos.

(** ** The dates of a bulk run ([main] with [--bulk]) *)

(** [a <= b] on [datetime]s: the fields are compared in order. *)
Definition datetime_le (a b : datetime) : bool :=
  match year a ?= year b with
  | Lt => true | Gt => false
  | Eq =>
  match month a ?= month b with
  | Lt => true | Gt => false
  | Eq =>
  match day a ?= day b with
  | Lt => true | Gt => false
  | Eq =>
  match hour a ?= hour b with
  | Lt => true | Gt => false
  | Eq =>
  match minute a ?= minute b with
  | Lt => true | Gt => false
  | Eq => second a <=? second b
  end end end end end.

(** [current + datetime.timedelta(days=1)]: the next day at the same time
    of day; [None] stands for the [OverflowError] past 9999-12-31. *)
Definition next_day (d : datetime) : option datetime :=
  let o := Calendar.ymd2ord (year d) (month d) (day d) + 1 in
  if (0 <? o) && (o <=? Calendar.MAXORDINAL) then
    let '(y, m, dd) := Calendar.ord2ymd o in
    Some {| year := y; month := m; day := dd;
            hour := hour d; minute := minute d; second := second d |}
  else None.

(** [current.strftime("%Y-%m-%d")], for years from 1000 on (below, the
    width of [%Y] is the one of the C library). *)
Definition strftime_date (d : datetime) : string :=
  Calendar.fmt04 (year d) +:+ "-" +:+ Calendar.fmt02 (month d) +:+ "-"
  +:+ Calendar.fmt02 (day d).

(** The loop [while current <= end], for at most [fuel] iterations;
    [None] when they do not suffice. *)
Fixpoint date_range_loop (fuel : nat) (current end_ : datetime)
    (dates : list string) : option (Res (list string)) :=
  match fuel with
  | O => None
  | S fuel' =>
      if datetime_le current end_ then
        let dates := dates ++ [strftime_date current] in
        match next_day current with
        | Some current => date_range_loop fuel' current end_ dates
        | None => Some (Raise (Exception "date value out of range"))
        end
      else Some (Return dates)
  end.

(** The list [dates] that [main] hands to [bulk_backdate], from the
    arguments [--start-date] and [--end-date]. *)
Definition bulk_dates (fuel : nat) (start_date end_date : string)
  : option (Res (list string)) :=
  match Strptime.strptime start_date with
  | None => Some (Raise (strptime_error start_date))
  | Some start =>
      match Strptime.strptime end_date with
      | None => Some (Raise (strptime_error end_date))
      | Some end_ => date_range_loop fuel start end_ []
      end
  end.

(** * Vocabulary of the properties *)

(** ** Order and runs of contribution days *)

(** [a] may stand in front of [b] in a list sorted newest first. *)
Definition not_older (a b : ContributionDay) : Prop :=
  String.leb (date b) (date a) = true.

(** [a] may stand in front of [b] in a list sorted oldest first. *)
Definition not_newer (a b : ContributionDay) : Prop :=
  String.leb (date a) (date b) = true.

(** [today] and the 29 days before it are dates of the calendar. *)
Definition valid_today (today : Z) : Prop :=
  30 <= today <= Calendar.MAXORDINAL.

(** The trailing 30-day window ending today, today first. *)
Definition window (today : Z) : list string :=
  (λ i : nat, Calendar.isoformat (today - Z.of_nat i)) <$> seq 0 30.

(** A positive count. *)
Definition active (d : ContributionDay) : Prop := 0 < count d.

(** [seg] is a run of consecutive entries of [l], all with a positive
    count. *)
Definition positive_run (l seg : list ContributionDay) : Prop :=
  Forall active seg ∧ ∃ pre post, l = pre ++ seg ++ post.

(** The value of the scan started in state [(longest, current)]. *)
Definition scan (st : nat * nat) (days : list ContributionDay) : nat :=
  let '(longest, current_longest) := foldl longest_step st days in
  Nat.max longest current_longest.

(** ** Calendars of the examples *)

(** [datetime.date(2024, 3, 10)]. *)
Definition today_2024_03_10 : Z := Calendar.ymd2ord 2024 3 10.

(** Two entries for one date, then a later date. *)
Definition calendar_repeated_date : list (list ContributionDay) :=
  [[mkDay "2024-03-09" 1; mkDay "2024-03-09" 0; mkDay "2024-03-10" 1]].

(** Three days in two weeks, the middle one without contributions. *)
Definition calendar_three_days : list (list ContributionDay) :=
  [[mkDay "2024-03-08" 1; mkDay "2024-03-09" 0]; [mkDay "2024-03-10" 2]].

(** ** Dates as year, month and day *)

(** The order of dates as (year, month, day). *)
Definition ymd_lt (a b : Z * Z * Z) : Prop :=
  let '(y, m, d) := a in
  let '(y', m', d') := b in
  y < y' ∨ (y = y' ∧ (m < m' ∨ (m = m' ∧ d < d'))).

(** A date of the calendar. *)
Definition ymd_valid (a : Z * Z * Z) : Prop :=
  let '(y, m, d) := a in
  1 <= y <= 9999 ∧ 1 <= m <= 12 ∧ 1 <= d <= Calendar.days_in_month y m.

(** Case analysis on a month number known to lie in 1..12. *)
Ltac month_cases m H :=
  assert (m = 1 ∨ m = 2 ∨ m = 3 ∨ m = 4 ∨ m = 5 ∨ m = 6 ∨ m = 7 ∨ m = 8
          ∨ m = 9 ∨ m = 10 ∨ m = 11 ∨ m = 12) as H by lia;
  repeat (destruct H as [->|H]); [..|subst m].

(** ** Order of date strings *)

(** [a] stands in front of [b] in a list of strictly descending dates. *)
Definition newer (a b : string) : Prop := String.ltb b a = true.

(** [a] may stand in front of [b] in a list sorted ascending. *)
Definition ascending (a b : string) : Prop := String.leb a b = true.

(** The last five days, oldest first, with counts 3, 0, 2, 1, 0. *)
Definition last_five_days (today : Z) : list ContributionDay :=
  [ mkDay (Calendar.isoformat (today - 4)) 3;
    mkDay (Calendar.isoformat (today - 3)) 0;
    mkDay (Calendar.isoformat (today - 2)) 2;
    mkDay (Calendar.isoformat (today - 1)) 1;
    mkDay (Calendar.isoformat today) 0 ].

(** ** Results and events of computations *)

(** [m] appends events to any trace, and its result together with the
    appended events satisfies [Q]. *)
Definition post {A} (m : M A) (Q : Res A → list Event → Prop) : Prop :=
  ∀ tr, ∃ r evs, m tr = (r, tr ++ evs) ∧ Q r evs.

(** A call that raised. *)
Definition failed (ev : Event) : bool :=
  match ev with
  | Call _ (Some _) => true
  | _ => false
  end.

(** No call among the events raised. *)
Definition clean (evs : list Event) : Prop :=
  Forall (λ ev, failed ev = false) evs.

(** The last event is a call that raised with [text]; no call before it
    raised. *)
Definition raised_last (text : string) (evs : list Event) : Prop :=
  ∃ op evs', evs = evs' ++ [Call op (Some text)] ∧ clean evs'.

(** A run that returns made no failing call; a run that raises does so
    with the exception of its last call, the first one to fail. *)
Definition reports {A} (r : Res A) (evs : list Event) : Prop :=
  match r with
  | Return _ => clean evs
  | Raise e => ∃ text, e = Exception text ∧ raised_last text evs
  end.

(** The same for the body of the [try] block of [backdate_commit], which
    returns [True] when it returns. *)
Definition reports_true (r : Res bool) (evs : list Event) : Prop :=
  match r with
  | Return b => b = true ∧ clean evs
  | Raise e => ∃ text, e = Exception text ∧ raised_last text evs
  end.

(** The [date] argument is a [datetime] or a string that [strptime]
    accepts. *)
Definition date_parses (date : DateArg) : Prop :=
  match date with
  | DateStr s => is_Some (Strptime.strptime s)
  | DateTime _ => True
  end.

(** A run that returns and makes no failing call. *)
Definition quiet {A} (r : Res A) (evs : list Event) : Prop :=
  (∃ a, r = Return a) ∧ clean evs.

(** The text printed by the handler of [backdate_commit]. *)
Definition commit_error (e : string) : Event :=
  Printed ("Error creating backdated commit: " +:+ e).

(** [backdate_commit] returned: [True] after calls that all succeeded, or
    [False] after a call that raised, which was its last call and whose
    exception was printed. *)
Definition commit_result (r : Res bool) (evs : list Event) : Prop :=
  ∃ b, r = Return b
       ∧ if b then clean evs
         else ∃ text evs', evs = evs' ++ [commit_error text]
                           ∧ raised_last text evs'.

(** ** Environments of the examples *)

(** Nothing raises, no file exists. *)
Definition quiet_env : Env :=
  {| raises := λ _ _, None; exists_ := λ _ _, false;
     contents := λ _ _, ""; now := λ _, "2024-03-10T12:00:00";
     draw := λ _, 0 |}.

(** An environment in which pushing fails. *)
Definition push_fails_env : Env :=
  {| raises := λ _ op,
       match op with
       | OpGitPush _ => Some "failed to push some refs"
       | _ => None
       end;
     exists_ := λ _ _, true;
     contents := λ _ _, "# Notes"; now := λ _, "2024-03-10T12:00:00";
     draw := λ _, 7 |}.

(** ** What one commit of [bulk_backdate] can do *)

(** Events before the [try] block of an attempt: the directory was
    created, random numbers were drawn, the program slept. *)
Definition prelude (ev : Event) : Prop :=
  match ev with
  | Call (OpMakedirs _) None | Random _ | Sleep => True
  | _ => False
  end.

(** What one iteration of the inner loop can do: its result and the events
    it appends. [pre] are the events before the [try] block. *)
Inductive attempt_run (repo_path date_str : string) (commit_count : Z)
    (i : nat) : Res bool → list Event → Prop :=
| attempt_makedirs_raises e :
    attempt_run repo_path date_str commit_count i (Raise (Exception e))
      [Call (OpMakedirs
               (dirname (path_join repo_path (bulk_file_path date_str i))))
            (Some e)]
| attempt_bad_date pre :
    Strptime.strptime date_str = None →
    Forall prelude pre →
    attempt_run repo_path date_str commit_count i
      (Raise (strptime_error date_str)) pre
| attempt_committed pre git_date :
    Forall prelude pre →
    let file_path := bulk_file_path date_str i in
    let full_path := path_join repo_path file_path in
    attempt_run repo_path date_str commit_count i (Return true)
      (pre ++ [Call (OpRepo repo_path) None;
               Call (OpMakedirs (dirname full_path)) None;
               Call (OpWrite full_path
                       (bulk_content date_str i commit_count)) None;
               Call (OpGitAdd repo_path file_path) None;
               Call (OpGitCommit repo_path
                       (bulk_commit_message date_str i commit_count)
                       git_date) None])
| attempt_repo_raises pre e :
    Forall prelude pre →
    attempt_run repo_path date_str commit_count i (Return false)
      (pre ++ [Call (OpRepo repo_path) (Some e); commit_error e])
| attempt_inner_makedirs_raises pre e :
    Forall prelude pre →
    let full_path := path_join repo_path (bulk_file_path date_str i) in
    attempt_run repo_path date_str commit_count i (Return false)
      (pre ++ [Call (OpRepo repo_path) None;
               Call (OpMakedirs (dirname full_path)) (Some e);
               commit_error e])
| attempt_write_raises pre e :
    Forall prelude pre →
    let full_path := path_join repo_path (bulk_file_path date_str i) in
    attempt_run repo_path date_str commit_count i (Return false)
      (pre ++ [Call (OpRepo repo_path) None;
               Call (OpMakedirs (dirname full_path)) None;
               Call (OpWrite full_path
                       (bulk_content date_str i commit_count)) (Some e);
               commit_error e])
| attempt_add_raises pre e :
    Forall prelude pre →
    let file_path := bulk_file_path date_str i in
    let full_path := path_join repo_path file_path in
    attempt_run repo_path date_str commit_count i (Return false)
      (pre ++ [Call (OpRepo repo_path) None;
               Call (OpMakedirs (dirname full_path)) None;
               Call (OpWrite full_path
                       (bulk_content date_str i commit_count)) None;
               Call (OpGitAdd repo_path file_path) (Some e);
               commit_error e])
| attempt_commit_raises pre git_date e :
    Forall prelude pre →
    let file_path := bulk_file_path date_str i in
    let full_path := path_join repo_path file_path in
    attempt_run repo_path date_str commit_count i (Return false)
      (pre ++ [Call (OpRepo repo_path) None;
               Call (OpMakedirs (dirname full_path)) None;
               Call (OpWrite full_path
                       (bulk_content date_str i commit_count)) None;
               Call (OpGitAdd repo_path file_path) None;
               Call (OpGitCommit repo_path
                       (bulk_commit_message date_str i commit_count)
                       git_date) (Some e);
               commit_error e]).

(** ** Events and results of the loops of [bulk_backdate] *)

(** A call of [repo.git.push()]. *)
Definition is_push (ev : Event) : bool :=
  match ev with
  | Call (OpGitPush _) _ => true
  | _ => false
  end.

(** A call of [repo.git.commit(...)]. *)
Definition is_commit (ev : Event) : bool :=
  match ev with
  | Call (OpGitCommit _ _ _) _ => true
  | _ => false
  end.

(** The number of calls of [repo.git.push()]. *)
Definition pushes (evs : list Event) : nat :=
  length (filter (λ ev, is_push ev = true) evs).

(** The paths of the files written, in order. *)
Definition written (evs : list Event) : list string :=
  omap (λ ev, match ev with
              | Call (OpWrite path _) None => Some path
              | _ => None
              end) evs.

(** Calls that come after the file has been written. *)
Definition after_write (op : Op) : bool :=
  match op with
  | OpGitAdd _ _ | OpGitCommit _ _ _ | OpGitPush _ => true
  | _ => false
  end.

(** The events of one date: the commits, without any push, then at most
    one push, attempted only after commits that all succeeded. *)
Definition date_block (block : list Event) : Prop :=
  ∃ commits tail,
    block = commits ++ tail
    ∧ pushes commits = 0%nat
    ∧ Forall (λ ev, is_commit ev = false) tail
    ∧ (pushes tail ≤ 1)%nat
    ∧ (pushes tail = 1%nat → clean commits ∧ commits ≠ []).






(** [results[date_str] = success], for the dates in order. *)
Definition record (results : gmap string bool) (dates : list string)
    (bs : list bool) : gmap string bool :=
  foldl (λ results db, <[db.1 := db.2]> results) results (zip dates bs).



(** A call of [Repo(...)]. *)
Definition is_repo (ev : Event) : bool :=
  match ev with
  | Call (OpRepo _) _ => true
  | _ => false
  end.

(** The number of times [Repo(...)] has been called. *)
Definition repo_calls (tr : list Event) : nat :=
  length (filter (λ ev, is_repo ev = true) tr).

(** An environment in which the call number [n] (from 0) of [Repo(...)]
    fails. *)
Definition repo_fails_env (n : nat) : Env :=
  {| raises := λ tr op,
       match op with
       | OpRepo _ =>
           if (repo_calls tr =? n)%nat then Some "invalid repository" else None
       | _ => None
       end;
     exists_ := λ _ _, false;
     contents := λ _ _, ""; now := λ _, "2024-03-10T12:00:00";
     draw := λ _, 0 |}.

(** ** The steps of [backdate_commit] *)

(** The value of the [date] argument as a [datetime], when it has one. *)
Definition date_value (date : DateArg) : option datetime :=
  match date with
  | DateStr s => Strptime.strptime s
  | DateTime d => Some d
  end.

(** The time of day is 00:00:00. *)
Definition midnight (d : datetime) : bool :=
  (hour d =? 0) && (minute d =? 0) && (second d =? 0).

(** [d'] may be the time of the commit made for the date [d]: the same
    day; the time of [d], unless that is midnight, and then a time from
    09:00:00 to 19:59:59. *)
Definition commit_time (d d' : datetime) : Prop :=
  year d' = year d ∧ month d' = month d ∧ day d' = day d
  ∧ if midnight d
    then 9 <= hour d' <= 19 ∧ 0 <= minute d' <= 59 ∧ 0 <= second d' <= 59
    else d' = d.

(** [message] may be the message of the commit: the one given, unless
    that is [None] or empty, and then one of [commit_messages]. *)
Definition message_choice (commit_message : option string)
    (message : string) : Prop :=
  if falsy commit_message then message ∈ commit_messages
  else commit_message = Some message.

(** The file that is written: [README.md] unless a name is given. *)
Definition target_file (file_path : option string) : string :=
  if falsy file_path then "README.md" else default "" file_path.

(** The texts written when no content is given. *)
Definition updated_content (old stamp : string) : string :=
  old +:+ nl +:+ nl +:+ "<!-- Updated: " +:+ stamp +:+ " -->".

Definition placeholder_content (stamp : string) : string :=
  "# Placeholder" +:+ nl +:+ nl
  +:+ "This file was created by GitHub Streak Manager."
  +:+ nl +:+ nl +:+ "<!-- Created: " +:+ stamp +:+ " -->".

(** How the text to write is found, from trace [tr] on: the events [look]
    and the text [content]. A given text is taken as it is, without a look
    at the file; otherwise an existing file is read and a marker is put
    after its content, and a file that does not exist gets a
    placeholder. *)
Inductive file_look (env : Env) (tr : list Event) (full_path : string)
  : option string → list Event → string → Prop :=
| look_given content :
    file_look env tr full_path (Some content) [] content
| look_existing stamp :
    file_look env tr full_path None
      [PathExists full_path true; Call (OpRead full_path) None; Now stamp]
      (updated_content
         (contents env (tr ++ [PathExists full_path true]) full_path) stamp)
| look_absent stamp :
    file_look env tr full_path None
      [PathExists full_path false; Now stamp]
      (placeholder_content stamp).

(** The events of a [try] block in which nothing fails. *)
Definition commit_script (repo_path file_path : string) (look : list Event)
    (content message git_date : string) (push : bool) : list Event :=
  let full_path := path_join repo_path file_path in
  [Call (OpRepo repo_path) None] ++ look
  ++ [Call (OpMakedirs (dirname full_path)) None;
      Call (OpWrite full_path content) None;
      Call (OpGitAdd repo_path file_path) None;
      Call (OpGitCommit repo_path message git_date) None]
  ++ (if push then [Call (OpGitPush repo_path) None] else []).

(** A run follows [script]: it returns [True] after all of its events, or
    it raises the exception of a call that failed, after the events
    before that call. *)
Definition carried_out (script : list Event) (r : Res bool)
    (evs : list Event) : Prop :=
  match r with
  | Return b => b = true ∧ evs = script
  | Raise e =>
      ∃ n op text,
        e = Exception text
        ∧ script !! n = Some (Call op None)
        ∧ evs = take n script ++ [Call op (Some text)]
  end.

(** The operations called, in order, whether they failed or not. *)
Definition calls (evs : list Event) : list Op :=
  omap (λ ev, match ev with Call op _ => Some op | _ => None end) evs.

(** The operations of a [try] block in which nothing fails; [read] tells
    whether the file is read. *)
Definition commit_plan (repo_path file_path : string) (read : bool)
    (content message git_date : string) (push : bool) : list Op :=
  let full_path := path_join repo_path file_path in
  [OpRepo repo_path] ++ (if read then [OpRead full_path] else [])
  ++ [OpMakedirs (dirname full_path); OpWrite full_path content;
      OpGitAdd repo_path file_path;
      OpGitCommit repo_path message git_date]
  ++ (if push then [OpGitPush repo_path] else []).

(** A random draw. *)
Definition is_draw (ev : Event) : Prop :=
  match ev with Random _ => True | _ => False end.

(** An event in which the file system is asked about a file or the file
    is read. *)
Definition looks_at_file (ev : Event) : Prop :=
  match ev with
  | PathExists _ _ | Call (OpRead _) _ => True
  | _ => False
  end.

(** ** Counting the commits of [bulk_backdate] *)

(** The number of calls of [repo.git.commit(...)]. *)
Definition commits (evs : list Event) : nat :=
  length (filter (λ ev, is_commit ev = true) evs).

(** In this environment no call into git or the file system raises. *)
Definition never_raises (env : Env) : Prop :=
  ∀ tr op, raises env tr op = None.

(** ** The dates [fill_missing_streak_dates] works on *)

(** [a] stands before [b] in a list of dates in ascending order without
    repetition. *)
Definition earlier (a b : string) : Prop := String.ltb a b = true.

(** [s] is a missing date of the report: one of the 30 days up to
    [today], at most [days_back] days before [today]. *)
Definition to_fill (streak_info : StreakReport) (today days_back : Z)
    (s : string) : Prop :=
  s ∈ missing_dates streak_info
  ∧ ∃ i : nat, (i < 30)%nat ∧ Z.of_nat i <= days_back
               ∧ s = Calendar.isoformat (today - Z.of_nat i).

(** ** Log records of the scheduler *)

Definition logged_info (text : string) : Event := Printed ("INFO - " +:+ text).

Definition logged_error (text : string) : Event := Printed ("ERROR - " +:+ text).

(** Yesterday with a contribution, today with an entry and none. *)
Definition calendar_idle_today : list (list ContributionDay) :=
  [[mkDay "2024-03-09" 1; mkDay "2024-03-10" 0]].

(** ** The order of suggested repositories *)

(** [a] may stand in front of [b] in a list sorted by the time of the
    last update, oldest first. *)
Definition not_updated_later (a b : RepoInfo) : Prop :=
  String.leb (updated_key a) (updated_key b) = true.

(** The repositories that [suggest_repos] selects. *)
Definition selected (repos : list RepoInfo) (lang : option string)
  : list RepoInfo :=
  match lang with
  | None | Some "" => repos
  | Some l => filter (λ repo, language repo = Some l) repos
  end.

(** ** Days of a bulk run *)

(** The day number of a [datetime]. *)
Definition toordinal (d : datetime) : Z :=
  Calendar.ymd2ord (year d) (month d) (day d).

(** The days from number [first] to number [last], in order. *)
Definition days_between (first last : Z) : list string :=
  Calendar.isoformat <$> seqZ first (last - first + 1).

(** 1000-01-01. *)
Definition first_day_of_1000 : Z := Calendar.ymd2ord 1000 1 1.

(** Day number [n] at 00:00:00. *)
Definition day_start (n : Z) : datetime :=
  let '(y, m, d) := Calendar.ord2ymd n in mkDatetime y m d 0 0 0.

(** ** The commits and the push of one date *)

(** The messages of the calls of [repo.git.commit], in order. *)
Definition committed (evs : list Event) : list string :=
  omap (λ ev, match ev with
              | Call (OpGitCommit _ message _) _ => Some message
              | _ => None
              end) evs.

(** The messages of the commits that [bulk_backdate] makes for a date. *)
Definition date_messages (date_str : string) (commit_count : Z)
  : list string :=
  (λ i, bulk_commit_message date_str i commit_count)
    <$> seq 0 (Z.to_nat commit_count).

(** The events of the block that pushes the commits of a date, and the
    value it leaves in [success]: the repository is opened and one push
    is attempted, unless opening the repository raises. *)
Inductive push_run (repo_path : string) : bool → list Event → Prop :=
| push_done :
    push_run repo_path true
      [Call (OpRepo repo_path) None; Call (OpGitPush repo_path) None]
| push_raises e :
    push_run repo_path false
      [Call (OpRepo repo_path) None; Call (OpGitPush repo_path) (Some e);
       Printed ("Error pushing commits: " +:+ e)]
| push_repo_raises e :
    push_run repo_path false
      [Call (OpRepo repo_path) (Some e);
       Printed ("Error pushing commits: " +:+ e)].

(** The events of one date in a run with push, and the value recorded for
    the date: first the events of its commits, without a push; then, when
    all [commit_count] commits were made and no call raised, the push
    block; after a commit loop that made no attempt or in which a call
    raised, nothing, and the value is [False]. *)
Definition pushed_block (repo_path : string) (commit_count : Z)
    (date_str : string) (success : bool) (block : list Event) : Prop :=
  ∃ commits tail,
    block = commits ++ tail
    ∧ pushes commits = 0%nat
    ∧ committed commits `prefix_of` date_messages date_str commit_count
    ∧ ((clean commits ∧ commits ≠ []
        ∧ committed commits = date_messages date_str commit_count
        ∧ push_run repo_path success tail)
       ∨ ((commits = [] ∨ ¬ clean commits) ∧ tail = [] ∧ success = false)).

(** ** The form of a date string *)

(** The form [YYYY-MM-DD]: four digits, two digits and two digits, with
    hyphens between them. *)
Definition yyyy_mm_dd (s : string) : bool :=
  match list_ascii_of_string s with
  | [y1; y2; y3; y4; h1; m1; m2; h2; d1; d2] =>
      forallb Strptime.is_digit [y1; y2; y3; y4; m1; m2; d1; d2]
      && Ascii.eqb h1 "-" && Ascii.eqb h2 "-"
  | _ => false
  end.

(** * Properties *)

(** ** Calendar arithmetic *)

Section CalendarFacts.
  Import Calendar.

Lemma digit_code n : N_of_ascii (digit n) = (48 + Z.to_N (n mod 10))%N.
Proof.
  unfold digit. apply N_ascii_embedding.
  pose proof (Z.mod_pos_bound n 10). lia.
Qed.

Lemma digit_compare a b :
  Ascii.compare (digit a) (digit b) = (a mod 10 ?= b mod 10).
Proof.
  unfold Ascii.compare. rewrite !digit_code.
  pose proof (Z.mod_pos_bound a 10). pose proof (Z.mod_pos_bound b 10).
  destruct (Z.compare_spec (a mod 10) (b mod 10)) as [Heq|Hlt|Hgt].
  - rewrite Heq. apply N.compare_refl.
  - apply N.compare_lt_iff. lia.
  - apply N.compare_gt_iff. lia.
Qed.

Lemma month_day_checked :
  forallb (λ k : nat,
    let n := Z.of_nat k in
    forallb (λ leap : bool,
      negb (n <? 365 + b2z leap) ||
      let '(m, d) := month_day leap n in
      (1 <=? m) && (m <=? 12) && (1 <=? d)
      && (d <=? DAYS_IN_MONTH m + b2z ((m =? 2) && leap))
      && (DAYS_BEFORE_MONTH m + b2z ((2 <? m) && leap) + d =? n + 1))
      [true; false]) (seq 0 366) = true.
Proof. vm_compute. reflexivity. Qed.

Lemma month_day_spec leap n m d :
  0 <= n < 365 + b2z leap →
  month_day leap n = (m, d) →
  1 <= m <= 12 ∧ 1 <= d <= DAYS_IN_MONTH m + b2z ((m =? 2) && leap)
  ∧ DAYS_BEFORE_MONTH m + b2z ((2 <? m) && leap) + d = n + 1.
Proof.
  intros Hn Hmd. pose proof month_day_checked as Hall.
  rewrite forallb_forall in Hall.
  specialize (Hall (Z.to_nat n)). rewrite Z2Nat.id in Hall by lia.
  assert (In (Z.to_nat n) (seq 0 366)) as Hin.
  { apply in_seq. destruct leap; simpl in Hn; lia. }
  specialize (Hall Hin). cbv zeta in Hall. rewrite forallb_forall in Hall.
  specialize (Hall leap). rewrite Hmd in Hall.
  assert (In leap [true; false]) as Hl by (destruct leap; simpl; auto).
  specialize (Hall Hl).
  destruct (n <? 365 + b2z leap) eqn:E; [|lia]. simpl in Hall.
  repeat (apply andb_prop in Hall as [Hall ?]). lia.
Qed.

Lemma days_before_year_cycles q400 q100 q4 q1 :
  0 <= q100 <= 3 → 0 <= q4 <= 24 → 0 <= q1 <= 3 →
  days_before_year (400 * q400 + 100 * q100 + 4 * q4 + q1 + 1)
  = 146097 * q400 + 36524 * q100 + 1461 * q4 + 365 * q1.
Proof.
  intros H100 H4 H1. unfold days_before_year. cbv zeta.
  replace (400 * q400 + 100 * q100 + 4 * q4 + q1 + 1 - 1)
    with (400 * q400 + 100 * q100 + 4 * q4 + q1) by lia.
  Z.to_euclidean_division_equations; lia.
Qed.

Lemma is_leap_cycles q400 q100 q4 q1 :
  0 <= q100 <= 3 → 0 <= q4 <= 24 → 0 <= q1 <= 3 →
  is_leap (400 * q400 + 100 * q100 + 4 * q4 + q1 + 1)
  = (q1 =? 3) && (negb (q4 =? 24) || (q100 =? 3)).
Proof.
  intros H100 H4 H1. unfold is_leap.
  set (Y := 400 * q400 + 100 * q100 + 4 * q4 + q1 + 1).
  assert (Y mod 4 = 0 ↔ q1 = 3) as L4
    by (subst Y; Z.to_euclidean_division_equations; lia).
  assert (Y mod 100 = 0 ↔ q1 = 3 ∧ q4 = 24) as L100
    by (subst Y; Z.to_euclidean_division_equations; lia).
  assert (Y mod 400 = 0 ↔ q1 = 3 ∧ q4 = 24 ∧ q100 = 3) as L400
    by (subst Y; Z.to_euclidean_division_equations; lia).
  destruct (Z.eqb_spec (Y mod 4) 0), (Z.eqb_spec (Y mod 100) 0),
    (Z.eqb_spec (Y mod 400) 0), (Z.eqb_spec q1 3), (Z.eqb_spec q4 24),
    (Z.eqb_spec q100 3); simpl; try reflexivity; exfalso; tauto || lia.
Qed.

Lemma ord2ymd_spec n y m d :
  1 <= n <= MAXORDINAL →
  ord2ymd n = (y, m, d) →
  1 <= y <= 9999 ∧ 1 <= m <= 12 ∧ 1 <= d <= days_in_month y m
  ∧ ymd2ord y m d = n.
Proof.
  unfold MAXORDINAL, ord2ymd, DI400Y, DI100Y, DI4Y. intros Hn.
  set (n0 := n - 1).
  set (n400 := n0 / 146097). set (r1 := n0 mod 146097).
  set (n100 := r1 / 36524). set (r2 := r1 mod 36524).
  set (n4 := r2 / 1461). set (r3 := r2 mod 1461).
  set (n1 := r3 / 365). set (r4 := r3 mod 365).
  pose proof (Z.div_mod n0 146097 ltac:(lia)) as E1.
  pose proof (Z.mod_pos_bound n0 146097 ltac:(lia)) as B1.
  pose proof (Z.div_mod r1 36524 ltac:(lia)) as E2.
  pose proof (Z.mod_pos_bound r1 36524 ltac:(lia)) as B2.
  pose proof (Z.div_mod r2 1461 ltac:(lia)) as E3.
  pose proof (Z.mod_pos_bound r2 1461 ltac:(lia)) as B3.
  pose proof (Z.div_mod r3 365 ltac:(lia)) as E4.
  pose proof (Z.mod_pos_bound r3 365 ltac:(lia)) as B4.
  fold n400 r1 in E1, B1. fold n100 r2 in E2, B2.
  fold n4 r3 in E3, B3. fold n1 r4 in E4, B4.
  assert (0 <= n400 <= 24) as Hn400 by (subst n0; lia).
  assert (0 <= n100 <= 4) as Hn100 by lia.
  assert (0 <= n4 <= 24) as Hn4 by lia.
  assert (0 <= n1 <= 4) as Hn1 by lia.
  clearbody n400 r1 n100 r2 n4 r3 n1 r4.
  destruct ((n1 =? 4) || (n100 =? 4)) eqn:Hspecial.
  - intros [= <- <- <-].
    assert (∃ q100 q4,
              0 <= q100 <= 3 ∧ 0 <= q4 <= 24 ∧ (q4 = 24 → q100 = 3)
              ∧ n400 * 400 + 1 + n100 * 100 + n4 * 4 + n1 - 1
                = 400 * n400 + 100 * q100 + 4 * q4 + 3 + 1
              ∧ n0 = 146097 * n400 + 36524 * q100 + 1461 * q4 + 1460)
      as (q100 & q4 & H100 & H4 & Himp & -> & Hn0).
    { apply orb_prop in Hspecial as [H|H]; apply Z.eqb_eq in H.
      - exists n100, n4. lia.
      - exists 3, 24. lia. }
    unfold days_in_month, ymd2ord, days_before_month.
    rewrite days_before_year_cycles, is_leap_cycles by lia.
    assert ((3 =? 3) && (negb (q4 =? 24) || (q100 =? 3)) = true) as ->.
    { destruct (Z.eqb_spec q4 24), (Z.eqb_spec q100 3); simpl; auto; lia. }
    simpl. subst n0. lia.
  - apply orb_false_elim in Hspecial as [H1 H100].
    apply Z.eqb_neq in H1, H100.
    remember ((n1 =? 3) && (negb (n4 =? 24) || (n100 =? 3))) as leap
      eqn:Hleap.
    destruct (month_day leap r4) as [mm dd] eqn:Hmd.
    intros [= <- <- <-].
    apply month_day_spec in Hmd as (Hm & Hd & Hsum);
      [|destruct leap; simpl; lia].
    replace (n400 * 400 + 1 + n100 * 100 + n4 * 4 + n1)
      with (400 * n400 + 100 * n100 + 4 * n4 + n1 + 1) by lia.
    unfold days_in_month, ymd2ord, days_before_month.
    rewrite days_before_year_cycles, is_leap_cycles by lia.
    rewrite <- Hleap. split; [lia|]. split; [lia|]. split.
    + destruct ((mm =? 2) && leap) eqn:E.
      * apply andb_prop in E as [->%Z.eqb_eq _]. simpl in Hd. lia.
      * simpl in Hd. lia.
    + subst n0. lia.
Qed.

Lemma days_in_year_bound y m d :
  1 <= m <= 12 → 1 <= d <= days_in_month y m →
  days_before_month y m + d <= 365 + b2z (is_leap y).
Proof.
  unfold days_in_month, days_before_month. intros Hm Hd.
  month_cases m Hc; destruct (is_leap y); simpl in *; lia.
Qed.

Lemma days_before_month_next y m m' :
  1 <= m → m < m' → m' <= 12 →
  days_before_month y m + days_in_month y m <= days_before_month y m'.
Proof.
  unfold days_in_month, days_before_month. intros Hm Hlt Hm'.
  assert (1 <= m <= 12) as Hr by lia. assert (1 <= m' <= 12) as Hr' by lia.
  month_cases m Hc; month_cases m' Hc'; try lia;
    destruct (is_leap y); simpl; lia.
Qed.

Lemma days_before_year_succ y :
  days_before_year (y + 1) = days_before_year y + 365 + b2z (is_leap y).
Proof.
  unfold days_before_year, is_leap. cbv zeta.
  replace (y + 1 - 1) with y by lia.
  destruct (Z.eqb_spec (y mod 4) 0), (Z.eqb_spec (y mod 100) 0),
    (Z.eqb_spec (y mod 400) 0); simpl;
    Z.to_euclidean_division_equations; lia.
Qed.

Lemma days_before_year_mono y y' :
  y <= y' → days_before_year y <= days_before_year y'.
Proof.
  unfold days_before_year. cbv zeta. intros Hle.
  Z.to_euclidean_division_equations. lia.
Qed.

Lemma ymd2ord_lt y m d y' m' d' :
  ymd_valid (y, m, d) → ymd_valid (y', m', d') →
  ymd_lt (y, m, d) (y', m', d') →
  ymd2ord y m d < ymd2ord y' m' d'.
Proof.
  intros (Hy & Hm & Hd) (Hy' & Hm' & Hd') Hlt. unfold ymd2ord.
  destruct Hlt as [Hlt|[<- [Hlt|[<- Hlt]]]].
  - pose proof (days_in_year_bound y m d Hm Hd).
    pose proof (days_before_year_succ y).
    pose proof (days_before_year_mono (y + 1) y' ltac:(lia)).
    assert (0 <= days_before_month y' m').
    { unfold days_before_month.
      month_cases m' Hc; destruct (is_leap y'); simpl; lia. }
    lia.
  - pose proof (days_before_month_next y m m' ltac:(lia) Hlt ltac:(lia)).
    lia.
  - lia.
Qed.

Lemma ord2ymd_lt n n' :
  1 <= n → n < n' → n' <= MAXORDINAL →
  ymd_valid (ord2ymd n) ∧ ymd_valid (ord2ymd n')
  ∧ ymd_lt (ord2ymd n) (ord2ymd n').
Proof.
  intros H1 Hlt Hmax.
  destruct (ord2ymd n) as [[y m] d] eqn:E.
  destruct (ord2ymd n') as [[y' m'] d'] eqn:E'.
  apply ord2ymd_spec in E as (Hy & Hm & Hd & Hn); [|lia].
  apply ord2ymd_spec in E' as (Hy' & Hm' & Hd' & Hn'); [|lia].
  split; [done|]. split; [done|].
  destruct (Z.lt_trichotomy y y') as [?|[<-|Hgt]]; [by left| |].
  - destruct (Z.lt_trichotomy m m') as [?|[<-|Hgt]]; [right; auto| |].
    + destruct (Z.lt_trichotomy d d') as [?|[<-|Hgt]];
        [right; auto|lia|].
      assert (ymd2ord y m d' < ymd2ord y m d); [|lia].
      apply ymd2ord_lt; try done. right; auto.
    + assert (ymd2ord y m' d' < ymd2ord y m d); [|lia].
      apply ymd2ord_lt; try done. right; auto.
  - assert (ymd2ord y' m' d' < ymd2ord y m d); [|lia].
    apply ymd2ord_lt; try done. by left.
Qed.

Lemma iso_string_lt y m d y' m' d' :
  0 <= y <= 9999 → 0 <= y' <= 9999 →
  0 <= m <= 99 → 0 <= m' <= 99 → 0 <= d <= 99 → 0 <= d' <= 99 →
  ymd_lt (y, m, d) (y', m', d') →
  String.ltb (fmt04 y +:+ "-" +:+ fmt02 m +:+ "-" +:+ fmt02 d)
             (fmt04 y' +:+ "-" +:+ fmt02 m' +:+ "-" +:+ fmt02 d') = true.
Proof.
  intros Hy Hy' Hm Hm' Hd Hd' Hlt. unfold ymd_lt in Hlt.
  unfold String.ltb. cbv [String.append String.compare fmt04 fmt02].
  rewrite !digit_compare.
  change (Ascii.compare "-" "-") with Eq. cbv iota.
  repeat match goal with
  | |- context [?a ?= ?b] =>
      destruct (Z.compare_spec a b);
      [ | reflexivity | exfalso; Z.to_euclidean_division_equations; lia ]
  end.
  exfalso. Z.to_euclidean_division_equations. lia.
Qed.

(** Later dates have greater ISO strings. *)
Lemma isoformat_lt n n' :
  1 <= n → n < n' → n' <= MAXORDINAL →
  String.ltb (isoformat n) (isoformat n') = true.
Proof.
  intros H1 Hlt Hmax.
  destruct (ord2ymd_lt n n' H1 Hlt Hmax) as (Hv & Hv' & Hl).
  unfold isoformat.
  destruct (ord2ymd n) as [[y m] d], (ord2ymd n') as [[y' m'] d'].
  destruct Hv as (Hy & Hm & Hd), Hv' as (Hy' & Hm' & Hd').
  assert (∀ y m, days_in_month y m <= 99) as Hdim.
  { intros y0 m0. unfold days_in_month.
    destruct ((m0 =? 2) && is_leap y0); [lia|].
    unfold DAYS_IN_MONTH. repeat case_match; lia. }
  pose proof (Hdim y m). pose proof (Hdim y' m').
  apply iso_string_lt; try lia. done.
Qed.

End CalendarFacts.

(** ** [strptime] reads what [isoformat] writes *)

Section StrptimeFacts.
Import Calendar Strptime.

Lemma digit_is_digit n : is_digit (digit n) = true.
Proof.
  unfold is_digit. rewrite digit_code.
  pose proof (Z.mod_pos_bound n 10 ltac:(lia)).
  apply andb_true_intro. split; [apply Z.leb_le|apply Z.leb_le]; lia.
Qed.

Lemma digit_value n : value (digit n) = n mod 10.
Proof.
  unfold value. rewrite digit_code.
  pose proof (Z.mod_pos_bound n 10 ltac:(lia)). lia.
Qed.

Lemma parse_Y_fmt04 y rest :
  0 <= y <= 9999 → parse_Y (fmt04 y +:+ rest) = Some (y, rest).
Proof.
  intros Hy. unfold fmt04. cbv [String.append parse_Y].
  rewrite !digit_is_digit, !digit_value. simpl. do 2 f_equal.
  Z.to_euclidean_division_equations. lia.
Qed.

Lemma parse_m_fmt02 m rest :
  1 <= m <= 12 →
  parse_m (fmt02 m +:+ String "-" rest) = Some (m, String "-" rest).
Proof.
  intros Hm. month_cases m Hc; reflexivity.
Qed.

Lemma parse_d_fmt02 d :
  1 <= d <= 31 → parse_d (fmt02 d) = Some (d, "").
Proof.
  intros Hd.
  assert (∃ k : nat, d = Z.of_nat k ∧ (k < 32)%nat) as (k & -> & Hk)
    by (exists (Z.to_nat d); lia).
  do 32 (destruct k as [|k]; [try lia; reflexivity|]). lia.
Qed.

(** [strptime] reads back the ISO string of every date. *)
Lemma strptime_isoformat n y m d :
  1 <= n <= MAXORDINAL → ord2ymd n = (y, m, d) →
  strptime (isoformat n) = Some (mkDatetime y m d 0 0 0).
Proof.
  intros Hn Hymd. unfold isoformat. rewrite Hymd.
  apply ord2ymd_spec in Hymd as (Hy & Hm & Hd & _); [|done].
  assert (d <= 31) as Hd31.
  { unfold days_in_month in Hd.
    destruct ((m =? 2) && is_leap y); [lia|].
    month_cases m Hc; simpl in Hd; lia. }
  unfold strptime.
  rewrite parse_Y_fmt04 by lia. cbn [mbind option_bind].
  change ("-" +:+ fmt02 m +:+ "-" +:+ fmt02 d)
    with (String "-" (fmt02 m +:+ String "-" (fmt02 d))).
  cbn [expect_sep Ascii.eqb Bool.eqb mbind option_bind].
  rewrite parse_m_fmt02 by lia.
  cbn [expect_sep Ascii.eqb Bool.eqb mbind option_bind].
  rewrite parse_d_fmt02 by lia.
  cbn [mbind option_bind String.eqb andb].
  destruct (1 <=? y) eqn:E1; [|lia].
  destruct (d <=? days_in_month y m) eqn:E2; [done|lia].
Qed.

(** The scheduler passes [datetime.date.today().isoformat()]: such a
    string always parses. *)
Lemma isoformat_parses n :
  1 <= n <= MAXORDINAL → date_parses (DateStr (isoformat n)).
Proof.
  intros Hn. destruct (ord2ymd n) as [[y m] d] eqn:Hymd. simpl.
  erewrite strptime_isoformat; [by eexists|done|done].
Qed.

End StrptimeFacts.

(** ** The order of date strings *)

Section StringOrder.

Lemma ltb_leb (a b : string) : String.ltb a b = negb (String.leb b a).
Proof.
  unfold String.ltb, String.leb. rewrite (String.compare_antisym b a).
  by destruct (String.compare a b).
Qed.

Lemma ltb_irrefl (a : string) : String.ltb a a = false.
Proof.
  rewrite ltb_leb. apply negb_false_iff, Is_true_true.
  by change (String.le a a).
Qed.

Lemma leb_trans (a b c : string) :
  String.leb a b = true → String.leb b c = true → String.leb a c = true.
Proof.
  intros Hab%Is_true_true Hbc%Is_true_true. apply Is_true_true.
  change (String.le a c). by transitivity b.
Qed.

Lemma ltb_leb_weak (a b : string) :
  String.ltb a b = true → String.leb a b = true.
Proof.
  unfold String.ltb, String.leb. by destruct (String.compare a b).
Qed.

Lemma ltb_trans (a b c : string) :
  String.ltb a b = true → String.ltb b c = true → String.ltb a c = true.
Proof.
  intros Hab Hbc. rewrite ltb_leb. apply negb_true_iff.
  destruct (String.leb c a) eqn:Hca; [|done].
  assert (String.leb c b = true) as Hcb
    by eauto using leb_trans, ltb_leb_weak.
  rewrite ltb_leb, Hcb in Hbc. done.
Qed.

Lemma ltb_asym (a b : string) :
  String.ltb a b = true → String.ltb b a = false.
Proof.
  intros Hab. destruct (String.ltb b a) eqn:Hba; [|done].
  pose proof (ltb_trans _ _ _ Hab Hba) as Haa.
  by rewrite ltb_irrefl in Haa.
Qed.

End StringOrder.

(** ** The two sorts *)

Section Sorts.

Lemma collect_days_concat weeks : collect_days weeks = concat weeks.
Proof.
  unfold collect_days.
  assert (∀ (week : list ContributionDay) acc,
            foldl (λ acc day, acc ++ [day]) acc week = acc ++ week) as Hin.
  { induction week as [|d week IH]; intros acc; simpl.
    - by rewrite app_nil_r.
    - by rewrite IH, <- app_assoc. }
  assert (∀ (ws : list (list ContributionDay)) acc,
            foldl (λ acc week, foldl (λ acc day, acc ++ [day]) acc week)
              acc ws = acc ++ concat ws) as Hout.
  { induction ws as [|w ws IH]; intros acc; simpl.
    - by rewrite app_nil_r.
    - by rewrite IH, Hin, <- app_assoc. }
  apply Hout.
Qed.

Lemma insert_reverse_perm x l : insert_reverse x l ≡ₚ x :: l.
Proof.
  induction l as [|y l IH]; simpl; [done|].
  destruct (String.ltb (date x) (date y)); [|done].
  rewrite IH. apply Permutation_swap.
Qed.

Lemma sort_reverse_perm l : sort_reverse l ≡ₚ l.
Proof.
  induction l as [|x l IH]; simpl; [done|].
  by rewrite insert_reverse_perm, IH.
Qed.

Lemma insert_reverse_sorted x l :
  StronglySorted not_older l → StronglySorted not_older (insert_reverse x l).
Proof.
  induction 1 as [|y l Hl IH Hy]; simpl.
  - repeat constructor.
  - destruct (String.ltb (date x) (date y)) eqn:Hxy.
    + constructor; [done|].
      rewrite insert_reverse_perm. constructor; [|done].
      by apply ltb_leb_weak.
    + assert (not_older x y) as Hx.
      { unfold not_older. rewrite ltb_leb in Hxy.
        by apply negb_false_iff in Hxy. }
      constructor; [by constructor|]. constructor; [done|].
      eapply Forall_impl; [exact Hy|]. intros z Hz.
      unfold not_older in *. eauto using leb_trans.
Qed.

Lemma sort_reverse_sorted l : StronglySorted not_older (sort_reverse l).
Proof.
  induction l as [|x l IH]; simpl; [constructor|].
  by apply insert_reverse_sorted.
Qed.

Lemma insert_sorted_perm x l : insert_sorted x l ≡ₚ x :: l.
Proof.
  induction l as [|y l IH]; simpl; [done|].
  destruct (String.ltb (date y) (date x)); [|done].
  rewrite IH. apply Permutation_swap.
Qed.

Lemma sorted_perm l : sorted l ≡ₚ l.
Proof.
  induction l as [|x l IH]; simpl; [done|].
  by rewrite insert_sorted_perm, IH.
Qed.

Lemma insert_sorted_sorted x l :
  StronglySorted not_newer l → StronglySorted not_newer (insert_sorted x l).
Proof.
  induction 1 as [|y l Hl IH Hy]; simpl.
  - repeat constructor.
  - destruct (String.ltb (date y) (date x)) eqn:Hxy.
    + constructor; [done|].
      rewrite insert_sorted_perm. constructor; [|done].
      by apply ltb_leb_weak.
    + assert (not_newer x y) as Hx.
      { unfold not_newer. rewrite ltb_leb in Hxy.
        by apply negb_false_iff in Hxy. }
      constructor; [by constructor|]. constructor; [done|].
      eapply Forall_impl; [exact Hy|]. intros z Hz.
      unfold not_newer in *. eauto using leb_trans.
Qed.

Lemma sorted_sorted l : StronglySorted not_newer (sorted l).
Proof.
  induction l as [|x l IH]; simpl; [constructor|].
  by apply insert_sorted_sorted.
Qed.

(** Stability: the entries of one date keep their order. *)
Lemma insert_reverse_stable s x l :
  filter (λ d, date d = s) (insert_reverse x l)
  = filter (λ d, date d = s) (x :: l).
Proof.
  induction l as [|y l IH]; simpl; [done|].
  destruct (String.ltb (date x) (date y)) eqn:Hxy; [|done].
  rewrite filter_cons, IH, !filter_cons.
  destruct (decide (date y = s)) as [Hy|Hy]; [|done].
  destruct (decide (date x = s)) as [Hx|Hx]; [|done].
  rewrite Hx, Hy, ltb_irrefl in Hxy. done.
Qed.

Lemma sort_reverse_stable s l :
  filter (λ d, date d = s) (sort_reverse l) = filter (λ d, date d = s) l.
Proof.
  induction l as [|x l IH]; simpl; [done|].
  by rewrite insert_reverse_stable, !filter_cons, IH.
Qed.

Lemma insert_sorted_stable s x l :
  filter (λ d, date d = s) (insert_sorted x l)
  = filter (λ d, date d = s) (x :: l).
Proof.
  induction l as [|y l IH]; simpl; [done|].
  destruct (String.ltb (date y) (date x)) eqn:Hxy; [|done].
  rewrite filter_cons, IH, !filter_cons.
  destruct (decide (date y = s)) as [Hy|Hy]; [|done].
  destruct (decide (date x = s)) as [Hx|Hx]; [|done].
  rewrite Hx, Hy, ltb_irrefl in Hxy. done.
Qed.

Lemma sorted_stable s l :
  filter (λ d, date d = s) (sorted l) = filter (λ d, date d = s) l.
Proof.
  induction l as [|x l IH]; simpl; [done|].
  by rewrite insert_sorted_stable, !filter_cons, IH.
Qed.

End Sorts.

(** ** What [analyze_streak] returns *)

Section Analyzer.

Lemma last_30_days_Some today :
  valid_today today → last_30_days today = Some (window today).
Proof.
  intros Hv. unfold last_30_days, window. apply mapM_Some_2.
  apply Forall2_fmap_r, Forall_Forall2_diag, Forall_forall.
  intros i Hi%elem_of_seq. unfold Calendar.sub_days, valid_today in *.
  destruct (0 <? today - Z.of_nat i) eqn:H1; [|lia].
  destruct (today - Z.of_nat i <=? Calendar.MAXORDINAL) eqn:H2; [done|lia].
Qed.

Lemma analyze_streak_Some today weeks :
  valid_today today →
  analyze_streak today weeks =
  let days := sort_reverse (collect_days weeks) in
  Some {| current_streak := current_streak_loop days;
          longest_streak := longest_streak_loop (sorted days);
          missing_dates :=
            filter (λ d, d ∉ (list_to_set (date <$> take 30 days)
                               : gset string)) (window today);
          last_commit_date :=
            match days with
            | day :: _ => if 0 <? count day then Some (date day) else None
            | [] => None
            end;
          contribution_days := take 90 days |}.
Proof.
  intros Hv. unfold analyze_streak. by rewrite last_30_days_Some.
Qed.

(** *** The current streak *)

Lemma current_streak_loop_run (days : list ContributionDay) (n : nat) :
  (∀ i, (i < n)%nat → ∃ d, days !! i = Some d ∧ 0 < count d) →
  (days !! n = None ∨ ∃ d, days !! n = Some d ∧ count d = 0) →
  current_streak_loop days = n.
Proof.
  revert n. induction days as [|d days IH]; intros n Hrun Hstop.
  - destruct n as [|n]; [done|].
    destruct (Hrun 0%nat) as (? & ? & _); [lia|done].
  - destruct n as [|n]; simpl.
    + destruct Hstop as [|(d' & [= <-] & Hd)]; [done|].
      destruct (0 <? count d) eqn:H0; [lia|done].
    + destruct (Hrun 0%nat) as (d' & [= <-] & Hd); [lia|].
      destruct (0 <? count d) eqn:H0; [|lia].
      f_equal. apply IH; [|done].
      intros i Hi. apply (Hrun (S i)). lia.
Qed.

Lemma current_streak_loop_prefix (days : list ContributionDay) :
  Forall active (take (current_streak_loop days) days)
  ∧ (current_streak_loop days ≤ length days)%nat.
Proof.
  induction days as [|d days [IH1 IH2]]; simpl; [by split; [constructor|]|].
  destruct (0 <? count d) eqn:Hd; simpl.
  - split; [|lia]. constructor; [unfold active; lia|done].
  - split; [constructor|lia].
Qed.

(** *** The longest streak *)

Lemma scan_cons st d days : scan st (d :: days) = scan (longest_step st d) days.
Proof. done. Qed.

Lemma scan_lower longest current days :
  (Nat.max longest current ≤ scan (longest, current) days)%nat.
Proof.
  revert longest current.
  induction days as [|d days IH]; intros longest current.
  - done.
  - rewrite scan_cons. simpl. destruct (0 <? count d).
    + specialize (IH longest (S current)). lia.
    + specialize (IH (Nat.max longest current) 0%nat). lia.
Qed.

Lemma scan_active longest current seg days :
  Forall active seg →
  scan (longest, current) (seg ++ days)
  = scan (longest, (current + length seg)%nat) days.
Proof.
  intros Hseg. revert current.
  induction Hseg as [|d seg Hd _ IH]; intros current; simpl.
  - by rewrite Nat.add_0_r.
  - rewrite scan_cons. simpl. unfold active in Hd.
    destruct (0 <? count d) eqn:H0; [|lia].
    rewrite IH. do 2 f_equal. lia.
Qed.

Lemma scan_bounds_runs st days seg :
  positive_run days seg → (length seg ≤ scan st days)%nat.
Proof.
  intros [Hseg (pre & post & ->)]. revert st.
  induction pre as [|d pre IH]; intros [longest current]; simpl.
  - rewrite scan_active by done.
    pose proof (scan_lower longest (current + length seg) post). lia.
  - rewrite scan_cons. apply IH.
Qed.

Lemma positive_run_cons d days seg :
  positive_run days seg → positive_run (d :: days) seg.
Proof.
  intros [Hseg (pre & post & ->)]. split; [done|]. by exists (d :: pre), post.
Qed.

Lemma scan_attained longest current days :
  scan (longest, current) days = longest
  ∨ (∃ seg post, days = seg ++ post ∧ Forall active seg
                 ∧ scan (longest, current) days
                   = (current + length seg)%nat)
  ∨ (∃ seg, positive_run days seg
            ∧ scan (longest, current) days = length seg).
Proof.
  revert longest current.
  induction days as [|d days IH]; intros longest current.
  - unfold scan. simpl.
    destruct (Nat.max_spec longest current) as [[_ ->]|[_ ->]]; [|by left].
    right; left. exists [], []. simpl. repeat split; [constructor|lia].
  - rewrite scan_cons. simpl. destruct (0 <? count d) eqn:Hd.
    + destruct (IH longest (S current))
        as [H|[(seg & post & -> & Hseg & H)|(seg & Hrun & H)]].
      * by left.
      * right; left. exists (d :: seg), post. simpl.
        repeat split; [constructor; [unfold active; lia|done]|lia].
      * right; right. exists seg. split; [by apply positive_run_cons|done].
    + destruct (IH (Nat.max longest current) 0%nat)
        as [H|[(seg & post & -> & Hseg & H)|(seg & Hrun & H)]].
      * rewrite H.
        destruct (Nat.max_spec longest current) as [[_ ->]|[_ ->]];
          [|by left].
        right; left. exists [], (d :: days). simpl.
        repeat split; [constructor|lia].
      * right; right. exists seg. split; [|done].
        split; [done|]. by exists [d], post.
      * right; right. exists seg. split; [by apply positive_run_cons|done].
Qed.

Lemma longest_streak_loop_scan days :
  longest_streak_loop days = scan (0%nat, 0%nat) days.
Proof. done. Qed.

Lemma longest_streak_loop_bounds_runs days seg :
  positive_run days seg → (length seg ≤ longest_streak_loop days)%nat.
Proof. rewrite longest_streak_loop_scan. apply scan_bounds_runs. Qed.

Lemma longest_streak_loop_attained days :
  ∃ seg, positive_run days seg ∧ longest_streak_loop days = length seg.
Proof.
  rewrite longest_streak_loop_scan.
  destruct (scan_attained 0 0 days)
    as [H|[(seg & post & -> & Hseg & H)|(seg & Hrun & H)]].
  - exists []. rewrite H. split; [|done].
    split; [constructor|]. by exists [], days.
  - exists seg. split; [|done]. split; [done|]. by exists [], post.
  - by exists seg.
Qed.

End Analyzer.

(** ** The streak report: current and longest streak *)

(** C4: [longest_streak] is the maximum length of a run of consecutive
    entries with a positive count in the days sorted oldest first, the run
    at the end included: no such run is longer, and one has exactly that
    length. *)
Theorem C4_longest_streak_is_longest_run
    (today : Z) (weeks : list (list ContributionDay)) :
  valid_today today →
  ∃ r ascending,
    analyze_streak today weeks = Some r
    ∧ ascending = sorted (sort_reverse (collect_days weeks))
    ∧ ascending ≡ₚ concat weeks
    ∧ StronglySorted not_newer ascending
    ∧ (∀ seg, positive_run ascending seg →
              (length seg ≤ longest_streak r)%nat)
    ∧ (∀ seg, Forall active seg →
              (∃ pre, ascending = pre ++ seg) →
              (length seg ≤ longest_streak r)%nat)
    ∧ (∃ seg, positive_run ascending seg ∧ longest_streak r = length seg).
Proof.
  intros Hv. rewrite analyze_streak_Some by done.
  eexists. eexists. split; [done|]. split; [done|]. simpl.
  split; [by rewrite sorted_perm, sort_reverse_perm, collect_days_concat|].
  split; [apply sorted_sorted|].
  split; [apply longest_streak_loop_bounds_runs|].
  split; [|apply longest_streak_loop_attained].
  intros seg Hseg [pre Hpre]. apply longest_streak_loop_bounds_runs.
  split; [done|]. exists pre, []. by rewrite app_nil_r.
Qed.

Lemma C4_longest_streak_is_longest_run_witness :
  ∃ r ascending,
    analyze_streak today_2024_03_10 calendar_three_days = Some r
    ∧ ascending = sorted (sort_reverse (collect_days calendar_three_days))
    ∧ ascending ≡ₚ concat calendar_three_days
    ∧ StronglySorted not_newer ascending
    ∧ (∀ seg, positive_run ascending seg →
              (length seg ≤ longest_streak r)%nat)
    ∧ (∀ seg, Forall active seg →
              (∃ pre, ascending = pre ++ seg) →
              (length seg ≤ longest_streak r)%nat)
    ∧ (∃ seg, positive_run ascending seg ∧ longest_streak r = length seg).
Proof.
  apply (C4_longest_streak_is_longest_run today_2024_03_10).
  unfold valid_today. vm_compute. split; discriminate.
Defined.

(** ** The streak report: missing dates and the five-day scenario *)

Section Missing.

Lemma StronglySorted_filter {A} (R : relation A) (P : A → Prop)
    `{∀ x, Decision (P x)} (l : list A) :
  StronglySorted R l → StronglySorted R (filter P l).
Proof.
  induction 1 as [|x l Hl IH Hx]; [constructor|].
  rewrite filter_cons. destruct (decide (P x)); [|done].
  constructor; [done|]. apply Forall_forall.
  intros y [_ Hy]%list_elem_of_filter.
  rewrite Forall_forall in Hx. auto.
Qed.

Lemma seq_sorted_below (bound start len : nat) :
  (start + len ≤ bound)%nat →
  StronglySorted (λ i j, (i < j < bound)%nat) (seq start len).
Proof.
  revert start. induction len as [|len IH]; intros start Hb; simpl.
  - constructor.
  - constructor; [apply IH; lia|]. apply Forall_forall.
    intros j Hj%elem_of_seq. lia.
Qed.

Lemma window_newest_first today :
  valid_today today → StronglySorted newer (window today).
Proof.
  intros Hv. unfold window.
  eapply StronglySorted_fmap; [|apply (seq_sorted_below 30 0 30); lia].
  intros i j Hij. unfold newer, valid_today in *.
  apply isoformat_lt; lia.
Qed.

End Missing.

(** C1 (as stated, refuted): for this calendar the missing dates are not
    sorted ascending: the list starts with the newest date. *)
Lemma C1_missing_dates_not_ascending :
  ∃ r, analyze_streak today_2024_03_10 calendar_three_days = Some r
       ∧ ¬ StronglySorted ascending (missing_dates r).
Proof.
  eexists. split; [vm_compute; reflexivity|]. cbn [missing_dates].
  intros Hs. apply StronglySorted_inv in Hs as [_ Hs].
  apply Forall_inv in Hs. vm_compute in Hs. discriminate.
Qed.

(** C1 (amended): the missing dates are sorted strictly descending, newest
    first, and each of them is one of the 30 dates of the trailing window
    ending today. *)
Theorem C1_missing_dates_newest_first_in_window
    (today : Z) (weeks : list (list ContributionDay)) :
  valid_today today →
  ∃ r, analyze_streak today weeks = Some r
    ∧ StronglySorted newer (missing_dates r)
    ∧ (∀ D, D ∈ missing_dates r →
         ∃ i, 0 <= i < 30 ∧ D = Calendar.isoformat (today - i)).
Proof.
  intros Hv. rewrite analyze_streak_Some by done.
  eexists. split; [done|]. simpl. split.
  - by apply StronglySorted_filter, window_newest_first.
  - intros D [_ HD]%list_elem_of_filter. unfold window in HD.
    apply list_elem_of_fmap in HD as (i & -> & Hi%elem_of_seq).
    exists (Z.of_nat i). split; [lia|done].
Qed.

Lemma C1_missing_dates_newest_first_in_window_witness :
  ∃ r, analyze_streak today_2024_03_10 calendar_three_days = Some r
    ∧ StronglySorted newer (missing_dates r)
    ∧ (∀ D, D ∈ missing_dates r →
         ∃ i, 0 <= i < 30 ∧ D = Calendar.isoformat (today_2024_03_10 - i)).
Proof.
  apply (C1_missing_dates_newest_first_in_window today_2024_03_10).
  unfold valid_today. vm_compute. split; discriminate.
Defined.

(** C6 (as stated, refuted): with the counts 3, 0, 2, 1, 0 listed oldest
    to newest the current streak is not 1. *)
Lemma C6_five_days_streak_not_one :
  ∃ r, analyze_streak today_2024_03_10 [last_five_days today_2024_03_10]
       = Some r
       ∧ current_streak r ≠ 1%nat.
Proof. eexists. split; [vm_compute; reflexivity|]. simpl. lia. Qed.

(** C6 (amended): for the calendar of the last five days with the counts
    3, 0, 2, 1, 0 listed oldest to newest, [analyze_streak] returns
    [current_streak = 0]: the newest day has count zero. *)
Theorem C6_five_days_streak_zero
    (today : Z) (weeks : list (list ContributionDay)) :
  valid_today today →
  collect_days weeks = last_five_days today →
  ∃ r, analyze_streak today weeks = Some r ∧ current_streak r = 0%nat.
Proof.
  intros Hv Hdays. rewrite analyze_streak_Some by done.
  eexists. split; [done|]. simpl. rewrite Hdays.
  unfold valid_today in Hv.
  assert (∀ i j, 0 <= j < i → i <= 4 →
            String.ltb (Calendar.isoformat (today - i))
                       (Calendar.isoformat (today - j)) = true) as Hlt
    by (intros i j ??; apply isoformat_lt; lia).
  pose proof (Hlt 1 0 ltac:(lia) ltac:(lia)) as H10.
  rewrite Z.sub_0_r in H10.
  unfold last_five_days, sort_reverse. simpl. rewrite H10. simpl.
  pose proof (Hlt 2 0 ltac:(lia) ltac:(lia)) as H20.
  rewrite Z.sub_0_r in H20. rewrite H20. simpl.
  pose proof (Hlt 3 0 ltac:(lia) ltac:(lia)) as H30.
  rewrite Z.sub_0_r in H30. rewrite H30. simpl.
  pose proof (Hlt 4 0 ltac:(lia) ltac:(lia)) as H40.
  rewrite Z.sub_0_r in H40. rewrite H40. reflexivity.
Qed.

Lemma C6_five_days_streak_zero_witness :
  ∃ r, analyze_streak today_2024_03_10 [last_five_days today_2024_03_10]
       = Some r
       ∧ current_streak r = 0%nat.
Proof.
  apply (C6_five_days_streak_zero today_2024_03_10).
  - unfold valid_today. vm_compute. split; discriminate.
  - reflexivity.
Defined.

(** ** Calendars without repeated dates *)

Section DistinctDates.

Lemma not_newer_transitive : Transitive not_newer.
Proof. intros a b c. unfold not_newer. apply leb_trans. Qed.

Lemma same_date_same_entry (l : list ContributionDay) x y :
  NoDup (date <$> l) → x ∈ l → y ∈ l → date x = date y → x = y.
Proof.
  induction l as [|z l IH]; intros Hnd Hx Hy Heq.
  - by apply elem_of_nil in Hx.
  - rewrite fmap_cons in Hnd. apply NoDup_cons in Hnd as [Hz Hnd].
    apply elem_of_cons in Hx as [->|Hx], Hy as [->|Hy]; [done| | |by apply IH].
    + destruct Hz. rewrite Heq. by apply list_elem_of_fmap_2.
    + destruct Hz. rewrite <- Heq. by apply list_elem_of_fmap_2.
Qed.

(** Without repeated dates the ascending order is the reverse of the
    descending one. *)
Lemma sorted_sort_reverse (l : list ContributionDay) :
  NoDup (date <$> l) → sorted (sort_reverse l) = reverse (sort_reverse l).
Proof.
  intros Hnd.
  apply (StronglySorted_unique_strong not_newer).
  - intros x y Hx Hy Hxy Hyx.
    rewrite sorted_perm, sort_reverse_perm in Hx.
    rewrite reverse_Permutation, sort_reverse_perm in Hy.
    apply (same_date_same_entry l); [done..|].
    by apply String.leb_antisym.
  - apply sorted_sorted.
  - apply (@Sorted_StronglySorted _ _ not_newer_transitive).
    apply (Sorted_reverse not_older), StronglySorted_Sorted.
    apply sort_reverse_sorted.
  - by rewrite sorted_perm, reverse_Permutation.
Qed.

Lemma current_le_longest_reverse (days : list ContributionDay) :
  (current_streak_loop days ≤ longest_streak_loop (reverse days))%nat.
Proof.
  destruct (current_streak_loop_prefix days) as [Hrun Hlen].
  set (k := current_streak_loop days) in *.
  transitivity (length (reverse (take k days))).
  - rewrite length_reverse, length_take. lia.
  - apply longest_streak_loop_bounds_runs. split.
    + by apply Forall_reverse.
    + exists (reverse (drop k days)), [].
      by rewrite app_nil_r, <- reverse_app, take_drop.
Qed.

(** When every date occurs once, the longest streak is at least the
    current streak. *)
Lemma longest_ge_current_distinct_dates today weeks r :
  NoDup (date <$> concat weeks) →
  analyze_streak today weeks = Some r →
  (current_streak r ≤ longest_streak r)%nat.
Proof.
  intros Hnd Hr. unfold analyze_streak in Hr.
  destruct (last_30_days today); [|done].
  simpl in Hr. injection Hr as <-. simpl.
  rewrite sorted_sort_reverse by (by rewrite collect_days_concat).
  apply current_le_longest_reverse.
Qed.

End DistinctDates.

(** ** Reasoning about computations *)

Section Post.
  Context (env : Env).

Lemma post_ret {A} (a : A) (Q : Res A → list Event → Prop) :
  Q (Return a) [] → post (ret a) Q.
Proof. intros HQ tr. exists (Return a), []. by rewrite app_nil_r. Qed.

Lemma post_bind {A B} (m : M A) (k : A → M B) Q R :
  post m Q →
  (∀ a evs1, Q (Return a) evs1 → post (k a) (λ r evs2, R r (evs1 ++ evs2))) →
  (∀ e evs, Q (Raise e) evs → R (Raise e) evs) →
  post (bind m k) R.
Proof.
  intros Hm Hk Hraise tr. unfold bind.
  destruct (Hm tr) as (r & evs1 & -> & HQ). destruct r as [a|e].
  - destruct (Hk a evs1 HQ (tr ++ evs1)) as (r & evs2 & -> & HR).
    exists r, (evs1 ++ evs2). by rewrite app_assoc.
  - exists (Raise e), evs1. auto.
Qed.

Lemma post_weaken {A} (m : M A) (Q R : Res A → list Event → Prop) :
  post m Q → (∀ r evs, Q r evs → R r evs) → post m R.
Proof.
  intros Hm HQR tr. destruct (Hm tr) as (r & evs & -> & HQ). eauto.
Qed.

Lemma clean_app evs1 evs2 : clean evs1 → clean evs2 → clean (evs1 ++ evs2).
Proof. apply Forall_app_2. Qed.

Lemma raised_last_frame text evs1 evs2 :
  clean evs1 → raised_last text evs2 → raised_last text (evs1 ++ evs2).
Proof.
  intros H1 (op & evs' & -> & H2). exists op, (evs1 ++ evs').
  split; [by rewrite app_assoc|by apply clean_app].
Qed.

Lemma raised_last_failed text evs :
  raised_last text evs → Exists (λ ev, failed ev = true) evs.
Proof.
  intros (op & evs' & -> & _). apply Exists_app. right. by constructor.
Qed.

Lemma reports_frame {A} (r : Res A) evs1 evs2 :
  clean evs1 → reports r evs2 → reports r (evs1 ++ evs2).
Proof.
  intros H1. destruct r as [a|e]; simpl.
  - by apply clean_app.
  - intros (text & He & Hlast). exists text. split; [done|].
    by apply raised_last_frame.
Qed.

Lemma reports_true_frame r evs1 evs2 :
  clean evs1 → reports_true r evs2 → reports_true r (evs1 ++ evs2).
Proof.
  intros H1. destruct r as [a|e]; simpl.
  - intros [? ?]. split; [done|]. by apply clean_app.
  - intros (text & He & Hlast). exists text. split; [done|].
    by apply raised_last_frame.
Qed.

(** Sequencing of reporting computations. *)
Lemma reports_bind {A B} (m : M A) (k : A → M B) :
  post m reports → (∀ a, post (k a) reports) → post (bind m k) reports.
Proof.
  intros Hm Hk. eapply post_bind; [exact Hm| |done].
  intros a evs1 H1. eapply post_weaken; [apply Hk|].
  intros r evs2. by apply reports_frame.
Qed.

Lemma reports_true_bind {A} (m : M A) (k : A → M bool) :
  post m reports → (∀ a, post (k a) reports_true) →
  post (bind m k) reports_true.
Proof.
  intros Hm Hk. eapply post_bind; [exact Hm| |done].
  intros a evs1 H1. eapply post_weaken; [apply Hk|].
  intros r evs2. by apply reports_true_frame.
Qed.

Lemma reports_ret {A} (a : A) : post (ret a) reports.
Proof. apply post_ret. constructor. Qed.

Lemma reports_call op : post (call env op) reports.
Proof.
  intros tr. unfold call. destruct (raises env tr op) as [e|].
  - exists (Raise (Exception e)), [Call op (Some e)]. split; [done|].
    exists e. split; [done|]. exists op, []. split; [done|constructor].
  - exists (Return tt), [Call op None]. split; [done|]. by repeat constructor.
Qed.

Lemma reports_read_file path : post (read_file env path) reports.
Proof.
  intros tr. unfold read_file. destruct (raises env tr (OpRead path)) as [e|].
  - exists (Raise (Exception e)), [Call (OpRead path) (Some e)].
    split; [done|]. exists e. split; [done|].
    exists (OpRead path), []. split; [done|constructor].
  - eexists (Return _), [_]. split; [done|]. by repeat constructor.
Qed.

Lemma reports_path_exists path : post (path_exists env path) reports.
Proof.
  intros tr. eexists (Return _), [_]. split; [done|]. by repeat constructor.
Qed.

Lemma reports_now : post (now_isoformat env) reports.
Proof.
  intros tr. eexists (Return _), [_]. split; [done|]. by repeat constructor.
Qed.

Lemma reports_random_draw : post (random_draw env) reports.
Proof.
  intros tr. eexists (Return _), [_]. split; [done|]. by repeat constructor.
Qed.

Lemma reports_randint a b : post (randint env a b) reports.
Proof.
  apply reports_bind; [apply reports_random_draw|].
  intros v. apply reports_ret.
Qed.

Lemma reports_choice seq : post (choice env seq) reports.
Proof.
  apply reports_bind; [apply reports_random_draw|].
  intros v. apply reports_ret.
Qed.

End Post.

(** ** [backdate_commit] and failures *)

Section BackdateCommit.
  Context (env : Env).

Lemma clean_not_failed evs :
  clean evs → ¬ Exists (λ ev, failed ev = true) evs.
Proof.
  intros Hc Hex. apply Exists_exists in Hex as (ev & Hin & Hf).
  unfold clean in Hc. rewrite Forall_forall in Hc.
  specialize (Hc ev Hin). congruence.
Qed.

Lemma commit_result_frame r evs1 evs2 :
  clean evs1 → commit_result r evs2 → commit_result r (evs1 ++ evs2).
Proof.
  intros Hc (b & -> & Hb). exists b. split; [done|]. destruct b.
  - by apply clean_app.
  - destruct Hb as (text & evs' & -> & Hlast).
    exists text, (evs1 ++ evs').
    split; [by rewrite app_assoc|by apply raised_last_frame].
Qed.

(** The result is [False] exactly when a call raised. *)
Lemma commit_result_failed r evs :
  commit_result r evs →
  ∃ b, r = Return b ∧ (b = false ↔ Exists (λ ev, failed ev = true) evs).
Proof.
  intros (b & -> & Hb). exists b. split; [done|]. destruct b.
  - split; [done|]. intros H. by apply clean_not_failed in H.
  - split; [|done]. intros _. destruct Hb as (text & evs' & -> & Hlast).
    apply Exists_app. left. by apply (raised_last_failed text).
Qed.

Lemma quiet_bind_result {A} (m : M A) (k : A → M bool) :
  post m quiet → (∀ a, post (k a) commit_result) →
  post (bind m k) commit_result.
Proof.
  intros Hm Hk. eapply post_bind; [exact Hm| |].
  - intros a evs1 [_ H1]. eapply post_weaken; [apply Hk|].
    intros r evs2. by apply commit_result_frame.
  - intros e evs [[a Ha] _]. done.
Qed.

Lemma quiet_ret {A} (a : A) : post (ret a) quiet.
Proof. apply post_ret. split; [by exists a|constructor]. Qed.

Lemma quiet_random_draw : post (random_draw env) quiet.
Proof.
  intros tr. eexists (Return _), [_]. split; [done|].
  split; [by eexists|by repeat constructor].
Qed.

Lemma quiet_bind {A B} (m : M A) (k : A → M B) :
  post m quiet → (∀ a, post (k a) quiet) → post (bind m k) quiet.
Proof.
  intros Hm Hk. eapply post_bind; [exact Hm| |].
  - intros a evs1 [_ H1]. eapply post_weaken; [apply Hk|].
    intros r evs2 [Hr H2]. split; [done|]. by apply clean_app.
  - intros e evs [[a Ha] _]. done.
Qed.

Lemma quiet_randint a b : post (randint env a b) quiet.
Proof.
  apply quiet_bind; [apply quiet_random_draw|]. intros v. apply quiet_ret.
Qed.

Lemma quiet_choice seq : post (choice env seq) quiet.
Proof.
  apply quiet_bind; [apply quiet_random_draw|]. intros v. apply quiet_ret.
Qed.

(** The [try] block with its handler. *)
Lemma try_except_result (body : M bool) :
  post body reports_true →
  post (try_except body
          (λ e, bind (print ("Error creating backdated commit: "
                             +:+ exn_str e))
                     (λ _, ret false)))
       commit_result.
Proof.
  intros Hbody tr. unfold try_except.
  destruct (Hbody tr) as (r & evs & -> & Hr). destruct r as [b|e].
  - destruct Hr as [-> Hc]. exists (Return true), evs. split; [done|].
    by exists true.
  - destruct Hr as (text & -> & Hlast).
    exists (Return false), (evs ++ [commit_error text]).
    split; [by rewrite app_assoc|]. exists false. split; [done|].
    by exists text, evs.
Qed.

Lemma backdate_commit_result repo_path date commit_message file_content
    file_path push :
  date_parses date →
  post (backdate_commit env repo_path date commit_message file_content
          file_path push) commit_result.
Proof.
  intros Hdate. unfold backdate_commit.
  apply quiet_bind_result.
  { destruct date as [s|d]; simpl in *; [|apply quiet_ret].
    destruct Hdate as [d ->]. apply quiet_ret. }
  intros d. apply quiet_bind_result.
  { destruct ((hour d =? 0) && (minute d =? 0) && (second d =? 0));
      [|apply quiet_ret].
    repeat (apply quiet_bind; [apply quiet_randint|intros ?]).
    apply quiet_ret. }
  intros d'. apply quiet_bind_result.
  { destruct (falsy commit_message); [apply quiet_choice|apply quiet_ret]. }
  intros message. apply try_except_result.
  apply reports_true_bind; [apply reports_call|intros _].
  apply reports_true_bind.
  { destruct file_content as [content|]; [apply reports_ret|].
    apply reports_bind; [apply reports_path_exists|]. intros [|].
    - apply reports_bind; [apply reports_read_file|intros content].
      apply reports_bind; [apply reports_now|intros stamp].
      apply reports_ret.
    - apply reports_bind; [apply reports_now|intros stamp].
      apply reports_ret. }
  intros content.
  do 4 (apply reports_true_bind; [apply reports_call|intros _]).
  apply reports_true_bind.
  { destruct push; [apply reports_call|apply reports_ret]. }
  intros _. apply post_ret. split; [done|constructor].
Qed.

End BackdateCommit.

(** C9: when the date is a [datetime] or a string that parses,
    [backdate_commit] never raises: it returns a boolean, and the boolean
    is [False] exactly when a call into git or the file system raised
    during the attempt. Such a failure ends the attempt and is only
    printed: the failing call and the printed text of its exception are
    the last two events. *)
Theorem C9_backdate_commit_returns_false_on_failure
    (env : Env) (repo_path : string) (date : DateArg)
    (commit_message file_content file_path : option string) (push : bool)
    (tr : list Event) :
  date_parses date →
  ∃ b evs,
    backdate_commit env repo_path date commit_message file_content
      file_path push tr = (Return b, tr ++ evs)
    ∧ (b = false ↔ Exists (λ ev, failed ev = true) evs)
    ∧ (b = false →
       ∃ op text evs',
         evs = evs' ++ [Call op (Some text); commit_error text]
         ∧ clean evs').
Proof.
  intros Hdate.
  destruct (backdate_commit_result env repo_path date commit_message
              file_content file_path push Hdate tr)
    as (r & evs & Hrun & Hres).
  destruct (commit_result_failed r evs Hres) as (b & -> & Hiff).
  exists b, evs. split; [done|]. split; [done|]. intros ->.
  destruct Hres as (b & [= <-] & text & evs1 & -> & op & evs' & -> & Hc).
  exists op, text, evs'. by rewrite <- app_assoc.
Qed.

Lemma C9_backdate_commit_returns_false_on_failure_witness :
  ∃ b evs,
    backdate_commit push_fails_env "/repo" (DateStr "2024-03-09")
      None None None true [] = (Return b, [] ++ evs)
    ∧ (b = false ↔ Exists (λ ev, failed ev = true) evs)
    ∧ (b = false →
       ∃ op text evs',
         evs = evs' ++ [Call op (Some text); commit_error text]
         ∧ clean evs').
Proof.
  apply (C9_backdate_commit_returns_false_on_failure push_fails_env "/repo"
           (DateStr "2024-03-09") None None None true []).
  simpl. vm_compute. by eexists.
Defined.

Example backdate_commit_push_fails :
  fst (backdate_commit push_fails_env "/repo" (DateStr "2024-03-09")
         None None None true []) = Return false.
Proof. vm_compute. reflexivity. Qed.

(** ** One commit of [bulk_backdate] *)

Section Attempt.
  Context (env : Env).

Lemma strptime_midnight s d :
  Strptime.strptime s = Some d →
  hour d = 0 ∧ minute d = 0 ∧ second d = 0.
Proof.
  unfold Strptime.strptime. intros H.
  repeat (simplify_option_eq || case_match); done.
Qed.

Lemma commit_attempt_run repo_path date_str commit_count i :
  post (commit_attempt env repo_path date_str commit_count i)
       (attempt_run repo_path date_str commit_count i).
Proof.
  intros tr. unfold commit_attempt, bind at 1, call at 1.
  destruct (raises env tr _) as [e|] eqn:Hmk.
  { eexists _, [_]. split; [done|]. constructor. }
  set (tr1 := tr ++ [_]).
  assert (∃ pre, Forall prelude pre ∧ ∀ B (k : unit → M B),
    bind (if (0 <? i)%nat then bind (random_draw env) (λ _, sleep)
          else ret tt) k tr1 = k tt (tr ++ pre)) as (pre & Hpre & ->).
  { destruct (0 <? i)%nat.
    - exists [Call (OpMakedirs (dirname (path_join repo_path
                (bulk_file_path date_str i)))) None;
              Random (draw env tr1); Sleep].
      split; [by repeat constructor|]. intros B k.
      unfold bind, random_draw, sleep. subst tr1. simpl.
      by rewrite <- !app_assoc.
    - exists [Call (OpMakedirs (dirname (path_join repo_path
                (bulk_file_path date_str i)))) None].
      split; [by repeat constructor|]. done. }
  clear tr1 Hmk. unfold backdate_commit.
  destruct (Strptime.strptime date_str) as [d|] eqn:Hd.
  2:{ exists (Raise (strptime_error date_str)), pre. split; [done|].
      by constructor. }
  destruct (strptime_midnight _ _ Hd) as (Hh & Hm & Hs).
  unfold bind at 1, ret at 1. rewrite Hh, Hm, Hs. simpl.
  assert (∃ pre' date', Forall prelude pre' ∧ ∀ B (k : datetime → M B),
    bind (bind (randint env 9 19) (λ hour0,
            bind (randint env 0 59) (λ minute0,
              bind (randint env 0 59) (λ second0,
                ret (replace_time d hour0 minute0 second0))))) k (tr ++ pre)
    = k date' (tr ++ pre')) as (pre' & date' & Hpre' & ->).
  { set (tr1 := tr ++ pre). set (v1 := draw env tr1).
    set (tr2 := tr1 ++ [Random v1]). set (v2 := draw env tr2).
    set (tr3 := tr2 ++ [Random v2]). set (v3 := draw env tr3).
    exists (pre ++ [Random v1; Random v2; Random v3]).
    exists (replace_time d (9 + v1 mod (19 - 9 + 1)) (0 + v2 mod (59 - 0 + 1))
              (0 + v3 mod (59 - 0 + 1))).
    split; [apply Forall_app_2; [done|by repeat constructor]|].
    intros B k. unfold bind, randint, random_draw, ret. simpl.
    subst v3 tr3 v2 tr2 v1 tr1. by rewrite <- !app_assoc. }
  clear pre Hpre. unfold bind, try_except, call, ret, print.
  repeat match goal with
  | |- context [raises env ?t ?o] => destruct (raises env t o) eqn:?
  end; simpl;
  rewrite <- ?app_assoc; simpl;
  (eexists _, _; split; [reflexivity|by constructor]).
Qed.
End Attempt.

(** ** The loops of [bulk_backdate] *)

Section Loops.
  Context (env : Env).

Lemma pushes_app evs1 evs2 : pushes (evs1 ++ evs2) = (pushes evs1 + pushes evs2)%nat.
Proof. unfold pushes. by rewrite filter_app, length_app. Qed.

Lemma written_app evs1 evs2 : written (evs1 ++ evs2) = written evs1 ++ written evs2.
Proof. apply omap_app. Qed.

Lemma prelude_inert pre :
  Forall prelude pre →
  pushes pre = 0%nat ∧ written pre = [] ∧ clean pre.
Proof.
  induction 1 as [|ev pre Hev _ (IH1 & IH2 & IH3)];
    [split; [done|split; [done|constructor]]|].
  change (ev :: pre) with ([ev] ++ pre).
  rewrite pushes_app, written_app, IH1, IH2.
  destruct ev as [[] []| | | | |]; try done;
    (split; [reflexivity|split; [reflexivity|by constructor]]).
Qed.

Lemma attempt_run_facts repo_path date_str commit_count i r evs :
  attempt_run repo_path date_str commit_count i r evs →
  let full_path := path_join repo_path (bulk_file_path date_str i) in
  pushes evs = 0%nat
  ∧ (r = Return true → clean evs ∧ evs ≠ [] ∧ written evs = [full_path])
  ∧ (r = Return false →
     ∃ op e, Call op (Some e) ∈ evs
             ∧ written evs = if after_write op then [full_path] else []).
Proof.
  destruct 1 as [e|pre Hd Hpre|pre git_date Hpre|pre e Hpre|pre e Hpre
                |pre e Hpre|pre e Hpre|pre git_date e Hpre]; cbv zeta;
    try (destruct (prelude_inert pre Hpre) as (Hp & Hw & Hc));
    rewrite ?pushes_app, ?written_app, ?Hp, ?Hw.
  - by repeat split.
  - by repeat split.
  - split; [done|]. split; [|done]. intros _. split; [|split; [|done]].
    + apply clean_app; [done|]. by repeat constructor.
    + by destruct pre.
  - split; [done|]. split; [done|]. intros _.
    eexists _, e. split; [apply elem_of_app; right; left|]. done.
  - split; [done|]. split; [done|]. intros _.
    eexists _, e.
    split; [apply elem_of_app; right; right; left|]. done.
  - split; [done|]. split; [done|]. intros _.
    eexists _, e.
    split; [apply elem_of_app; right; do 2 right; left|]. done.
  - split; [done|]. split; [done|]. intros _.
    eexists _, e.
    split; [apply elem_of_app; right; do 3 right; left|]. done.
  - split; [done|]. split; [done|]. intros _.
    eexists _, e.
    split; [apply elem_of_app; right; do 4 right; left|]. done.
Qed.



End Loops.

Section Bulk.
  Context (env : Env).


(** The push block always returns. *)
Lemma push_commits_returns repo_path tr :
  ∃ b evs,
    push_commits env repo_path tr = (Return b, tr ++ evs)
    ∧ Forall (λ ev, is_commit ev = false) evs
    ∧ (pushes evs ≤ 1)%nat
    ∧ (b = true ↔ clean evs).
Proof.
  unfold push_commits, try_except, bind, call, print, ret.
  destruct (raises env tr (OpRepo repo_path)) as [e|].
  { exists false,
      [Call (OpRepo repo_path) (Some e);
       Printed ("Error pushing commits: " +:+ e)].
    split; [simpl; by rewrite <- !app_assoc|].
    split; [by repeat constructor|].
    split; [unfold pushes; simpl; lia|]. split; [done|].
    intros Hc. by inversion Hc. }
  destruct (raises env _ (OpGitPush repo_path)) as [e|].
  - exists false,
      [Call (OpRepo repo_path) None; Call (OpGitPush repo_path) (Some e);
       Printed ("Error pushing commits: " +:+ e)].
    split; [simpl; by rewrite <- !app_assoc|].
    split; [by repeat constructor|].
    split; [unfold pushes; simpl; lia|]. split; [done|].
    intros Hc. apply Forall_cons in Hc as [_ Hc]. by inversion Hc.
  - exists true,
      [Call (OpRepo repo_path) None; Call (OpGitPush repo_path) None].
    split; [simpl; by rewrite <- !app_assoc|].
    split; [by repeat constructor|].
    split; [unfold pushes; simpl; lia|]. split; [|done].
    intros _. by repeat constructor.
Qed.


(** *** Pushes *)

Lemma commit_loop_block repo_path date_str commit_count range success0 tr :
  ∃ r evs,
    commit_loop env repo_path date_str commit_count range success0 tr
    = (r, tr ++ evs)
    ∧ pushes evs = 0%nat
    ∧ (r = Return true → clean evs ∧ (success0 = true ∨ evs ≠ [])).
Proof.
  revert success0 tr. induction range as [|i range IH]; intros success0 tr.
  - exists (Return success0), []. rewrite app_nil_r. split; [done|].
    split; [done|]. intros [= ->]. split; [constructor|by left].
  - simpl. unfold bind at 1.
    destruct (commit_attempt_run env repo_path date_str commit_count i tr)
      as (r1 & evs1 & -> & Hrun).
    apply attempt_run_facts in Hrun as (Hp1 & Htrue & _).
    destruct r1 as [[|]|e]; simpl.
    + destruct (IH true (tr ++ evs1)) as (r & evs2 & -> & Hp2 & Hr).
      exists r, (evs1 ++ evs2). rewrite app_assoc. split; [done|].
      rewrite pushes_app, Hp1, Hp2. split; [done|]. intros ->.
      destruct (Htrue eq_refl) as (Hc1 & Hne & _).
      destruct (Hr eq_refl) as (Hc2 & _).
      split; [by apply clean_app|]. right. by destruct evs1.
    + exists (Return false), evs1. by repeat split.
    + exists (Raise e), evs1. by repeat split.
Qed.

Lemma backdate_date_block repo_path date_str commit_count push tr :
  ∃ r block,
    backdate_date env repo_path date_str commit_count push tr
    = (r, tr ++ block)
    ∧ date_block block.
Proof.
  unfold backdate_date, bind at 1.
  destruct (commit_loop_block repo_path date_str commit_count
              (seq 0 (Z.to_nat commit_count)) false tr)
    as (r1 & commits & -> & Hp & Hr).
  assert (date_block commits) as Hplain.
  { exists commits, []. rewrite app_nil_r.
    split; [done|]. split; [done|]. split; [constructor|].
    split; [unfold pushes; simpl; lia|]. intros H. by vm_compute in H. }
  destruct r1 as [b|e]; [|by exists (Raise e), commits].
  destruct (b && push) eqn:Hbp; [|by exists (Return b), commits].
  apply andb_prop in Hbp as [-> ->].
  destruct (Hr eq_refl) as [Hc [?|Hne]]; [done|].
  destruct (push_commits_returns repo_path (tr ++ commits))
    as (b' & tail & -> & Hnc & Hle & _).
  exists (Return b'), (commits ++ tail). rewrite app_assoc.
  split; [done|]. by exists commits, tail.
Qed.

Lemma date_loop_blocks repo_path dates commit_count push results0 tr :
  ∃ r blocks,
    date_loop env repo_path dates commit_count push results0 tr
    = (r, tr ++ concat blocks)
    ∧ (length blocks ≤ length dates)%nat
    ∧ Forall date_block blocks.
Proof.
  revert results0 tr.
  induction dates as [|d dates IH]; intros results0 tr.
  - exists (Return results0), []. simpl. rewrite app_nil_r.
    by repeat split.
  - simpl. unfold bind at 1.
    destruct (backdate_date_block repo_path d commit_count push tr)
      as (r1 & block & -> & Hblock).
    destruct r1 as [b|e].
    + destruct (IH (<[d:=b]> results0) (tr ++ block))
        as (r & blocks & -> & Hlen & Hblocks).
      exists r, (block :: blocks). simpl. rewrite app_assoc.
      split; [done|]. split; [lia|by constructor].
    + exists (Raise e), [block]. simpl. rewrite app_nil_r.
      split; [done|]. split; [lia|by repeat constructor].
Qed.

End Bulk.

(** ** The claims about [bulk_backdate] *)

Section Claims.

Lemma date_block_pushes block : date_block block → (pushes block ≤ 1)%nat.
Proof.
  intros (commits & tail & -> & Hc & _ & Ht & _).
  rewrite pushes_app. lia.
Qed.

Lemma blocks_pushes blocks :
  Forall date_block blocks → (pushes (concat blocks) ≤ length blocks)%nat.
Proof.
  induction 1 as [|block blocks Hb _ IH]; simpl; [done|].
  rewrite pushes_app. apply date_block_pushes in Hb. lia.
Qed.



End Claims.

(** C7 (as stated, refuted): with two dates, one commit each, and nothing
    failing, [bulk_backdate] pushes twice, once after the commit of each
    date, not once for the invocation. *)
Lemma C7_two_dates_two_pushes :
  ∃ results evs,
    bulk_backdate quiet_env "/repo" ["2024-01-01"; "2024-01-02"] 1 true []
    = (Return results, evs)
    ∧ pushes evs = 2%nat ∧ pushes evs ≠ 1%nat.
Proof. eexists _, _. split; [vm_compute; reflexivity|]. by vm_compute. Qed.


(** The only commit of the date succeeds, the push fails: the value
    recorded is [False]. *)
Example failed_push_is_recorded :
  fst (bulk_backdate push_fails_env "/repo" ["2024-01-01"] 1 true [])
  = Return {[ "2024-01-01" := false ]}.
Proof. vm_compute. reflexivity. Qed.

(** When opening the repository fails in the second attempt, nothing is
    written by it. *)
Example failed_repo_leaves_one_file :
  ∃ evs,
    bulk_backdate (repo_fails_env 1) "/repo"
      ["2024-01-01"; "2024-01-02"] 2 false []
    = (Return {[ "2024-01-01" := false; "2024-01-02" := true ]}, evs)
    ∧ written evs = [ "/repo/streak_updates/2024-01-01/0.md";
                      "/repo/streak_updates/2024-01-02/0.md";
                      "/repo/streak_updates/2024-01-02/1.md" ].
Proof. eexists. split; vm_compute; reflexivity. Qed.



(** ** The days in the order of the analysis *)

Section Order.

(** A list of entries sorted newest first in which the entries of each
    date stand in a given order is determined: it is the outcome of
    every stable sort. *)
Lemma stable_sorted_unique (l1 l2 : list ContributionDay) :
  StronglySorted not_older l1 → StronglySorted not_older l2 →
  (∀ s, filter (λ d, date d = s) l1 = filter (λ d, date d = s) l2) →
  l1 = l2.
Proof.
  intros H1. revert l2.
  induction H1 as [|x l1 Hl1 IH Hx]; intros l2 H2 Hf.
  - destruct l2 as [|y l2]; [done|].
    specialize (Hf (date y)). by rewrite filter_cons_True in Hf.
  - destruct H2 as [|y l2 Hl2 Hy].
    { specialize (Hf (date x)). by rewrite filter_cons_True in Hf. }
    assert (date x = date y) as Hxy.
    { assert (x ∈ y :: l2) as Hin.
      { apply (list_elem_of_filter (λ d, date d = date x)).
        rewrite <- Hf, filter_cons_True by done. left. }
      assert (y ∈ x :: l1) as Hin'.
      { apply (list_elem_of_filter (λ d, date d = date y)).
        rewrite Hf, filter_cons_True by done. left. }
      apply elem_of_cons in Hin as [->|Hin]; [done|].
      apply elem_of_cons in Hin' as [->|Hin']; [done|].
      rewrite Forall_forall in Hx, Hy.
      apply String.leb_antisym; [apply (Hy x Hin)|apply (Hx y Hin')]. }
    assert (x = y) as <-.
    { specialize (Hf (date x)).
      rewrite !filter_cons_True in Hf by done. by injection Hf. }
    f_equal. apply IH; [done|]. intros s. specialize (Hf s).
    rewrite !filter_cons in Hf. destruct (decide (date x = s)); [|done].
    by injection Hf.
Qed.

(** The list the analysis works on. *)
Lemma sort_reverse_determined (weeks : list (list ContributionDay)) days :
  StronglySorted not_older days →
  (∀ s, filter (λ d, date d = s) days
        = filter (λ d, date d = s) (concat weeks)) →
  sort_reverse (collect_days weeks) = days.
Proof.
  intros Hsorted Hstable. apply stable_sorted_unique.
  - apply sort_reverse_sorted.
  - done.
  - intros s. by rewrite sort_reverse_stable, collect_days_concat, Hstable.
Qed.

Lemma leb_antisymmetric : AntiSymm (=) (λ a b : string, String.leb b a = true).
Proof. intros a b Hba Hab. by apply String.leb_antisym. Qed.

(** The dates of the entries sorted newest first do not depend on how
    entries of the same date are ordered. *)
Lemma sorted_dates_determined (l1 l2 : list ContributionDay) :
  l1 ≡ₚ l2 → StronglySorted not_older l1 → StronglySorted not_older l2 →
  date <$> l1 = date <$> l2.
Proof.
  intros Hperm H1 H2.
  apply (StronglySorted_unique (λ a b : string, String.leb b a = true)
           (AntiSymm0 := leb_antisymmetric)).
  - by apply (StronglySorted_fmap date not_older).
  - by apply (StronglySorted_fmap date not_older).
  - by rewrite Hperm.
Qed.

End Order.

(** C2 (as stated, refuted): for the calendars that GitHub delivers, one
    entry per day, the longest streak reported is never less than the
    current streak: no calendar without a repeated date has
    [longest_streak < current_streak]. *)
Lemma C2_no_calendar_has_longest_below_current :
  ¬ ∃ today weeks r,
      NoDup (date <$> concat weeks)
      ∧ analyze_streak today weeks = Some r
      ∧ (longest_streak r < current_streak r)%nat.
Proof.
  intros (today & weeks & r & Hnd & Hr & Hlt).
  pose proof (longest_ge_current_distinct_dates today weeks r Hnd Hr). lia.
Qed.

(** C2 (amended): [longest_streak >= current_streak] holds for every
    calendar in which no date occurs twice; it can fail only for a
    sequence of days with a repeated date, and there it does fail: two
    entries for one day, the first with a contribution and the second
    without, followed by a day with a contribution, give a current streak
    of 2 and a longest streak of 1. *)
Theorem C2_longest_below_current_needs_repeated_date :
  (∀ today weeks,
     valid_today today → NoDup (date <$> concat weeks) →
     ∃ r, analyze_streak today weeks = Some r
          ∧ (current_streak r ≤ longest_streak r)%nat)
  ∧ (∀ today weeks r,
       analyze_streak today weeks = Some r →
       (longest_streak r < current_streak r)%nat →
       ¬ NoDup (date <$> concat weeks))
  ∧ (∃ r, analyze_streak today_2024_03_10 calendar_repeated_date = Some r
          ∧ current_streak r = 2%nat ∧ longest_streak r = 1%nat).
Proof.
  split; [|split].
  - intros today weeks Hv Hnd.
    destruct (analyze_streak today weeks) as [r|] eqn:Hr.
    + exists r. split; [done|].
      by apply (longest_ge_current_distinct_dates today weeks r).
    + by rewrite analyze_streak_Some in Hr.
  - intros today weeks r Hr Hlt Hnd.
    pose proof (longest_ge_current_distinct_dates today weeks r Hnd Hr). lia.
  - eexists. split; [vm_compute; reflexivity|]. by split.
Qed.

(** C3: let [days] be the entries of the calendar sorted newest first,
    the entries of one date in the order of the calendar. If its first N
    entries, the N most recent days, all have a positive count and the
    next entry has count zero or does not exist, [analyze_streak] returns
    [current_streak = N]. *)
Theorem C3_current_streak_is_trailing_run
    (today : Z) (weeks : list (list ContributionDay))
    (days : list ContributionDay) (N : nat) :
  valid_today today →
  StronglySorted not_older days →
  (∀ s, filter (λ d, date d = s) days
        = filter (λ d, date d = s) (concat weeks)) →
  (∀ i, (i < N)%nat → ∃ d, days !! i = Some d ∧ 0 < count d) →
  (days !! N = None ∨ ∃ d, days !! N = Some d ∧ count d = 0) →
  ∃ r, analyze_streak today weeks = Some r ∧ current_streak r = N.
Proof.
  intros Hv Hsorted Hstable Hrun Hstop. rewrite analyze_streak_Some by done.
  eexists. split; [done|]. simpl.
  rewrite (sort_reverse_determined weeks days) by done.
  by apply current_streak_loop_run.
Qed.

Lemma C3_current_streak_is_trailing_run_witness :
  ∃ r, analyze_streak today_2024_03_10 calendar_three_days = Some r
       ∧ current_streak r = 1%nat.
Proof.
  apply (C3_current_streak_is_trailing_run
           today_2024_03_10 calendar_three_days
           [mkDay "2024-03-10" 2; mkDay "2024-03-09" 0; mkDay "2024-03-08" 1]
           1).
  - unfold valid_today. vm_compute. split; discriminate.
  - repeat constructor.
  - intros s. simpl. rewrite !filter_cons, !filter_nil. simpl.
    repeat case_decide; congruence.
  - intros i Hi. assert (i = 0%nat) as -> by lia.
    eexists. split; [reflexivity|]. simpl. lia.
  - right. eexists. split; [reflexivity|]. reflexivity.
Defined.

(** C5: let [days] be the entries of the fetched calendar sorted newest
    first (in any order for entries of the same date). A date of the
    trailing 30-day window is in [missing_dates] exactly when it is not
    the date of one of the first 30 entries of [days]; an entry of that
    slice is never flagged missing, in particular not one with an
    explicit zero count. *)
Theorem C5_missing_iff_absent_from_recent_slice
    (today : Z) (weeks : list (list ContributionDay))
    (days : list ContributionDay) :
  valid_today today →
  days ≡ₚ concat weeks →
  StronglySorted not_older days →
  ∃ r, analyze_streak today weeks = Some r
    ∧ (∀ D, D ∈ window today →
         (D ∈ missing_dates r ↔ D ∉ date <$> take 30 days))
    ∧ (∀ d, d ∈ take 30 days → count d = 0 → date d ∉ missing_dates r).
Proof.
  intros Hv Hperm Hsorted. rewrite analyze_streak_Some by done.
  eexists. split; [done|]. simpl.
  assert (date <$> take 30 (sort_reverse (collect_days weeks))
          = date <$> take 30 days) as ->.
  { rewrite !fmap_take. f_equal. apply sorted_dates_determined.
    - by rewrite sort_reverse_perm, collect_days_concat.
    - apply sort_reverse_sorted.
    - done. }
  split.
  - intros D HD. rewrite list_elem_of_filter, elem_of_list_to_set. tauto.
  - intros d Hd _. rewrite list_elem_of_filter, elem_of_list_to_set.
    intros [Hnot _]. apply Hnot. by apply list_elem_of_fmap_2.
Qed.

Lemma C5_missing_iff_absent_from_recent_slice_witness :
  ∃ r, analyze_streak today_2024_03_10 calendar_three_days = Some r
    ∧ (∀ D, D ∈ window today_2024_03_10 →
         (D ∈ missing_dates r
          ↔ D ∉ date <$> take 30 [mkDay "2024-03-10" 2; mkDay "2024-03-09" 0;
                                  mkDay "2024-03-08" 1]))
    ∧ (∀ d, d ∈ take 30 [mkDay "2024-03-10" 2; mkDay "2024-03-09" 0;
                         mkDay "2024-03-08" 1] →
         count d = 0 → date d ∉ missing_dates r).
Proof.
  apply (C5_missing_iff_absent_from_recent_slice today_2024_03_10
           calendar_three_days
           [mkDay "2024-03-10" 2; mkDay "2024-03-09" 0;
            mkDay "2024-03-08" 1]).
  - unfold valid_today. vm_compute. split; discriminate.
  - apply (reverse_Permutation
             [mkDay "2024-03-08" 1; mkDay "2024-03-09" 0;
              mkDay "2024-03-10" 2]).
  - repeat constructor.
Defined.

(** ** The commits and the push of one date *)

Section Pushes.
  Context (env : Env).

Lemma committed_app evs1 evs2 :
  committed (evs1 ++ evs2) = committed evs1 ++ committed evs2.
Proof. apply omap_app. Qed.

Lemma prelude_not_committed pre : Forall prelude pre → committed pre = [].
Proof.
  induction 1 as [|ev pre Hev _ IH]; [done|].
  change (ev :: pre) with ([ev] ++ pre). rewrite committed_app, IH.
  by destruct ev as [[] []| | | | |].
Qed.

Lemma not_clean_app_r evs1 evs2 : ¬ clean evs2 → ¬ clean (evs1 ++ evs2).
Proof. intros Hn Hc. by apply Forall_app in Hc as [_ ?]. Qed.

(** What one attempt commits. *)
Lemma attempt_run_committed repo_path date_str commit_count i r evs :
  attempt_run repo_path date_str commit_count i r evs →
  pushes evs = 0%nat
  ∧ match r with
    | Return true =>
        clean evs ∧ evs ≠ []
        ∧ committed evs = [bulk_commit_message date_str i commit_count]
    | Return false =>
        ¬ clean evs
        ∧ (committed evs = []
           ∨ committed evs = [bulk_commit_message date_str i commit_count])
    | Raise _ => committed evs = []
    end.
Proof.
  intros Hrun.
  destruct (attempt_run_facts _ _ _ _ _ _ Hrun) as (Hp & Htrue & _).
  split; [done|].
  destruct Hrun as [e|pre Hd Hpre|pre git_date Hpre|pre e Hpre|pre e Hpre
                   |pre e Hpre|pre e Hpre|pre git_date e Hpre]; cbv zeta;
    try (pose proof (prelude_not_committed pre Hpre) as Hc);
    rewrite ?committed_app, ?Hc.
  - done.
  - done.
  - destruct (Htrue eq_refl) as (? & ? & _). by repeat split.
  - split; [|by left]. apply not_clean_app_r. intros H. by inversion H.
  - split; [|by left]. apply not_clean_app_r. intros H.
    apply Forall_cons in H as [_ H]. by inversion H.
  - split; [|by left]. apply not_clean_app_r. intros H.
    do 2 apply Forall_cons in H as [_ H]. by inversion H.
  - split; [|by left]. apply not_clean_app_r. intros H.
    do 3 apply Forall_cons in H as [_ H]. by inversion H.
  - split; [|by right]. apply not_clean_app_r. intros H.
    do 4 apply Forall_cons in H as [_ H]. by inversion H.
Qed.

(** What the inner loop commits. *)
Lemma commit_loop_committed repo_path date_str commit_count range success0
    tr :
  ∃ r evs,
    commit_loop env repo_path date_str commit_count range success0 tr
    = (r, tr ++ evs)
    ∧ pushes evs = 0%nat
    ∧ committed evs
      `prefix_of` ((λ i, bulk_commit_message date_str i commit_count)
                     <$> range)
    ∧ match r with
      | Return true =>
          clean evs
          ∧ committed evs
            = (λ i, bulk_commit_message date_str i commit_count) <$> range
          ∧ (success0 = true ∨ evs ≠ [])
      | Return false => (evs = [] ∧ success0 = false) ∨ ¬ clean evs
      | Raise _ => True
      end.
Proof.
  revert success0 tr. induction range as [|i range IH]; intros success0 tr.
  - exists (Return success0), []. rewrite app_nil_r.
    split; [done|]. split; [done|]. split; [done|].
    destruct success0; [|by left].
    split; [constructor|]. split; [done|by left].
  - simpl. unfold bind at 1.
    destruct (commit_attempt_run env repo_path date_str commit_count i tr)
      as (r1 & evs1 & -> & Hrun).
    apply attempt_run_committed in Hrun as (Hp1 & Hr1).
    destruct r1 as [[|]|e]; simpl.
    + destruct Hr1 as (Hc1 & Hne1 & Hm1).
      destruct (IH true (tr ++ evs1)) as (r & evs2 & -> & Hp2 & Hpre & Hr).
      exists r, (evs1 ++ evs2). rewrite app_assoc. split; [done|].
      rewrite pushes_app, committed_app, Hp1, Hp2, Hm1.
      split; [done|]. split; [by apply prefix_cons|].
      destruct r as [[|]|e]; [| |done].
      * destruct Hr as (Hc2 & Hm2 & _).
        split; [by apply clean_app|]. split; [by rewrite Hm2|].
        right. by destruct evs1.
      * right. destruct Hr as [[_ ?]|Hn]; [done|].
        by apply not_clean_app_r.
    + destruct Hr1 as (Hn1 & Hm1).
      exists (Return false), evs1. split; [done|]. split; [done|].
      split; [|by right].
      destruct Hm1 as [->| ->]; [apply prefix_nil|].
      apply prefix_cons, prefix_nil.
    + exists (Raise e), evs1. split; [done|]. split; [done|].
      rewrite Hr1. split; [apply prefix_nil|done].
Qed.

(** The push block. *)
Lemma push_commits_run repo_path tr :
  ∃ b tail,
    push_commits env repo_path tr = (Return b, tr ++ tail)
    ∧ push_run repo_path b tail.
Proof.
  unfold push_commits, try_except, bind, call, print, ret.
  destruct (raises env tr (OpRepo repo_path)) as [e|].
  { eexists false, [_; _]. split; [simpl; by rewrite <- !app_assoc|].
    apply push_repo_raises. }
  destruct (raises env _ (OpGitPush repo_path)) as [e|].
  - eexists false, [_; _; _]. split; [simpl; by rewrite <- !app_assoc|].
    apply push_raises.
  - eexists true, [_; _]. split; [simpl; by rewrite <- !app_assoc|].
    apply push_done.
Qed.

Lemma push_run_pushes repo_path b tail :
  push_run repo_path b tail → (pushes tail ≤ 1)%nat.
Proof. destruct 1; unfold pushes; simpl; lia. Qed.

Lemma pushed_block_pushes repo_path commit_count date_str b block :
  pushed_block repo_path commit_count date_str b block →
  (pushes block ≤ 1)%nat.
Proof.
  intros (commits & tail & -> & Hp & _ & [(_ & _ & _ & Hrun)|(_ & -> & _)]).
  - apply push_run_pushes in Hrun. rewrite pushes_app. lia.
  - rewrite app_nil_r. lia.
Qed.

(** One date of a run with push. *)
Lemma backdate_date_pushed repo_path date_str commit_count tr :
  ∃ r block,
    backdate_date env repo_path date_str commit_count true tr
    = (r, tr ++ block)
    ∧ match r with
      | Return b => pushed_block repo_path commit_count date_str b block
      | Raise _ =>
          pushes block = 0%nat
          ∧ committed block `prefix_of` date_messages date_str commit_count
      end.
Proof.
  unfold backdate_date, bind at 1.
  destruct (commit_loop_committed repo_path date_str commit_count
              (seq 0 (Z.to_nat commit_count)) false tr)
    as (r1 & commits & -> & Hp & Hpre & Hr).
  fold (date_messages date_str commit_count) in Hpre, Hr.
  destruct r1 as [[|]|e].
  - destruct Hr as (Hc & Hm & [?|Hne]); [done|]. simpl.
    destruct (push_commits_run repo_path (tr ++ commits))
      as (b & tail & -> & Hrun).
    exists (Return b), (commits ++ tail). rewrite app_assoc.
    split; [done|]. exists commits, tail.
    split; [done|]. split; [done|]. split; [done|]. by left.
  - exists (Return false), commits. split; [done|].
    exists commits, []. rewrite app_nil_r.
    split; [done|]. split; [done|]. split; [done|]. right.
    split; [|done]. destruct Hr as [[-> _]|Hn]; [by left|by right].
  - by exists (Raise e), commits.
Qed.

(** All dates of a run with push. *)
Lemma date_loop_pushed repo_path dates commit_count results0 tr :
  ∃ r blocks,
    date_loop env repo_path dates commit_count true results0 tr
    = (r, tr ++ concat blocks)
    ∧ match r with
      | Return results =>
          ∃ bs, length bs = length dates
                ∧ results = record results0 dates bs
                ∧ Forall2 (λ db block,
                             pushed_block repo_path commit_count db.1 db.2
                               block)
                    (zip dates bs) blocks
      | Raise _ =>
          ∃ bs done last,
            (length bs < length dates)%nat
            ∧ blocks = done ++ [last]
            ∧ Forall2 (λ db block,
                         pushed_block repo_path commit_count db.1 db.2 block)
                (zip dates bs) done
            ∧ pushes last = 0%nat
      end.
Proof.
  revert results0 tr.
  induction dates as [|d dates IH]; intros results0 tr.
  - exists (Return results0), []. simpl. rewrite app_nil_r.
    split; [done|]. exists []. by repeat split.
  - simpl. unfold bind at 1.
    destruct (backdate_date_pushed repo_path d commit_count tr)
      as (r1 & block & -> & Hblock).
    destruct r1 as [b|e].
    + destruct (IH (<[d:=b]> results0) (tr ++ block))
        as (r & blocks & -> & Hr).
      exists r, (block :: blocks). simpl. rewrite app_assoc.
      split; [done|]. destruct r as [results|e].
      * destruct Hr as (bs & Hlen & -> & Hall).
        exists (b :: bs). split; [simpl; lia|]. split; [done|].
        by constructor.
      * destruct Hr as (bs & done & last & Hlen & -> & Hall & Hlast).
        exists (b :: bs), (block :: done), last.
        split; [simpl; lia|]. split; [done|]. split; [by constructor|done].
    + exists (Raise e), [block]. simpl. rewrite app_nil_r.
      split; [done|]. exists [], [], block.
      split; [simpl; lia|]. split; [done|]. split; [constructor|].
      by destruct Hblock.
Qed.

End Pushes.

(** C7 (amended): with push requested, the events of [bulk_backdate] are
    one block per date, in the order of the dates. The block of a date
    holds the events of its commits, which contain no push
    ([backdate_commit] is called with [push=False]); when all
    [commit_count] commits were made and no call raised, the push block
    follows at once: it opens the repository and, unless that raises,
    attempts exactly one push, and a failure is printed and recorded as
    [False] for the date. After a commit loop that made no attempt or in
    which a call raised, nothing follows and the date is recorded as
    [False]. So the push is attempted once per date with successful
    commits, never once per commit and not once per invocation. When an
    attempt raises, the run ends with the events of that date, which
    contain no push. *)
Theorem C7_bulk_backdate_pushes_once_per_date
    (env : Env) (repo_path : string) (dates : list string)
    (commit_count : Z) (tr : list Event) :
  ∃ r blocks,
    bulk_backdate env repo_path dates commit_count true tr
    = (r, tr ++ concat blocks)
    ∧ match r with
      | Return results =>
          ∃ bs, length bs = length dates
                ∧ results = record ∅ dates bs
                ∧ Forall2 (λ db block,
                             pushed_block repo_path commit_count db.1 db.2
                               block)
                    (zip dates bs) blocks
      | Raise _ =>
          ∃ bs done last,
            (length bs < length dates)%nat
            ∧ blocks = done ++ [last]
            ∧ Forall2 (λ db block,
                         pushed_block repo_path commit_count db.1 db.2 block)
                (zip dates bs) done
            ∧ pushes last = 0%nat
      end
    ∧ (pushes (concat blocks) ≤ length dates)%nat.
Proof.
  destruct (date_loop_pushed env repo_path dates commit_count ∅ tr)
    as (r & blocks & Hrun & Hr).
  exists r, blocks. split; [done|]. split; [done|].
  destruct (date_loop_blocks env repo_path dates commit_count true ∅ tr)
    as (r' & blocks' & Hrun' & Hlen & Hblocks).
  rewrite Hrun in Hrun'. injection Hrun' as _ ->%app_inv_head.
  pose proof (blocks_pushes blocks' Hblocks). lia.
Qed.

(** ** Date strings that are not accepted *)

(** C10 (as stated, refuted): a date string that is not in the form
    [YYYY-MM-DD] does not make [backdate_commit] raise when [strptime]
    accepts it: for ["2024-3-9"] the commit is made and [True] is
    returned. *)
Lemma C10_unpadded_date_is_accepted :
  yyyy_mm_dd "2024-3-9" = false
  ∧ ∃ evs,
      backdate_commit quiet_env "/repo" (DateStr "2024-3-9") None None None
        false [] = (Return true, evs)
      ∧ ∃ message git_date,
          Call (OpGitCommit "/repo" message git_date) None ∈ evs.
Proof.
  split; [reflexivity|]. eexists. split; [vm_compute; reflexivity|].
  eexists _, _. do 10 right. left.
Qed.

(** C10 (amended): a date string that [strptime] rejects for the format
    [%Y-%m-%d] makes [backdate_commit] raise a [ValueError] to its
    caller: nothing has been done yet and no boolean is returned, because
    the string is parsed before the [try] block is entered. *)
Theorem C10_backdate_commit_raises_on_bad_date
    (env : Env) (repo_path s : string)
    (commit_message file_content file_path : option string) (push : bool)
    (tr : list Event) :
  Strptime.strptime s = None →
  ∃ text,
    backdate_commit env repo_path (DateStr s) commit_message file_content
      file_path push tr = (Raise (ValueError text), tr).
Proof.
  intros Hs. unfold backdate_commit, bind, raise. rewrite Hs.
  unfold strptime_error.
  destruct (strptime_fields s) as [[[[y m] d] rest]|]; [|by eexists].
  destruct (negb (String.eqb rest "")); [by eexists|].
  destruct (y <? 1); by eexists.
Qed.

Lemma C10_backdate_commit_raises_on_bad_date_witness :
  ∃ text,
    backdate_commit quiet_env "/repo" (DateStr "03/09/2024") None None None
      false [] = (Raise (ValueError text), []).
Proof.
  apply (C10_backdate_commit_raises_on_bad_date quiet_env "/repo"
           "03/09/2024" None None None false []).
  vm_compute. reflexivity.
Defined.

(** The texts of the [ValueError], one for each way of being rejected. *)
Example strptime_error_texts :
  strptime_error "03/09/2024"
  = ValueError "time data '03/09/2024' does not match format '%Y-%m-%d'"
  ∧ strptime_error "2024-01-01 "
    = ValueError "unconverted data remains:  "
  ∧ strptime_error "0000-01-01" = ValueError "year 0 is out of range"
  ∧ strptime_error "2024-02-30" = ValueError "day is out of range for month".
Proof. repeat split; vm_compute; reflexivity. Qed.

(** [strptime] accepts the data exactly when the pattern matches all of
    it and the fields are a date of the calendar. *)
Lemma strptime_fields_checked s :
  Strptime.strptime s
  = '(y, m, d, rest) ← strptime_fields s;
    if String.eqb rest "" && (1 <=? y) && (d <=? Calendar.days_in_month y m)
    then Some (mkDatetime y m d 0 0 0)
    else None.
Proof.
  unfold Strptime.strptime, strptime_fields.
  destruct (Strptime.parse_Y s) as [[y s1]|]; [|done]. simpl.
  destruct (Strptime.expect_sep s1) as [s2|]; [|done]. simpl.
  destruct (Strptime.parse_m s2) as [[m s3]|]; [|done]. simpl.
  destruct (Strptime.expect_sep s3) as [s4|]; [|done]. simpl.
  by destruct (Strptime.parse_d s4) as [[d s5]|].
Qed.

(** ** Examples *)

Example strptime_unpadded :
  Strptime.strptime "2024-1-5" = Some (mkDatetime 2024 1 5 0 0 0).
Proof. reflexivity. Qed.

Example strptime_rejects :
  Strptime.strptime "2024-02-30" = None
  ∧ Strptime.strptime "2024-13-01" = None
  ∧ Strptime.strptime "2024-01-01 " = None
  ∧ Strptime.strptime "24-01-01" = None
  ∧ Strptime.strptime "0000-01-01" = None
  ∧ Strptime.strptime "yesterday" = None.
Proof. repeat split; reflexivity. Qed.

Example bulk_strings :
  bulk_file_path "2024-01-01" 10 = "streak_updates/2024-01-01/10.md"
  ∧ bulk_commit_message "2024-01-01" 0 2 = "Update for 2024-01-01 (1/2)"
  ∧ bulk_content "2024-01-01" 1 2
    = "# Update for 2024-01-01" +:+ nl +:+ nl +:+ "Commit #2 of 2" +:+ nl
      +:+ nl +:+ "Generated by GitHub Streak Manager".
Proof. repeat split; vm_compute; reflexivity. Qed.

Example dirname_examples :
  dirname "/r/streak_updates/2024-01-01/0.md" = "/r/streak_updates/2024-01-01"
  ∧ dirname "README.md" = "" ∧ dirname "/README.md" = "/"
  ∧ dirname "//a//b" = "//a" ∧ dirname "a/" = "a".
Proof. repeat split; reflexivity. Qed.

Example path_join_examples :
  path_join "/repo" "README.md" = "/repo/README.md"
  ∧ path_join "/repo/" "README.md" = "/repo/README.md"
  ∧ path_join "" "README.md" = "README.md"
  ∧ path_join "/repo" "/etc/motd" = "/etc/motd".
Proof. repeat split; reflexivity. Qed.

Example isoformat_examples :
  Calendar.isoformat (Calendar.ymd2ord 2024 3 1) = "2024-03-01"
  ∧ Calendar.isoformat (Calendar.ymd2ord 2024 2 29) = "2024-02-29"
  ∧ Calendar.isoformat (Calendar.ymd2ord 2023 12 31) = "2023-12-31"
  ∧ Calendar.isoformat Calendar.MAXORDINAL = "9999-12-31"
  ∧ Calendar.isoformat 1 = "0001-01-01"
  ∧ Calendar.ymd2ord 1970 1 1 = 719163.
Proof. repeat split; reflexivity. Qed.

(** The counts 3, 0, 2, 1, 0 read newest first (today has 3): the current
    streak is 1. *)
Example five_days_newest_first :
  current_streak <$>
    analyze_streak today_2024_03_10
      [[mkDay "2024-03-10" 3; mkDay "2024-03-09" 0; mkDay "2024-03-08" 2;
        mkDay "2024-03-07" 1; mkDay "2024-03-06" 0]]
  = Some 1%nat.
Proof. vm_compute. reflexivity. Qed.

(** A date missing from the calendar does not end the current streak:
    only entries are inspected. *)
Example current_streak_ignores_gap :
  current_streak <$>
    analyze_streak today_2024_03_10
      [[mkDay "2024-03-07" 5; mkDay "2024-03-09" 1; mkDay "2024-03-10" 1]]
  = Some 3%nat.
Proof. vm_compute. reflexivity. Qed.

Example analyze_three_days :
  analyze_streak today_2024_03_10 calendar_three_days
  = Some {| current_streak := 1; longest_streak := 1;
            missing_dates :=
              (λ i : nat, Calendar.isoformat (today_2024_03_10 - Z.of_nat i))
                <$> seq 3 27;
            last_commit_date := Some "2024-03-10";
            contribution_days :=
              [mkDay "2024-03-10" 2; mkDay "2024-03-09" 0;
               mkDay "2024-03-08" 1] |}.
Proof. vm_compute. reflexivity. Qed.

Example analyze_empty :
  analyze_streak today_2024_03_10 []
  = Some {| current_streak := 0; longest_streak := 0;
            missing_dates := window today_2024_03_10;
            last_commit_date := None; contribution_days := [] |}.
Proof. vm_compute. reflexivity. Qed.

(** * Further properties *)

(** ** More about the streak report *)

Section Report.

Lemma filter_all {A} (P : A → Prop) `{!∀ x, Decision (P x)} (l : list A) :
  Forall P l → filter P l = l.
Proof.
  induction 1 as [|x l Hx _ IH]; [done|].
  by rewrite filter_cons_True, IH.
Qed.

Lemma sort_reverse_head_newest (l : list ContributionDay) d rest :
  sort_reverse l = d :: rest → ∀ x, x ∈ l → String.leb (date x) (date d) = true.
Proof.
  intros Hs x Hx. pose proof (sort_reverse_sorted l) as Hsorted.
  rewrite <- sort_reverse_perm, Hs in Hx. rewrite Hs in Hsorted.
  apply StronglySorted_inv in Hsorted as [_ Hall].
  apply elem_of_cons in Hx as [->|Hx].
  - apply Is_true_true. by change (String.le (date d) (date d)).
  - rewrite Forall_forall in Hall. by apply Hall.
Qed.

(** Calendars with the same entries and no repeated date are sorted into
    the same list. *)
Lemma sort_reverse_order_irrelevant (l l' : list ContributionDay) :
  l ≡ₚ l' → NoDup (date <$> l) → sort_reverse l = sort_reverse l'.
Proof.
  intros Hperm Hnd. apply (StronglySorted_unique_strong not_older).
  - intros x y Hx Hy Hxy Hyx.
    rewrite sort_reverse_perm in Hx. rewrite sort_reverse_perm, <- Hperm in Hy.
    apply (same_date_same_entry l); [done..|].
    by apply String.leb_antisym.
  - apply sort_reverse_sorted.
  - apply sort_reverse_sorted.
  - by rewrite !sort_reverse_perm.
Qed.

End Report.

(** X1: for a calendar without entries the report has both streaks 0, no
    last commit date, no contribution days, and all 30 dates of the window
    as missing dates. *)
Theorem analyze_streak_empty_calendar
    (today : Z) (weeks : list (list ContributionDay)) :
  valid_today today →
  concat weeks = [] →
  analyze_streak today weeks
  = Some {| current_streak := 0; longest_streak := 0;
            missing_dates := window today;
            last_commit_date := None; contribution_days := [] |}.
Proof.
  intros Hv Hempty. rewrite analyze_streak_Some by done.
  rewrite collect_days_concat, Hempty. simpl.
  rewrite filter_all; [done|]. apply Forall_forall. intros d _.
  apply not_elem_of_empty.
Qed.

Lemma analyze_streak_empty_calendar_witness :
  analyze_streak today_2024_03_10 [[]; []]
  = Some {| current_streak := 0; longest_streak := 0;
            missing_dates := window today_2024_03_10;
            last_commit_date := None; contribution_days := [] |}.
Proof.
  apply (analyze_streak_empty_calendar today_2024_03_10 [[]; []]).
  - unfold valid_today. vm_compute. split; discriminate.
  - reflexivity.
Defined.

(** X2: the [contribution_days] of the report are the 90 most recent
    entries of the calendar, newest first: at most 90 (all of them when
    the calendar has no more), sorted, and together with entries that are
    not newer they make up the calendar. *)
Theorem report_contribution_days_most_recent
    (today : Z) (weeks : list (list ContributionDay)) :
  valid_today today →
  ∃ r older,
    analyze_streak today weeks = Some r
    ∧ length (contribution_days r) = Nat.min 90 (length (concat weeks))
    ∧ StronglySorted not_older (contribution_days r)
    ∧ contribution_days r ++ older ≡ₚ concat weeks
    ∧ (∀ a b, a ∈ contribution_days r → b ∈ older → not_older a b).
Proof.
  intros Hv. rewrite analyze_streak_Some by done.
  set (l := sort_reverse (collect_days weeks)).
  pose proof (sort_reverse_sorted (collect_days weeks)) as Hsorted.
  fold l in Hsorted. rewrite <- (take_drop 90 l) in Hsorted.
  eexists _, (drop 90 l). split; [done|]. simpl.
  split; [|split; [|split]].
  - rewrite length_take. unfold l.
    by rewrite sort_reverse_perm, collect_days_concat.
  - by apply StronglySorted_app_1_l in Hsorted.
  - rewrite take_drop. unfold l.
    by rewrite sort_reverse_perm, collect_days_concat.
  - intros a b Ha Hb. by eapply StronglySorted_app_1_elem_of.
Qed.

Lemma report_contribution_days_most_recent_witness :
  ∃ r older,
    analyze_streak today_2024_03_10 calendar_three_days = Some r
    ∧ length (contribution_days r)
      = Nat.min 90 (length (concat calendar_three_days))
    ∧ StronglySorted not_older (contribution_days r)
    ∧ contribution_days r ++ older ≡ₚ concat calendar_three_days
    ∧ (∀ a b, a ∈ contribution_days r → b ∈ older → not_older a b).
Proof.
  apply (report_contribution_days_most_recent today_2024_03_10).
  unfold valid_today. vm_compute. split; discriminate.
Defined.

(** X3: [last_commit_date] is set exactly when the current streak is
    positive; it is then the date of an entry with a positive count, and
    no entry of the calendar has a later date. *)
Theorem report_last_commit_date
    (today : Z) (weeks : list (list ContributionDay)) :
  valid_today today →
  ∃ r, analyze_streak today weeks = Some r
    ∧ (is_Some (last_commit_date r) ↔ (0 < current_streak r)%nat)
    ∧ (∀ s, last_commit_date r = Some s →
         (∃ d, d ∈ concat weeks ∧ date d = s ∧ 0 < count d)
         ∧ ∀ d, d ∈ concat weeks → String.leb (date d) s = true).
Proof.
  intros Hv. rewrite analyze_streak_Some by done.
  eexists. split; [done|]. simpl.
  destruct (sort_reverse (collect_days weeks)) as [|d rest] eqn:Hs; simpl.
  - split; [split; [by intros [? ?]|lia]|done].
  - pose proof (sort_reverse_head_newest _ _ _ Hs) as Hmax.
    assert (d ∈ concat weeks) as Hd.
    { rewrite <- collect_days_concat, <- sort_reverse_perm, Hs. by left. }
    destruct (0 <? count d) eqn:Hc.
    + split; [split; [lia|by eexists]|].
      intros s [= <-]. split.
      * exists d. repeat split; [done|lia].
      * intros x Hx. apply Hmax. by rewrite collect_days_concat.
    + split; [split; [by intros [? ?]|lia]|done].
Qed.

Lemma report_last_commit_date_witness :
  ∃ r, analyze_streak today_2024_03_10 calendar_three_days = Some r
    ∧ (is_Some (last_commit_date r) ↔ (0 < current_streak r)%nat)
    ∧ (∀ s, last_commit_date r = Some s →
         (∃ d, d ∈ concat calendar_three_days ∧ date d = s ∧ 0 < count d)
         ∧ ∀ d, d ∈ concat calendar_three_days →
                String.leb (date d) s = true).
Proof.
  apply (report_last_commit_date today_2024_03_10).
  unfold valid_today. vm_compute. split; discriminate.
Defined.

(** X4: when no date occurs twice in the calendar, the longest streak is
    at least the current streak. *)
Theorem report_longest_ge_current
    (today : Z) (weeks : list (list ContributionDay)) :
  valid_today today →
  NoDup (date <$> concat weeks) →
  ∃ r, analyze_streak today weeks = Some r
       ∧ (current_streak r ≤ longest_streak r)%nat.
Proof.
  intros Hv Hnd.
  destruct (analyze_streak today weeks) as [r|] eqn:Hr.
  - exists r. split; [done|].
    by apply (longest_ge_current_distinct_dates today weeks r).
  - by rewrite analyze_streak_Some in Hr.
Qed.

Lemma report_longest_ge_current_witness :
  ∃ r, analyze_streak today_2024_03_10 calendar_three_days = Some r
       ∧ (current_streak r ≤ longest_streak r)%nat.
Proof.
  apply (report_longest_ge_current today_2024_03_10 calendar_three_days).
  - unfold valid_today. vm_compute. split; discriminate.
  - apply (bool_decide_unpack _). vm_compute. exact I.
Defined.

(** X5: when no date occurs twice, the report depends neither on the
    order of the entries nor on how they are grouped into weeks. *)
Theorem report_order_irrelevant
    (today : Z) (weeks weeks' : list (list ContributionDay)) :
  concat weeks ≡ₚ concat weeks' →
  NoDup (date <$> concat weeks) →
  analyze_streak today weeks = analyze_streak today weeks'.
Proof.
  intros Hperm Hnd. unfold analyze_streak.
  rewrite !collect_days_concat.
  by rewrite (sort_reverse_order_irrelevant _ _ Hperm Hnd).
Qed.

Lemma report_order_irrelevant_witness :
  analyze_streak today_2024_03_10 calendar_three_days
  = analyze_streak today_2024_03_10
      [[mkDay "2024-03-10" 2; mkDay "2024-03-08" 1; mkDay "2024-03-09" 0]].
Proof.
  apply (report_order_irrelevant today_2024_03_10 calendar_three_days).
  - simpl. symmetry. apply (Permutation_cons_append [_; _]).
  - apply (bool_decide_unpack _). vm_compute. exact I.
Defined.

Section RecentSlice.

Lemma filter_ext_in {A} (P Q : A → Prop)
    `{!∀ x, Decision (P x)} `{!∀ x, Decision (Q x)} (l : list A) :
  (∀ x, x ∈ l → P x ↔ Q x) → filter P l = filter Q l.
Proof.
  induction l as [|x l IH]; intros Hext; [done|].
  rewrite !filter_cons.
  rewrite IH by (intros y Hy; apply Hext; by right).
  destruct (decide (P x)) as [HP|HP], (decide (Q x)) as [HQ|HQ]; try done.
  - destruct HQ. apply Hext; [by left|done].
  - destruct HP. apply Hext; [by left|done].
Qed.

(** In a calendar of proper dates up to today, none of them repeated and
    sorted newest first, the entry of the day [i] days ago stands at
    position [i] at the latest. *)
Lemma recent_entry_position (today : Z) (l : list ContributionDay)
    (i k : nat) (x : ContributionDay) :
  valid_today today →
  StronglySorted not_older l →
  NoDup (date <$> l) →
  (∀ d, d ∈ l → ∃ n, 1 <= n <= today ∧ date d = Calendar.isoformat n) →
  l !! k = Some x →
  date x = Calendar.isoformat (today - Z.of_nat i) →
  (i < 30)%nat →
  (k ≤ i)%nat.
Proof.
  intros Hv Hsorted Hnd Hdates Hk Hx Hi. unfold valid_today in Hv.
  pose proof (take_drop_middle l k x Hk) as Hl.
  rewrite <- Hl in Hsorted, Hnd.
  rewrite fmap_app, fmap_cons in Hnd.
  apply NoDup_app in Hnd as (Hnd1 & Hnd2 & _).
  assert (date <$> take k l
          ⊆ (λ j : nat, Calendar.isoformat (today - Z.of_nat j)) <$> seq 0 i)
    as Hsub.
  { intros s (y & -> & Hy)%list_elem_of_fmap.
    assert (not_older y x) as Hyx.
    { eapply StronglySorted_app_1_elem_of; [done..|by left]. }
    assert (date y ≠ date x) as Hne.
    { intros Heq. apply (Hnd2 (date y)).
      - by apply list_elem_of_fmap_2.
      - rewrite Heq. by left. }
    destruct (Hdates y) as (n & Hn & Hyn).
    { rewrite <- Hl. apply elem_of_app. by left. }
    unfold not_older in Hyx. rewrite Hx, Hyn in Hyx, Hne.
    assert (today - Z.of_nat i < n) as Hlt.
    { destruct (decide (today - Z.of_nat i < n)) as [|Hge]; [done|].
      destruct (decide (n = today - Z.of_nat i)) as [->|Hneq]; [done|].
      assert (String.ltb (Calendar.isoformat n)
                (Calendar.isoformat (today - Z.of_nat i)) = true) as Hl'.
      { apply isoformat_lt; unfold Calendar.MAXORDINAL in *; lia. }
      rewrite ltb_leb, Hyx in Hl'. done. }
    rewrite Hyn. apply list_elem_of_fmap.
    exists (Z.to_nat (today - n)). split; [f_equal; lia|].
    apply elem_of_seq. lia. }
  apply NoDup_submseteq in Hsub; [|done].
  apply submseteq_length in Hsub.
  rewrite !length_fmap, length_seq, length_take in Hsub.
  apply lookup_lt_Some in Hk. lia.
Qed.

End RecentSlice.

(** X6: when the calendar holds proper dates up to today and none of them
    twice, the missing dates are exactly the dates of the 30-day window
    that occur nowhere in the calendar. *)
Theorem report_missing_dates_absent_from_calendar
    (today : Z) (weeks : list (list ContributionDay)) :
  valid_today today →
  NoDup (date <$> concat weeks) →
  (∀ d, d ∈ concat weeks →
        ∃ n, 1 <= n <= today ∧ date d = Calendar.isoformat n) →
  ∃ r, analyze_streak today weeks = Some r
       ∧ missing_dates r
         = filter (λ s, s ∉ date <$> concat weeks) (window today).
Proof.
  intros Hv Hnd Hdates. rewrite analyze_streak_Some by done.
  eexists. split; [done|]. simpl.
  set (l := sort_reverse (collect_days weeks)).
  assert (l ≡ₚ concat weeks) as Hperm.
  { unfold l. by rewrite sort_reverse_perm, collect_days_concat. }
  apply filter_ext_in. intros s Hs.
  rewrite elem_of_list_to_set, <- Hperm.
  apply not_iff_compat. split.
  - intros (y & -> & (k & Hk & _)%elem_of_take)%list_elem_of_fmap.
    by eapply list_elem_of_fmap_2, list_elem_of_lookup_2.
  - intros (y & -> & Hy)%list_elem_of_fmap.
    apply list_elem_of_lookup in Hy as [k Hk].
    unfold window in Hs.
    apply list_elem_of_fmap in Hs as (i & Hyi & Hi%elem_of_seq).
    assert (k ≤ i)%nat as Hki.
    { apply (recent_entry_position today l i k y); try done.
      - apply sort_reverse_sorted.
      - by rewrite Hperm.
      - intros d Hd. apply Hdates. by rewrite <- Hperm.
      - lia. }
    apply list_elem_of_fmap. exists y. split; [done|].
    apply list_elem_of_lookup. exists k.
    rewrite lookup_take_lt by lia. done.
Qed.

Lemma report_missing_dates_absent_from_calendar_witness :
  ∃ r, analyze_streak today_2024_03_10 calendar_three_days = Some r
       ∧ missing_dates r
         = filter (λ s, s ∉ date <$> concat calendar_three_days)
             (window today_2024_03_10).
Proof.
  apply (report_missing_dates_absent_from_calendar
           today_2024_03_10 calendar_three_days).
  - unfold valid_today. vm_compute. split; discriminate.
  - apply (bool_decide_unpack _). vm_compute. exact I.
  - intros d Hd. simpl in Hd.
    apply elem_of_cons in Hd as [->|Hd];
      [exists (today_2024_03_10 - 2); split; [by vm_compute|by vm_compute]|].
    apply elem_of_cons in Hd as [->|Hd];
      [exists (today_2024_03_10 - 1); split; [by vm_compute|by vm_compute]|].
    apply elem_of_cons in Hd as [->|Hd];
      [exists today_2024_03_10; split; [by vm_compute|by vm_compute]|].
    by apply elem_of_nil in Hd.
Defined.


(** ** The steps of [backdate_commit] *)

Section Script.
  Context (env : Env).

(** [backdate_commit] is its [try] block, entered after the draws for the
    time of day and the commit message. *)
Lemma backdate_commit_prelude repo_path date commit_message file_content
    file_path push d tr :
  date_value date = Some d →
  ∃ draws d' message,
    Forall is_draw draws
    ∧ commit_time d d'
    ∧ message_choice commit_message message
    ∧ backdate_commit env repo_path date commit_message file_content
        file_path push tr
      = try_except
          (commit_body env repo_path (strftime d') message file_content
             file_path push)
          commit_handler (tr ++ draws).
Proof.
  intros Hd.
  assert (∃ draws1 d', Forall is_draw draws1 ∧ commit_time d d'
    ∧ ∀ B (k : datetime → M B),
        bind (if (hour d =? 0) && (minute d =? 0) && (second d =? 0)
              then bind (randint env 9 19) (λ hour0,
                     bind (randint env 0 59) (λ minute0,
                       bind (randint env 0 59) (λ second0,
                         ret (replace_time d hour0 minute0 second0))))
              else ret d) k tr
        = k d' (tr ++ draws1)) as (draws1 & d' & Hdraws1 & Htime & Hrun1).
  { unfold commit_time, midnight.
    destruct ((hour d =? 0) && (minute d =? 0) && (second d =? 0)).
    - set (v1 := draw env tr).
      set (tr2 := tr ++ [Random v1]). set (v2 := draw env tr2).
      set (tr3 := tr2 ++ [Random v2]). set (v3 := draw env tr3).
      exists [Random v1; Random v2; Random v3].
      exists (replace_time d (9 + v1 mod (19 - 9 + 1))
                (0 + v2 mod (59 - 0 + 1)) (0 + v3 mod (59 - 0 + 1))).
      split; [by repeat constructor|]. split.
      + pose proof (Z.mod_pos_bound v1 (19 - 9 + 1) eq_refl).
        pose proof (Z.mod_pos_bound v2 (59 - 0 + 1) eq_refl).
        pose proof (Z.mod_pos_bound v3 (59 - 0 + 1) eq_refl).
        cbn [replace_time year month day hour minute second].
        repeat split; try done; lia.
      + intros B k. unfold bind, randint, random_draw, ret. simpl.
        subst v3 tr3 v2 tr2 v1. by rewrite <- !app_assoc.
    - exists [], d. split; [constructor|]. split; [done|].
      intros B k. by rewrite app_nil_r. }
  assert (∃ draws2 message, Forall is_draw draws2
    ∧ message_choice commit_message message
    ∧ ∀ B (k : string → M B),
        bind (if falsy commit_message then generate_commit_message env
              else ret (default "" commit_message)) k (tr ++ draws1)
        = k message (tr ++ draws1 ++ draws2))
    as (draws2 & message & Hdraws2 & Hmsg & Hrun2).
  { unfold message_choice. destruct (falsy commit_message) eqn:Hf.
    - set (v := draw env (tr ++ draws1)). exists [Random v].
      exists (nth (Z.to_nat (v mod Z.of_nat (length commit_messages)))
                commit_messages "").
      split; [by repeat constructor|]. split.
      + apply nth_elem_of.
        pose proof (Z.mod_pos_bound v (Z.of_nat (length commit_messages))
                      eq_refl). lia.
      + intros B k. unfold generate_commit_message, choice, bind,
          random_draw, ret. subst v. by rewrite <- app_assoc.
    - exists [], (default "" commit_message). split; [constructor|]. split.
      + by destruct commit_message.
      + intros B k. by rewrite app_nil_r. }
  exists (draws1 ++ draws2), d', message.
  split; [by apply Forall_app_2|]. split; [done|]. split; [done|].
  unfold backdate_commit.
  replace (match date with
           | DateStr s => match Strptime.strptime s with
                          | Some d0 => ret d0
                          | None => raise (strptime_error s)
                          end
           | DateTime d0 => ret d0
           end) with (ret (A:=datetime) d).
  2:{ destruct date as [s|d0]; simpl in Hd; [by rewrite Hd|by injection Hd as ->]. }
  unfold bind at 1, ret at 1. rewrite Hrun1, Hrun2. reflexivity.
Qed.

Lemma carried_out_prepend pre script r evs :
  carried_out script r evs → carried_out (pre ++ script) r (pre ++ evs).
Proof.
  destruct r as [b|e]; simpl.
  - by intros [-> ->].
  - intros (n & op & text & -> & Hn & ->).
    exists (length pre + n)%nat, op, text. split; [done|].
    split; [by rewrite lookup_app_r, Nat.add_comm, Nat.add_sub by lia|].
    by rewrite take_app_add, app_assoc.
Qed.

Lemma carried_out_call op (k : M bool) script :
  post k (carried_out script) →
  post (bind (call env op) (λ _, k)) (carried_out (Call op None :: script)).
Proof.
  intros Hk tr. unfold bind, call.
  destruct (raises env tr op) as [e|].
  - exists (Raise (Exception e)), [Call op (Some e)]. split; [done|].
    by exists 0%nat, op, e.
  - destruct (Hk (tr ++ [Call op None])) as (r & evs & -> & Hr).
    exists r, ([Call op None] ++ evs). split; [by rewrite app_assoc|].
    by apply (carried_out_prepend [_]).
Qed.

(** The calls after the text to write has been found. *)
Lemma commit_tail_script repo_path file_path content message git_date
    (push : bool) :
  let full_path := path_join repo_path file_path in
  post (bind (call env (OpMakedirs (dirname full_path))) (λ _,
        bind (call env (OpWrite full_path content)) (λ _,
        bind (call env (OpGitAdd repo_path file_path)) (λ _,
        bind (call env (OpGitCommit repo_path message git_date)) (λ _,
        bind (if push then call env (OpGitPush repo_path) else ret tt) (λ _,
        ret true))))))
    (carried_out
       ([Call (OpMakedirs (dirname full_path)) None;
         Call (OpWrite full_path content) None;
         Call (OpGitAdd repo_path file_path) None;
         Call (OpGitCommit repo_path message git_date) None]
        ++ (if push then [Call (OpGitPush repo_path) None] else []))).
Proof.
  intros full_path. simpl. do 4 apply carried_out_call.
  destruct push.
  - apply carried_out_call. by apply post_ret.
  - by apply post_ret.
Qed.

(** The [try] block follows its script. *)
Lemma commit_body_script repo_path git_date message file_content file_path
    push tr :
  ∃ r evs look content,
    commit_body env repo_path git_date message file_content file_path push tr
    = (r, tr ++ evs)
    ∧ file_look env (tr ++ [Call (OpRepo repo_path) None])
        (path_join repo_path (target_file file_path))
        file_content look content
    ∧ carried_out
        (commit_script repo_path (target_file file_path) look content
           message git_date push) r evs.
Proof.
  unfold commit_body, commit_script. fold (target_file file_path).
  set (fp := target_file file_path). set (full := path_join repo_path fp).
  unfold bind at 1, call at 1.
  destruct (raises env tr (OpRepo repo_path)) as [e|].
  { exists (Raise (Exception e)), [Call (OpRepo repo_path) (Some e)].
    assert (∃ look content,
              file_look env (tr ++ [Call (OpRepo repo_path) None]) full
                file_content look content) as (look & content & Hlook).
    { destruct file_content as [c|].
      - eexists _, _. constructor.
      - eexists _, _. apply (look_absent _ _ _ ""). }
    exists look, content. split; [done|]. split; [done|].
    by exists 0%nat, (OpRepo repo_path), e. }
  set (tr1 := tr ++ [Call (OpRepo repo_path) None]).
  destruct file_content as [c|].
  - unfold bind at 1, ret at 1.
    destruct (commit_tail_script repo_path fp c message git_date push tr1)
      as (r & evs & Hrun & Hr).
    exists r, ([Call (OpRepo repo_path) None] ++ evs), [], c.
    split; [by rewrite app_assoc|]. split; [constructor|].
    by apply (carried_out_prepend [_]).
  - unfold bind at 1, bind at 1, path_exists at 1.
    destruct (exists_ env tr1 full) eqn:Hex.
    + unfold bind at 1, read_file at 1.
      set (tr2 := tr1 ++ [PathExists full true]).
      destruct (raises env tr2 (OpRead full)) as [e|].
      * exists (Raise (Exception e)),
          [Call (OpRepo repo_path) None; PathExists full true;
           Call (OpRead full) (Some e)].
        eexists _, _. split; [subst tr2 tr1; by rewrite <- !app_assoc|].
        split; [apply (look_existing _ _ _ "")|].
        by exists 2%nat, (OpRead full), e.
      * unfold bind at 1, now_isoformat at 1, ret at 1.
        set (tr3 := tr2 ++ [Call (OpRead full) None]).
        set (stamp := now env tr3).
        set (content := contents env tr2 full +:+ nl +:+ nl
                        +:+ "<!-- Updated: " +:+ stamp +:+ " -->").
        destruct (commit_tail_script repo_path fp content message git_date
                    push (tr3 ++ [Now stamp])) as (r & evs & Hrun & Hr).
        exists r, ([Call (OpRepo repo_path) None]
                   ++ [PathExists full true; Call (OpRead full) None;
                       Now stamp] ++ evs).
        eexists _, content.
        split; [etrans; [exact Hrun|]; subst tr3 tr2 tr1; by rewrite <- !app_assoc|].
        split; [apply (look_existing _ _ _ stamp)|].
        apply (carried_out_prepend [_]). by apply carried_out_prepend.
    + unfold bind at 1, now_isoformat at 1, ret at 1.
      set (tr2 := tr1 ++ [PathExists full false]).
      set (stamp := now env tr2).
      destruct (commit_tail_script repo_path fp (placeholder_content stamp)
                  message git_date push (tr2 ++ [Now stamp]))
        as (r & evs & Hrun & Hr).
      exists r, ([Call (OpRepo repo_path) None]
                 ++ [PathExists full false; Now stamp] ++ evs).
      eexists _, _.
      split; [etrans; [exact Hrun|]; subst tr2 tr1; by rewrite <- !app_assoc|].
      split; [apply (look_absent _ _ _ stamp)|].
      apply (carried_out_prepend [_]). by apply carried_out_prepend.
Qed.

End Script.

Section ScriptFacts.
  Context (env : Env).

(** [backdate_commit] as a whole: the draws, the events of the [try]
    block, and the line printed by the handler when the block raised. *)
Lemma backdate_commit_script repo_path date commit_message file_content
    file_path push d tr :
  date_value date = Some d →
  ∃ draws d' message look content r evs,
    Forall is_draw draws
    ∧ commit_time d d'
    ∧ message_choice commit_message message
    ∧ file_look env (tr ++ draws ++ [Call (OpRepo repo_path) None])
        (path_join repo_path (target_file file_path))
        file_content look content
    ∧ carried_out
        (commit_script repo_path (target_file file_path) look content
           message (strftime d') push) r evs
    ∧ backdate_commit env repo_path date commit_message file_content
        file_path push tr
      = match r with
        | Return _ => (Return true, tr ++ draws ++ evs)
        | Raise e =>
            (Return false, tr ++ draws ++ evs ++ [commit_error (exn_str e)])
        end.
Proof.
  intros Hd.
  destruct (backdate_commit_prelude env repo_path date commit_message
              file_content file_path push d tr Hd)
    as (draws & d' & message & Hdraws & Htime & Hmsg & ->).
  destruct (commit_body_script env repo_path (strftime d') message
              file_content file_path push (tr ++ draws))
    as (r & evs & look & content & Hrun & Hlook & Hr).
  exists draws, d', message, look, content, r, evs.
  rewrite <- app_assoc in Hlook.
  do 5 (split; [done|]).
  unfold try_except. rewrite Hrun. destruct r as [b|e].
  - destruct Hr as [-> _]. by rewrite <- app_assoc.
  - unfold commit_handler, bind, print, ret, commit_error.
    by rewrite <- !app_assoc.
Qed.

Lemma calls_app evs1 evs2 : calls (evs1 ++ evs2) = calls evs1 ++ calls evs2.
Proof. apply omap_app. Qed.

Lemma calls_draws draws : Forall is_draw draws → calls draws = [].
Proof.
  induction 1 as [|ev draws Hev _ IH]; [done|].
  by destruct ev.
Qed.

(** Every call of a run that follows a script is a call of the script. *)
Lemma carried_out_elem_of script r evs op err :
  clean script → carried_out script r evs → Call op err ∈ evs →
  Call op None ∈ script.
Proof.
  intros Hclean Hr Hin.
  assert (∀ op' err', Call op' err' ∈ script → Call op' None ∈ script)
    as Hnone.
  { intros op' err' Hin'. unfold clean in Hclean.
    rewrite Forall_forall in Hclean. specialize (Hclean _ Hin').
    by destruct err'. }
  destruct r as [b|e]; simpl in Hr.
  - destruct Hr as [_ ->]. by eapply Hnone.
  - destruct Hr as (n & op' & text & _ & Hn & ->).
    apply elem_of_app in Hin as [Hin|Hin].
    + apply elem_of_take in Hin as (i & Hi & _).
      eapply Hnone, list_elem_of_lookup_2, Hi.
    + apply list_elem_of_singleton in Hin. injection Hin as -> _.
      by eapply list_elem_of_lookup_2.
Qed.

Lemma file_look_clean tr full_path file_content look content :
  file_look env tr full_path file_content look content → clean look.
Proof. destruct 1; by repeat constructor. Qed.

Lemma commit_script_clean repo_path file_path look content message git_date
    push :
  clean look →
  clean (commit_script repo_path file_path look content message git_date
           push).
Proof.
  intros Hlook. unfold commit_script.
  repeat apply clean_app; try done; try by repeat constructor.
  destruct push; by repeat constructor.
Qed.

(** A run that got to a call with the property [P], when no call of the
    first part [pre] of the script has it, went through all of [pre]. *)
Lemma carried_out_beyond (P : Op → Prop) pre rest r evs op err :
  carried_out (pre ++ rest) r evs →
  Call op err ∈ evs → P op →
  (∀ op' err', Call op' err' ∈ pre → ¬ P op') →
  ∃ evs', evs = pre ++ evs'.
Proof.
  intros Hr Hin HP Hpre. destruct r as [b|e]; simpl in Hr.
  - destruct Hr as [_ ->]. by eexists.
  - destruct Hr as (n & op' & text & _ & Hn & ->).
    destruct (decide (length pre ≤ n)%nat) as [Hle|Hlt].
    + replace n with (length pre + (n - length pre))%nat by lia.
      rewrite take_app_add, <- app_assoc. by eexists.
    + rewrite lookup_app_l in Hn by lia.
      rewrite take_app_le in Hin by lia.
      apply elem_of_app in Hin as [Hin|Hin].
      * apply elem_of_take in Hin as (i & Hi & Hlt').
        destruct (Hpre op err); [by eapply list_elem_of_lookup_2|done].
      * apply list_elem_of_singleton in Hin. injection Hin as -> _.
        destruct (Hpre op' None); [by eapply list_elem_of_lookup_2|done].
Qed.

(** The commit and the write of the script. *)
Lemma commit_script_commit tr repo_path file_path file_content look content
    message git_date push rp msg gd :
  file_look env tr (path_join repo_path file_path) file_content look content →
  Call (OpGitCommit rp msg gd) None
    ∈ commit_script repo_path file_path look content message git_date push →
  rp = repo_path ∧ msg = message ∧ gd = git_date.
Proof.
  intros Hlook Hin. unfold commit_script in Hin.
  destruct Hlook, push; simpl in Hin;
    repeat (apply elem_of_cons in Hin as [Hin|Hin];
            [by (discriminate Hin || injection Hin as -> -> ->)|]);
    by apply elem_of_nil in Hin.
Qed.

Lemma commit_script_write tr repo_path file_path file_content look content
    message git_date push p c :
  file_look env tr (path_join repo_path file_path) file_content look content →
  Call (OpWrite p c) None
    ∈ commit_script repo_path file_path look content message git_date push →
  p = path_join repo_path file_path ∧ c = content.
Proof.
  intros Hlook Hin. unfold commit_script in Hin.
  destruct Hlook, push; simpl in Hin;
    repeat (apply elem_of_cons in Hin as [Hin|Hin];
            [by (discriminate Hin || injection Hin as -> ->)|]);
    by apply elem_of_nil in Hin.
Qed.

(** A call among the events of [backdate_commit] is a call of the [try]
    block. *)
Lemma call_of_try_block draws evs tail op err :
  Forall is_draw draws →
  tail = [] ∨ (∃ text, tail = [commit_error text]) →
  Call op err ∈ draws ++ evs ++ tail → Call op err ∈ evs.
Proof.
  intros Hdraws Htail Hin.
  apply elem_of_app in Hin as [Hin|Hin].
  { rewrite Forall_forall in Hdraws. by destruct (Hdraws _ Hin). }
  apply elem_of_app in Hin as [Hin|Hin]; [done|].
  destruct Htail as [->|[text ->]].
  - by apply elem_of_nil in Hin.
  - by apply list_elem_of_singleton in Hin.
Qed.

Lemma commit_messages_not_empty message :
  message ∈ commit_messages → message ≠ "".
Proof.
  intros Hin ->. revert Hin. unfold commit_messages.
  rewrite !elem_of_cons, elem_of_nil. intros H.
  repeat (destruct H as [H|H]; [discriminate H|]). done.
Qed.

End ScriptFacts.

Section PlanFacts.
  Context (env : Env).

(** The calls of a run that follows the script of the [try] block are an
    initial part of the plan, and the file is read exactly when it was
    found to exist. *)
Lemma carried_out_plan tr repo_path file_path file_content look content
    message git_date (push : bool) r evs :
  file_look env tr (path_join repo_path file_path) file_content look content →
  carried_out
    (commit_script repo_path file_path look content message git_date push)
    r evs →
  ∃ (read : bool) (n : nat),
    calls evs
    = take n (commit_plan repo_path file_path read content message git_date
                push)
    ∧ (1 ≤ n ≤ length (commit_plan repo_path file_path read content message
                         git_date push))%nat
    ∧ (match r with
       | Return _ =>
           n = length (commit_plan repo_path file_path read content message
                         git_date push)
           ∧ clean evs
       | Raise _ => ¬ clean evs
       end)
    ∧ (read = true ↔ PathExists (path_join repo_path file_path) true ∈ evs)
    ∧ (read = true → file_content = None).
Proof.
  intros Hlook Hr. unfold commit_script in Hr.
  set (full := path_join repo_path file_path) in *.
  assert (∀ l : list Event,
            Forall (λ ev, ev ≠ PathExists full true) l →
            PathExists full true ∉ l) as Hnotin.
  { intros l Hl Hin. rewrite Forall_forall in Hl. by apply (Hl _ Hin). }
  destruct Hlook as [c|stamp|stamp], push; simpl in Hr;
    (destruct r as [b|e]; simpl in Hr;
     [ destruct Hr as [_ ->]
     | destruct Hr as (n & op & text & _ & Hn & ->);
       repeat (destruct n as [|n]; simpl in Hn; try discriminate Hn);
       injection Hn as <- ]);
    simpl;
    first
      [ (* the file was found to exist *)
        exists true;
        first [ exists 1%nat; split; [reflexivity|]
              | exists 2%nat; split; [reflexivity|]
              | exists 3%nat; split; [reflexivity|]
              | exists 4%nat; split; [reflexivity|]
              | exists 5%nat; split; [reflexivity|]
              | exists 6%nat; split; [reflexivity|]
              | exists 7%nat; split; [reflexivity|] ];
        (split; [simpl; lia|]);
        (split; [first [ split; [reflexivity|by repeat constructor]
                       | intros Hc; repeat (apply Forall_cons in Hc as [? Hc]);
                         done ]|]);
        split; [|done];
        split; [intros _; by repeat first [left | right]|done]
      | exists false;
        first [ exists 1%nat; split; [reflexivity|]
              | exists 2%nat; split; [reflexivity|]
              | exists 3%nat; split; [reflexivity|]
              | exists 4%nat; split; [reflexivity|]
              | exists 5%nat; split; [reflexivity|]
              | exists 6%nat; split; [reflexivity|]
              | exists 7%nat; split; [reflexivity|] ];
        (split; [simpl; lia|]);
        (split; [first [ split; [reflexivity|by repeat constructor]
                       | intros Hc; repeat (apply Forall_cons in Hc as [? Hc]);
                         done ]|]);
        split; [|done];
        split; [done|];
        intros Hin; exfalso; revert Hin; apply Hnotin;
        by repeat constructor ].
Qed.

Lemma path_exists_of_try_block draws evs tail path answer :
  Forall is_draw draws →
  tail = [] ∨ (∃ text, tail = [commit_error text]) →
  PathExists path answer ∈ draws ++ evs ++ tail ↔ PathExists path answer ∈ evs.
Proof.
  intros Hdraws Htail. split.
  - intros Hin. apply elem_of_app in Hin as [Hin|Hin].
    { rewrite Forall_forall in Hdraws. by destruct (Hdraws _ Hin). }
    apply elem_of_app in Hin as [Hin|Hin]; [done|].
    destruct Htail as [->|[text ->]].
    + by apply elem_of_nil in Hin.
    + by apply list_elem_of_singleton in Hin.
  - intros Hin. apply elem_of_app. right. apply elem_of_app. by left.
Qed.

End PlanFacts.

(** X7: [backdate_commit] calls the repository and the file system in a
    fixed order: open the repository, read the file, create the directory
    of the file, write the file, stage it, commit, and push only when
    asked to. The file is read exactly when it was found to exist, which
    is looked up only when no content is given. The calls made are an
    initial part of this plan, at least its first one, and the result is
    [True] exactly when the whole plan was called and no call raised. *)
Theorem backdate_commit_follows_plan
    (env : Env) (repo_path : string) (date : DateArg)
    (commit_message file_content file_path : option string) (push : bool)
    (d : datetime) (tr : list Event) :
  date_value date = Some d →
  ∃ b evs read content message git_date n,
    backdate_commit env repo_path date commit_message file_content
      file_path push tr = (Return b, tr ++ evs)
    ∧ calls evs
      = take n (commit_plan repo_path (target_file file_path) read content
                  message git_date push)
    ∧ (1 ≤ n ≤ length (commit_plan repo_path (target_file file_path) read
                         content message git_date push))%nat
    ∧ (b = true ↔
       n = length (commit_plan repo_path (target_file file_path) read
                     content message git_date push) ∧ clean evs)
    ∧ (read = true ↔
       PathExists (path_join repo_path (target_file file_path)) true ∈ evs)
    ∧ (read = true → file_content = None).
Proof.
  intros Hd.
  destruct (backdate_commit_script env repo_path date commit_message
              file_content file_path push d tr Hd)
    as (draws & d' & message & look & content & r & evs & Hdraws & _ & _
        & Hlook & Hr & Hrun).
  destruct (carried_out_plan env _ _ _ _ _ _ _ _ _ _ _ Hlook Hr)
    as (read & n & Hcalls & Hn & Hres & Hread & Hnone).
  assert (clean draws) as Hcd.
  { eapply Forall_impl; [exact Hdraws|]. by intros []. }
  destruct r as [b|e].
  - destruct Hres as [-> Hclean].
    eexists true, _, read, content, message, (strftime d'), _.
    split; [exact Hrun|]. rewrite calls_app, calls_draws by done.
    split; [exact Hcalls|]. split; [done|].
    split; [split; [intros _; split; [done|by apply clean_app]|done]|].
    split; [|done]. rewrite Hread.
    rewrite <- (path_exists_of_try_block draws evs []) by (done || by left).
    by rewrite app_nil_r.
  - eexists false, _, read, content, message, (strftime d'), n.
    split; [exact Hrun|].
    rewrite 2!calls_app, calls_draws by done.
    split; [simpl; by rewrite app_nil_r|]. split; [done|].
    split.
    { split; [done|]. intros [_ Hc].
      apply Forall_app in Hc as [_ Hc]. by apply Forall_app in Hc as [Hc _]. }
    split; [|done]. rewrite Hread.
    symmetry. apply path_exists_of_try_block; [done|]. right. by eexists.
Qed.

Lemma backdate_commit_follows_plan_witness :
  ∃ b evs read content message git_date n,
    backdate_commit push_fails_env "/repo" (DateStr "2024-03-09")
      None None None true [] = (Return b, [] ++ evs)
    ∧ calls evs
      = take n (commit_plan "/repo" (target_file None) read content
                  message git_date true)
    ∧ (1 ≤ n ≤ length (commit_plan "/repo" (target_file None) read
                         content message git_date true))%nat
    ∧ (b = true ↔
       n = length (commit_plan "/repo" (target_file None) read
                     content message git_date true) ∧ clean evs)
    ∧ (read = true ↔
       PathExists (path_join "/repo" (target_file None)) true ∈ evs)
    ∧ (read = true → None = (None : option string)).
Proof.
  apply (backdate_commit_follows_plan push_fails_env "/repo"
           (DateStr "2024-03-09") None None None true
           (mkDatetime 2024 3 9 0 0 0) []).
  reflexivity.
Defined.

(** X8: the commit is dated on the day given; its time of day is the one
    given, unless that is midnight (as for every date given as a string),
    and then a time from 09:00:00 to 19:59:59. A run that returns [True]
    has made such a commit. The year is one from 1000 on, where the text
    of the date does not depend on the C library. *)
Theorem backdate_commit_timestamp
    (env : Env) (repo_path : string) (date : DateArg)
    (commit_message file_content file_path : option string) (push : bool)
    (d : datetime) (tr : list Event) :
  date_value date = Some d →
  1000 <= year d →
  ∃ b evs d',
    backdate_commit env repo_path date commit_message file_content
      file_path push tr = (Return b, tr ++ evs)
    ∧ commit_time d d'
    ∧ (∀ rp msg gd err,
         Call (OpGitCommit rp msg gd) err ∈ evs → gd = strftime d')
    ∧ (b = true →
       ∃ msg, Call (OpGitCommit repo_path msg (strftime d')) None ∈ evs).
Proof.
  intros Hd _.
  destruct (backdate_commit_script env repo_path date commit_message
              file_content file_path push d tr Hd)
    as (draws & d' & message & look & content & r & evs & Hdraws & Htime & _
        & Hlook & Hr & Hrun).
  pose proof (commit_script_clean repo_path (target_file file_path) look
                content message (strftime d') push
                (file_look_clean env _ _ _ _ _ Hlook)) as Hclean.
  assert (∀ rp msg gd err,
            Call (OpGitCommit rp msg gd) err ∈ evs → gd = strftime d')
    as Hcommit.
  { intros rp msg gd err Hin.
    eapply carried_out_elem_of in Hin; [|done..].
    by eapply commit_script_commit in Hin as (_ & _ & ->). }
  destruct r as [b|e].
  - eexists true, _, d'. split; [exact Hrun|]. split; [done|]. split.
    + intros rp msg gd err Hin. apply (Hcommit rp msg gd err).
      apply (call_of_try_block draws evs []); [done|by left|].
      by rewrite app_nil_r.
    + intros _. exists message. destruct Hr as [_ ->].
      apply elem_of_app. right. unfold commit_script.
      apply elem_of_app. right. apply elem_of_app. right.
      apply elem_of_app. left. do 3 right. left.
  - eexists false, _, d'. split; [exact Hrun|]. split; [done|].
    split; [|done].
    intros rp msg gd err Hin. apply (Hcommit rp msg gd err).
    eapply (call_of_try_block draws evs); [done| |exact Hin].
    right. by eexists.
Qed.

Lemma backdate_commit_timestamp_witness :
  ∃ b evs d',
    backdate_commit quiet_env "/repo"
      (DateTime (mkDatetime 2024 3 9 0 0 0)) None None None false []
    = (Return b, [] ++ evs)
    ∧ commit_time (mkDatetime 2024 3 9 0 0 0) d'
    ∧ (∀ rp msg gd err,
         Call (OpGitCommit rp msg gd) err ∈ evs → gd = strftime d')
    ∧ (b = true →
       ∃ msg, Call (OpGitCommit "/repo" msg (strftime d')) None ∈ evs).
Proof.
  apply (backdate_commit_timestamp quiet_env "/repo"
           (DateTime (mkDatetime 2024 3 9 0 0 0)) None None None false
           (mkDatetime 2024 3 9 0 0 0) []).
  - reflexivity.
  - simpl. lia.
Defined.

(** X9: the commit is made in the repository given, with the commit
    message given, unless that is [None] or empty, and then with one of
    the 22 stock messages; the message is never empty. A run that returns
    [True] has made such a commit. *)
Theorem backdate_commit_message
    (env : Env) (repo_path : string) (date : DateArg)
    (commit_message file_content file_path : option string) (push : bool)
    (d : datetime) (tr : list Event) :
  date_value date = Some d →
  ∃ b evs message,
    backdate_commit env repo_path date commit_message file_content
      file_path push tr = (Return b, tr ++ evs)
    ∧ message_choice commit_message message
    ∧ message ≠ ""
    ∧ (∀ rp msg gd err,
         Call (OpGitCommit rp msg gd) err ∈ evs →
         rp = repo_path ∧ msg = message)
    ∧ (b = true →
       ∃ gd, Call (OpGitCommit repo_path message gd) None ∈ evs).
Proof.
  intros Hd.
  destruct (backdate_commit_script env repo_path date commit_message
              file_content file_path push d tr Hd)
    as (draws & d' & message & look & content & r & evs & Hdraws & _ & Hmsg
        & Hlook & Hr & Hrun).
  pose proof (commit_script_clean repo_path (target_file file_path) look
                content message (strftime d') push
                (file_look_clean env _ _ _ _ _ Hlook)) as Hclean.
  assert (message ≠ "") as Hne.
  { unfold message_choice in Hmsg.
    destruct (falsy commit_message) eqn:Hf.
    - by apply commit_messages_not_empty.
    - subst commit_message. simpl in Hf. by intros ->. }
  assert (∀ rp msg gd err,
            Call (OpGitCommit rp msg gd) err ∈ evs →
            rp = repo_path ∧ msg = message) as Hcommit.
  { intros rp msg gd err Hin.
    eapply carried_out_elem_of in Hin; [|done..].
    by eapply commit_script_commit in Hin as (-> & -> & _). }
  destruct r as [b|e].
  - eexists true, _, message. split; [exact Hrun|]. do 2 (split; [done|]).
    split.
    + intros rp msg gd err Hin. apply (Hcommit rp msg gd err).
      apply (call_of_try_block draws evs []); [done|by left|].
      by rewrite app_nil_r.
    + intros _. exists (strftime d'). destruct Hr as [_ ->].
      apply elem_of_app. right. unfold commit_script.
      apply elem_of_app. right. apply elem_of_app. right.
      apply elem_of_app. left. do 3 right. left.
  - eexists false, _, message. split; [exact Hrun|].
    do 2 (split; [done|]). split; [|done].
    intros rp msg gd err Hin. apply (Hcommit rp msg gd err).
    eapply (call_of_try_block draws evs); [done| |exact Hin].
    right. by eexists.
Qed.

Lemma backdate_commit_message_witness :
  ∃ b evs message,
    backdate_commit quiet_env "/repo" (DateStr "2024-03-09") (Some "")
      None None false [] = (Return b, [] ++ evs)
    ∧ message_choice (Some "") message
    ∧ message ≠ ""
    ∧ (∀ rp msg gd err,
         Call (OpGitCommit rp msg gd) err ∈ evs →
         rp = "/repo" ∧ msg = message)
    ∧ (b = true →
       ∃ gd, Call (OpGitCommit "/repo" message gd) None ∈ evs).
Proof.
  apply (backdate_commit_message quiet_env "/repo" (DateStr "2024-03-09")
           (Some "") None None false (mkDatetime 2024 3 9 0 0 0) []).
  reflexivity.
Defined.

(** X10: a content that is given, even the empty string, is written as
    it is to the file ([README.md] in the repository unless a path is
    given), and the run neither asks whether the file exists nor reads
    it. A run that returns [True] has written the file. *)
Theorem backdate_commit_writes_given_content
    (env : Env) (repo_path : string) (date : DateArg)
    (commit_message : option string) (content : string)
    (file_path : option string) (push : bool)
    (d : datetime) (tr : list Event) :
  date_value date = Some d →
  ∃ b evs,
    backdate_commit env repo_path date commit_message (Some content)
      file_path push tr = (Return b, tr ++ evs)
    ∧ (∀ p c err,
         Call (OpWrite p c) err ∈ evs →
         p = path_join repo_path (target_file file_path) ∧ c = content)
    ∧ (∀ ev, ev ∈ evs → ¬ looks_at_file ev)
    ∧ (b = true →
       Call (OpWrite (path_join repo_path (target_file file_path)) content)
            None ∈ evs).
Proof.
  intros Hd.
  destruct (backdate_commit_script env repo_path date commit_message
              (Some content) file_path push d tr Hd)
    as (draws & d' & message & look & content' & r & evs & Hdraws & _ & _
        & Hlook & Hr & Hrun).
  pose proof (commit_script_clean repo_path (target_file file_path) look
                content' message (strftime d') push
                (file_look_clean env _ _ _ _ _ Hlook)) as Hclean.
  assert (∀ p c err,
            Call (OpWrite p c) err ∈ evs →
            p = path_join repo_path (target_file file_path) ∧ c = content')
    as Hwrite.
  { intros p c err Hin.
    eapply carried_out_elem_of in Hin; [|done..].
    by eapply commit_script_write in Hin. }
  inversion Hlook; subst.
  assert (∀ ev, ev ∈ evs → ¬ looks_at_file ev) as Hquiet.
  { intros ev Hin Hev.
    destruct ev as [[] err| | | | |]; try done.
    - eapply carried_out_elem_of in Hin; [|done..].
      unfold commit_script in Hin. destruct push; simpl in Hin;
        repeat (apply elem_of_cons in Hin as [Hin|Hin]; [discriminate Hin|]);
        by apply elem_of_nil in Hin.
    - assert (PathExists path answer ∈ commit_script repo_path
                (target_file file_path) [] content' message (strftime d')
                push) as Hin'.
      { destruct r as [b|e]; simpl in Hr.
        - by destruct Hr as [_ <-].
        - destruct Hr as (n & op & text & _ & Hn & ->).
          apply elem_of_app in Hin as [Hin|Hin].
          + apply elem_of_take in Hin as (i & Hi & _).
            by eapply list_elem_of_lookup_2.
          + by apply list_elem_of_singleton in Hin. }
      unfold commit_script in Hin'. destruct push; simpl in Hin';
        repeat (apply elem_of_cons in Hin' as [Hin'|Hin'];
                [discriminate Hin'|]);
        by apply elem_of_nil in Hin'. }
  assert (∀ ev, ev ∈ draws → ¬ looks_at_file ev) as Hquiet'.
  { intros ev Hin Hev. rewrite Forall_forall in Hdraws.
    specialize (Hdraws _ Hin). by destruct ev as [[] ?| | | | |]. }
  destruct r as [b|e].
  - eexists true, _. split; [exact Hrun|]. split; [|split].
    + intros p c err Hin. apply (Hwrite p c err).
      apply (call_of_try_block draws evs []); [done|by left|].
      by rewrite app_nil_r.
    + intros ev [Hin|Hin]%elem_of_app; [by apply Hquiet'|by apply Hquiet].
    + intros _. destruct Hr as [_ ->].
      apply elem_of_app. right. unfold commit_script.
      apply elem_of_app. right. apply elem_of_app. right.
      apply elem_of_app. left. right. left.
  - eexists false, _. split; [exact Hrun|]. split; [|split; [|done]].
    + intros p c err Hin. apply (Hwrite p c err).
      eapply (call_of_try_block draws evs); [done| |exact Hin].
      right. by eexists.
    + intros ev [Hin|[Hin|Hin]%elem_of_app]%elem_of_app;
        [by apply Hquiet'|by apply Hquiet|].
      apply list_elem_of_singleton in Hin. subst ev. by intros ?.
Qed.

Lemma backdate_commit_writes_given_content_witness :
  ∃ b evs,
    backdate_commit quiet_env "/repo" (DateStr "2024-03-09") None (Some "")
      (Some "notes/log.md") false [] = (Return b, [] ++ evs)
    ∧ (∀ p c err,
         Call (OpWrite p c) err ∈ evs →
         p = path_join "/repo" (target_file (Some "notes/log.md")) ∧ c = "")
    ∧ (∀ ev, ev ∈ evs → ¬ looks_at_file ev)
    ∧ (b = true →
       Call (OpWrite (path_join "/repo" (target_file (Some "notes/log.md")))
               "") None ∈ evs).
Proof.
  apply (backdate_commit_writes_given_content quiet_env "/repo"
           (DateStr "2024-03-09") None "" (Some "notes/log.md") false
           (mkDatetime 2024 3 9 0 0 0) []).
  reflexivity.
Defined.

(** X11: when no content is given, the text written to the file is found
    by a look at the file just before: an existing file is read, and its
    content at that moment is written back with a marker after it, so
    that nothing of it is lost; a file that does not exist gets the
    placeholder text. *)
Theorem backdate_commit_keeps_existing_content
    (env : Env) (repo_path : string) (date : DateArg)
    (commit_message file_path : option string) (push : bool)
    (d : datetime) (tr : list Event) :
  date_value date = Some d →
  ∃ b evs,
    backdate_commit env repo_path date commit_message None file_path push tr
    = (Return b, tr ++ evs)
    ∧ ∀ p c err,
        Call (OpWrite p c) err ∈ evs →
        p = path_join repo_path (target_file file_path)
        ∧ ∃ before look after,
            evs = before ++ look ++ after
            ∧ file_look env (tr ++ before) p None look c.
Proof.
  intros Hd.
  destruct (backdate_commit_script env repo_path date commit_message
              None file_path push d tr Hd)
    as (draws & d' & message & look & content & r & evs & Hdraws & _ & _
        & Hlook & Hr & Hrun).
  pose proof (commit_script_clean repo_path (target_file file_path) look
                content message (strftime d') push
                (file_look_clean env _ _ _ _ _ Hlook)) as Hclean.
  assert (∀ p c err,
            Call (OpWrite p c) err ∈ evs →
            (p = path_join repo_path (target_file file_path) ∧ c = content)
            ∧ ∃ evs', evs = ([Call (OpRepo repo_path) None] ++ look) ++ evs')
    as Hwrite.
  { intros p c err Hin. split.
    - eapply carried_out_elem_of in Hin; [|done..].
      by eapply commit_script_write in Hin.
    - unfold commit_script in Hr. rewrite app_assoc in Hr.
      apply (carried_out_beyond
               (λ op, match op with OpWrite _ _ => True | _ => False end)
               _ _ _ _ _ _ Hr Hin); [done|].
      intros op' err' Hin' Hop'. destruct op'; try done.
      inversion Hlook; subst; simpl in Hin';
        repeat (apply elem_of_cons in Hin' as [Hin'|Hin'];
                [discriminate Hin'|]);
        by apply elem_of_nil in Hin'. }
  assert (∃ tail, (tail = [] ∨ ∃ text, tail = [commit_error text])
                  ∧ ∃ b, backdate_commit env repo_path date commit_message
                           None file_path push tr
                         = (Return b, tr ++ draws ++ evs ++ tail))
    as (tail & Htail & b & Hrun').
  { destruct r as [b|e].
    - exists []. split; [by left|]. exists true. by rewrite app_nil_r.
    - eexists [_]. split; [right; by eexists|]. by exists false. }
  exists b, (draws ++ evs ++ tail). split; [done|].
  intros p c err Hin.
  apply (call_of_try_block draws evs tail) in Hin; [|done..].
  destruct (Hwrite p c err Hin) as ((-> & ->) & evs' & ->).
  split; [done|].
  exists (draws ++ [Call (OpRepo repo_path) None]), look, (evs' ++ tail).
  split; [by rewrite <- !app_assoc|]. exact Hlook.
Qed.

Lemma backdate_commit_keeps_existing_content_witness :
  ∃ b evs,
    backdate_commit push_fails_env "/repo" (DateStr "2024-03-09") None None
      None true [] = (Return b, [] ++ evs)
    ∧ ∀ p c err,
        Call (OpWrite p c) err ∈ evs →
        p = path_join "/repo" (target_file None)
        ∧ ∃ before look after,
            evs = before ++ look ++ after
            ∧ file_look push_fails_env ([] ++ before) p None look c.
Proof.
  apply (backdate_commit_keeps_existing_content push_fails_env "/repo"
           (DateStr "2024-03-09") None None true
           (mkDatetime 2024 3 9 0 0 0) []).
  reflexivity.
Defined.

(** ** More about [bulk_backdate] *)

Section BulkFacts.
  Context (env : Env).

Lemma commits_app evs1 evs2 :
  commits (evs1 ++ evs2) = (commits evs1 + commits evs2)%nat.
Proof. unfold commits. by rewrite filter_app, length_app. Qed.

Lemma prelude_no_commit pre : Forall prelude pre → commits pre = 0%nat.
Proof.
  induction 1 as [|ev pre Hev _ IH]; [done|].
  change (ev :: pre) with ([ev] ++ pre). rewrite commits_app, IH.
  by destruct ev as [[] []| | | | |].
Qed.

(** An attempt makes at most one commit; a clean attempt of a date that
    parses returns [True] after exactly one. *)
Lemma attempt_run_commits repo_path date_str commit_count i r evs :
  attempt_run repo_path date_str commit_count i r evs →
  (commits evs ≤ 1)%nat
  ∧ (clean evs → is_Some (Strptime.strptime date_str) →
     r = Return true ∧ commits evs = 1%nat).
Proof.
  destruct 1 as [e|pre Hd Hpre|pre git_date Hpre|pre e Hpre|pre e Hpre
                |pre e Hpre|pre e Hpre|pre git_date e Hpre]; cbv zeta;
    try (pose proof (prelude_no_commit pre Hpre) as Hp);
    rewrite ?commits_app, ?Hp.
  - split; [unfold commits; simpl; lia|]. intros Hc. by inversion Hc.
  - split; [lia|]. intros _ [d Hd']. congruence.
  - split; [unfold commits; simpl; lia|]. done.
  - split; [unfold commits; simpl; lia|].
    intros Hc%clean_not_failed. destruct Hc.
    apply Exists_app. right. by constructor.
  - split; [unfold commits; simpl; lia|].
    intros Hc%clean_not_failed. destruct Hc.
    apply Exists_app. right. right. by constructor.
  - split; [unfold commits; simpl; lia|].
    intros Hc%clean_not_failed. destruct Hc.
    apply Exists_app. right. do 2 right. by constructor.
  - split; [unfold commits; simpl; lia|].
    intros Hc%clean_not_failed. destruct Hc.
    apply Exists_app. right. do 3 right. by constructor.
  - split; [unfold commits; simpl; lia|].
    intros Hc%clean_not_failed. destruct Hc.
    apply Exists_app. right. do 4 right. by constructor.
Qed.

(** *** When nothing raises *)

Lemma quiet_call op : never_raises env → post (call env op) quiet.
Proof.
  intros Hnever tr. unfold call. rewrite Hnever.
  exists (Return tt), [Call op None]. split; [done|].
  split; [by eexists|by repeat constructor].
Qed.

Lemma quiet_event {A} (m : M A) :
  (∀ tr, ∃ a ev, m tr = (Return a, tr ++ [ev]) ∧ failed ev = false) →
  post m quiet.
Proof.
  intros Hm tr. destruct (Hm tr) as (a & ev & -> & Hev).
  exists (Return a), [ev]. split; [done|].
  split; [by eexists|by repeat constructor].
Qed.

Lemma quiet_try_except {A} (m : M A) h :
  post m quiet → post (try_except m h) quiet.
Proof.
  intros Hm tr. unfold try_except.
  destruct (Hm tr) as (r & evs & -> & [[a ->] Hc]).
  exists (Return a), evs. split; [done|]. split; [by eexists|done].
Qed.

Lemma backdate_commit_quiet repo_path date commit_message file_content
    file_path push :
  never_raises env → date_parses date →
  post (backdate_commit env repo_path date commit_message file_content
          file_path push) quiet.
Proof.
  intros Hnever Hdate. unfold backdate_commit.
  apply quiet_bind.
  { destruct date as [s|d]; simpl in *; [|apply quiet_ret].
    destruct Hdate as [d ->]. apply quiet_ret. }
  intros d. apply quiet_bind.
  { destruct ((hour d =? 0) && (minute d =? 0) && (second d =? 0));
      [|apply quiet_ret].
    repeat (apply quiet_bind; [apply quiet_randint|intros ?]).
    apply quiet_ret. }
  intros d'. apply quiet_bind.
  { destruct (falsy commit_message); [apply quiet_choice|apply quiet_ret]. }
  intros message. apply quiet_try_except.
  apply quiet_bind; [by apply quiet_call|intros _].
  apply quiet_bind.
  { destruct file_content as [content|]; [apply quiet_ret|].
    apply quiet_bind.
    { apply quiet_event. intros tr. by eexists _, _. }
    intros [|].
    - apply quiet_bind.
      { apply quiet_event. intros tr. unfold read_file. rewrite Hnever.
        by eexists _, _. }
      intros content. apply quiet_bind; [|intros ?; apply quiet_ret].
      apply quiet_event. intros tr. by eexists _, _.
    - apply quiet_bind; [|intros ?; apply quiet_ret].
      apply quiet_event. intros tr. by eexists _, _. }
  intros content.
  do 4 (apply quiet_bind; [by apply quiet_call|intros _]).
  apply quiet_bind; [|intros ?; apply quiet_ret].
  destruct push; [by apply quiet_call|apply quiet_ret].
Qed.

Lemma commit_attempt_quiet repo_path date_str commit_count i :
  never_raises env → is_Some (Strptime.strptime date_str) →
  post (commit_attempt env repo_path date_str commit_count i) quiet.
Proof.
  intros Hnever Hdate. unfold commit_attempt.
  apply quiet_bind; [by apply quiet_call|intros _].
  apply quiet_bind.
  { destruct (0 <? i)%nat; [|apply quiet_ret].
    apply quiet_bind; [apply quiet_random_draw|intros _].
    apply quiet_event. intros tr. by eexists _, _. }
  intros _. by apply backdate_commit_quiet.
Qed.

Lemma commit_attempt_succeeds repo_path date_str commit_count i tr :
  never_raises env → is_Some (Strptime.strptime date_str) →
  ∃ evs,
    commit_attempt env repo_path date_str commit_count i tr
    = (Return true, tr ++ evs)
    ∧ clean evs ∧ commits evs = 1%nat ∧ pushes evs = 0%nat.
Proof.
  intros Hnever Hdate.
  destruct (commit_attempt_run env repo_path date_str commit_count i tr)
    as (r & evs & Hrun & Hshape).
  destruct (commit_attempt_quiet repo_path date_str commit_count i
              Hnever Hdate tr) as (r' & evs' & Hrun' & _ & Hclean).
  rewrite Hrun in Hrun'. injection Hrun' as <- <-%app_inv_head.
  destruct (attempt_run_commits _ _ _ _ _ _ Hshape) as [_ Hok].
  destruct (Hok Hclean Hdate) as [-> Hone].
  apply attempt_run_facts in Hshape as (Hp & _).
  by exists evs.
Qed.

Lemma commit_loop_succeeds repo_path date_str commit_count range success0 tr :
  never_raises env → is_Some (Strptime.strptime date_str) →
  ∃ evs,
    commit_loop env repo_path date_str commit_count range success0 tr
    = (Return (if range is [] then success0 else true), tr ++ evs)
    ∧ clean evs ∧ commits evs = length range ∧ pushes evs = 0%nat.
Proof.
  intros Hnever Hdate. revert success0 tr.
  induction range as [|i range IH]; intros success0 tr.
  - exists []. rewrite app_nil_r. split; [done|]. split; [constructor|done].
  - simpl. unfold bind at 1.
    destruct (commit_attempt_succeeds repo_path date_str commit_count i tr
                Hnever Hdate) as (evs1 & -> & Hc1 & Hn1 & Hp1).
    simpl. destruct (IH true (tr ++ evs1)) as (evs2 & -> & Hc2 & Hn2 & Hp2).
    exists (evs1 ++ evs2). rewrite app_assoc.
    split; [by destruct range|]. split; [by apply clean_app|].
    rewrite commits_app, pushes_app. lia.
Qed.

Lemma push_commits_succeeds repo_path tr :
  never_raises env →
  push_commits env repo_path tr
  = (Return true,
     tr ++ [Call (OpRepo repo_path) None; Call (OpGitPush repo_path) None]).
Proof.
  intros Hnever. unfold push_commits, try_except, bind, call, ret.
  rewrite !Hnever. by rewrite <- app_assoc.
Qed.

(** *** The keys of the result *)

Lemma date_loop_dom repo_path dates commit_count push
    (results0 results : gmap string bool) tr tr' :
  date_loop env repo_path dates commit_count push results0 tr
  = (Return results, tr') →
  dom results = dom results0 ∪ list_to_set dates.
Proof.
  revert results0 tr. induction dates as [|d0 dates IH]; intros results0 tr.
  - simpl. intros [= <- _]. by rewrite (right_id_L ∅ (∪)).
  - simpl. unfold bind at 1.
    destruct (backdate_date env repo_path d0 commit_count push tr)
      as [[b|e] tr1]; [|done].
    intros Hrun%IH. rewrite Hrun, dom_insert_L.
    by rewrite (assoc_L (∪)), (comm_L (∪) {[d0]}).
Qed.

Lemma bulk_backdate_dom repo_path dates commit_count push results tr tr' :
  bulk_backdate env repo_path dates commit_count push tr
  = (Return results, tr') →
  ∀ s, s ∈ dom results ↔ s ∈ dates.
Proof.
  unfold bulk_backdate. intros Hrun%date_loop_dom s.
  by rewrite Hrun, dom_empty_L, (left_id_L ∅ (∪)), elem_of_list_to_set.
Qed.

End BulkFacts.

(** X12: with a commit count of zero or less [bulk_backdate] does
    nothing: no call, no draw, no output; and it reports [False] for
    every date given. *)
Theorem bulk_backdate_no_commit_count
    (env : Env) (repo_path : string) (dates : list string)
    (commit_count : Z) (push : bool) (tr : list Event) :
  commit_count <= 0 →
  ∃ results,
    bulk_backdate env repo_path dates commit_count push tr
    = (Return results, tr)
    ∧ ∀ d, results !! d = if decide (d ∈ dates) then Some false else None.
Proof.
  intros Hcc. unfold bulk_backdate.
  assert (∀ results0 : gmap string bool,
            ∃ results,
              date_loop env repo_path dates commit_count push results0 tr
              = (Return results, tr)
              ∧ ∀ d, results !! d
                     = if decide (d ∈ dates) then Some false
                       else results0 !! d) as Hloop.
  { induction dates as [|d0 dates IH]; intros results0.
    - exists results0. split; [done|]. intros d.
      destruct (decide (d ∈ [])) as [Hin|]; [by apply elem_of_nil in Hin|done].
    - simpl. unfold bind at 1, backdate_date, bind at 1.
      replace (Z.to_nat commit_count) with 0%nat by lia. simpl.
      destruct (IH (<[d0:=false]> results0)) as (results & -> & Hres).
      exists results. split; [done|]. intros d. rewrite Hres.
      destruct (decide (d ∈ dates)) as [Hin|Hnin].
      + rewrite decide_True; [done|by right].
      + destruct (decide (d = d0)) as [->|Hne].
        * rewrite lookup_insert_eq, decide_True; [done|by left].
        * rewrite lookup_insert_ne, decide_False; [done| |done].
          by intros [?|?]%elem_of_cons. }
  destruct (Hloop ∅) as (results & Hrun & Hres).
  exists results. split; [done|]. intros d. rewrite Hres.
  by destruct (decide (d ∈ dates)).
Qed.

Lemma bulk_backdate_no_commit_count_witness :
  ∃ results,
    bulk_backdate quiet_env "/repo" ["2024-01-01"; "2024-01-02"] 0 true []
    = (Return results, [])
    ∧ ∀ d, results !! d
           = if decide (d ∈ ["2024-01-01"; "2024-01-02"]) then Some false
             else None.
Proof.
  apply (bulk_backdate_no_commit_count quiet_env "/repo"
           ["2024-01-01"; "2024-01-02"] 0 true []).
  lia.
Defined.

(** X13: when [bulk_backdate] returns, its result has an entry for each
    of the dates given, and for nothing else. *)
Theorem bulk_backdate_result_keys
    (env : Env) (repo_path : string) (dates : list string)
    (commit_count : Z) (push : bool) (tr tr' : list Event)
    (results : gmap string bool) :
  bulk_backdate env repo_path dates commit_count push tr
  = (Return results, tr') →
  dom results = list_to_set dates.
Proof.
  unfold bulk_backdate. intros Hrun%date_loop_dom.
  by rewrite Hrun, dom_empty_L, (left_id_L ∅ (∪)).
Qed.

Lemma bulk_backdate_result_keys_witness :
  dom ({[ "2024-01-01" := false ]} : gmap string bool)
  = list_to_set ["2024-01-01"; "2024-01-01"].
Proof.
  apply (bulk_backdate_result_keys push_fails_env "/repo"
           ["2024-01-01"; "2024-01-01"] 1 true []
           (snd (bulk_backdate push_fails_env "/repo"
                   ["2024-01-01"; "2024-01-01"] 1 true []))).
  vm_compute. reflexivity.
Defined.

(** X14: a date that [strptime] rejects makes [bulk_backdate] raise when
    the commit count is positive: the exception of the first attempt for
    that date (or of an earlier date) is not caught, and no result is
    returned. *)
Theorem bulk_backdate_bad_date_raises
    (env : Env) (repo_path : string) (dates : list string)
    (commit_count : Z) (push : bool) (tr : list Event) (d : string) :
  0 < commit_count →
  d ∈ dates →
  Strptime.strptime d = None →
  ∃ e tr',
    bulk_backdate env repo_path dates commit_count push tr = (Raise e, tr').
Proof.
  intros Hcc Hin Hbad. unfold bulk_backdate.
  generalize (∅ : gmap string bool). revert tr.
  induction dates as [|d0 dates IH]; intros tr results0;
    [by apply elem_of_nil in Hin|].
  assert (d = d0 →
          ∃ e tr', backdate_date env repo_path d0 commit_count push tr
                   = (Raise e, tr')) as Hhere.
  { intros <-. unfold backdate_date, bind at 1.
    destruct (Z.to_nat commit_count) as [|n] eqn:Hn; [lia|].
    simpl. unfold bind at 1, commit_attempt, bind at 1, call at 1.
    destruct (raises env tr _) as [e|]; [by eexists _, _|].
    unfold bind at 1, ret at 1. simpl.
    unfold backdate_commit. rewrite Hbad. unfold bind at 1, raise.
    by eexists _, _. }
  simpl. unfold bind at 1.
  destruct (backdate_date env repo_path d0 commit_count push tr)
    as [[b|e] tr1] eqn:Hrun; [|by eexists _, _].
  apply elem_of_cons in Hin as [Heq|Hin].
  - destruct (Hhere Heq) as (e & tr' & [=]).
  - by apply IH.
Qed.

Lemma bulk_backdate_bad_date_raises_witness :
  ∃ e tr',
    bulk_backdate quiet_env "/repo" ["2024-01-01"; "2024-02-30"] 1 false []
    = (Raise e, tr').
Proof.
  apply (bulk_backdate_bad_date_raises quiet_env "/repo"
           ["2024-01-01"; "2024-02-30"] 1 false [] "2024-02-30").
  - lia.
  - right. left.
  - reflexivity.
Defined.

Section PerDate.
  Context (env : Env).

Lemma commits_committed evs : commits evs = length (committed evs).
Proof.
  unfold commits, committed.
  induction evs as [|ev evs IH]; [done|].
  rewrite filter_cons. destruct ev as [[] ?| | | | |]; simpl; try done.
  by rewrite IH.
Qed.

Lemma date_messages_length date_str commit_count :
  length (date_messages date_str commit_count) = Z.to_nat commit_count.
Proof. unfold date_messages. by rewrite length_fmap, length_seq. Qed.

Lemma push_run_not_committed repo_path b tail :
  push_run repo_path b tail → committed tail = [].
Proof. by destruct 1. Qed.

(** The commits of one date, whatever fails. *)
Lemma backdate_date_committed repo_path date_str commit_count push tr :
  ∃ r block,
    backdate_date env repo_path date_str commit_count push tr
    = (r, tr ++ block)
    ∧ committed block `prefix_of` date_messages date_str commit_count.
Proof.
  unfold backdate_date, bind at 1.
  destruct (commit_loop_committed env repo_path date_str commit_count
              (seq 0 (Z.to_nat commit_count)) false tr)
    as (r1 & commits & -> & _ & Hpre & _).
  fold (date_messages date_str commit_count) in Hpre.
  destruct r1 as [b|e]; [|by exists (Raise e), commits].
  destruct (b && push); [|by exists (Return b), commits].
  destruct (push_commits_run env repo_path (tr ++ commits))
    as (b' & tail & -> & Hrun).
  exists (Return b'), (commits ++ tail). rewrite app_assoc. split; [done|].
  by rewrite committed_app, (push_run_not_committed _ _ _ Hrun), app_nil_r.
Qed.

(** The commits of one date when nothing raises. *)
Lemma backdate_date_succeeds repo_path date_str commit_count push tr :
  never_raises env → 0 < commit_count →
  is_Some (Strptime.strptime date_str) →
  ∃ block,
    backdate_date env repo_path date_str commit_count push tr
    = (Return true, tr ++ block)
    ∧ clean block
    ∧ committed block = date_messages date_str commit_count
    ∧ pushes block = if push then 1%nat else 0%nat.
Proof.
  intros Hnever Hcc Hdate. unfold backdate_date, bind at 1.
  destruct (commit_loop_succeeds env repo_path date_str commit_count
              (seq 0 (Z.to_nat commit_count)) false tr Hnever Hdate)
    as (evs & Hrun & Hc & _ & Hp).
  destruct (commit_loop_committed env repo_path date_str commit_count
              (seq 0 (Z.to_nat commit_count)) false tr)
    as (r & evs' & Hrun' & _ & _ & Hr).
  rewrite Hrun in Hrun'. rewrite Hrun.
  destruct (seq 0 (Z.to_nat commit_count)) eqn:Hseq.
  { apply (f_equal length) in Hseq. rewrite length_seq in Hseq.
    simpl in Hseq. lia. }
  rewrite <- Hseq in *. injection Hrun' as <- <-%app_inv_head.
  destruct Hr as (_ & Hm & _).
  fold (date_messages date_str commit_count) in Hm.
  destruct push; simpl.
  - rewrite push_commits_succeeds by done.
    eexists. rewrite <- app_assoc. split; [done|].
    split; [apply clean_app; [done|by repeat constructor]|].
    rewrite committed_app, pushes_app, Hm, Hp. by rewrite app_nil_r.
  - exists evs. by repeat split.
Qed.

End PerDate.

(** X15: when no call raises, the dates all parse and the commit count
    is positive, [bulk_backdate] reports [True] for every date. Its
    events are one block per date, in the order of the dates; in the
    block of a date no call raised, the commits made are exactly the
    [commit_count] commits of that date, in order, and there is one push
    when asked to push and none otherwise. *)
Theorem bulk_backdate_all_succeed
    (env : Env) (repo_path : string) (dates : list string)
    (commit_count : Z) (push : bool) (tr : list Event) :
  never_raises env →
  0 < commit_count →
  Forall (λ d, is_Some (Strptime.strptime d)) dates →
  ∃ results blocks,
    bulk_backdate env repo_path dates commit_count push tr
    = (Return results, tr ++ concat blocks)
    ∧ (∀ d, results !! d = if decide (d ∈ dates) then Some true else None)
    ∧ Forall2 (λ d block,
                 clean block
                 ∧ committed block = date_messages d commit_count
                 ∧ commits block = Z.to_nat commit_count
                 ∧ pushes block = if push then 1%nat else 0%nat)
        dates blocks
    ∧ commits (concat blocks) = (Z.to_nat commit_count * length dates)%nat
    ∧ pushes (concat blocks) = if push then length dates else 0%nat.
Proof.
  intros Hnever Hcc Hdates. unfold bulk_backdate.
  assert (∀ (results0 : gmap string bool) tr,
            ∃ results blocks,
              date_loop env repo_path dates commit_count push results0 tr
              = (Return results, tr ++ concat blocks)
              ∧ (∀ d, results !! d
                      = if decide (d ∈ dates) then Some true
                        else results0 !! d)
              ∧ Forall2 (λ d block,
                           clean block
                           ∧ committed block = date_messages d commit_count
                           ∧ commits block = Z.to_nat commit_count
                           ∧ pushes block = if push then 1%nat else 0%nat)
                  dates blocks
              ∧ commits (concat blocks)
                = (Z.to_nat commit_count * length dates)%nat
              ∧ pushes (concat blocks) = if push then length dates else 0%nat)
    as Hloop.
  { clear tr. induction Hdates as [|d0 dates Hd0 _ IH]; intros results0 tr.
    - exists results0, []. simpl. rewrite app_nil_r. split; [done|]. split.
      + intros d. destruct (decide (d ∈ [])) as [Hin|]; [|done].
        by apply elem_of_nil in Hin.
      + split; [constructor|].
        split; [unfold commits; simpl; lia|by destruct push].
    - simpl. unfold bind at 1.
      destruct (backdate_date_succeeds env repo_path d0 commit_count push tr
                  Hnever Hcc Hd0) as (block & -> & Hc1 & Hm1 & Hp1).
      destruct (IH (<[d0:=true]> results0) (tr ++ block))
        as (results & blocks & -> & Hres & Hall & Hn2 & Hp2).
      assert (commits block = Z.to_nat commit_count) as Hn1.
      { by rewrite commits_committed, Hm1, date_messages_length. }
      exists results, (block :: blocks). simpl. rewrite app_assoc.
      split; [done|]. split.
      + intros d. rewrite Hres.
        destruct (decide (d ∈ dates)) as [Hin|Hnin].
        * rewrite decide_True; [done|by right].
        * destruct (decide (d = d0)) as [->|Hne].
          -- rewrite lookup_insert_eq, decide_True; [done|by left].
          -- rewrite lookup_insert_ne, decide_False; [done| |done].
             by intros [?|?]%elem_of_cons.
      + split; [by constructor|].
        rewrite commits_app, pushes_app, Hn1, Hn2, Hp1, Hp2.
        split; [lia|by destruct push]. }
  destruct (Hloop ∅ tr) as (results & blocks & Hrun & Hres & Hrest).
  exists results, blocks. split; [done|]. split; [|done].
  intros d. rewrite Hres. by destruct (decide (d ∈ dates)).
Qed.

Lemma bulk_backdate_all_succeed_witness :
  ∃ results blocks,
    bulk_backdate quiet_env "/repo" ["2024-01-01"; "2024-01-02"] 2 true []
    = (Return results, [] ++ concat blocks)
    ∧ (∀ d, results !! d
            = if decide (d ∈ ["2024-01-01"; "2024-01-02"]) then Some true
              else None)
    ∧ Forall2 (λ d block,
                 clean block
                 ∧ committed block = date_messages d 2
                 ∧ commits block = Z.to_nat 2
                 ∧ pushes block = if true then 1%nat else 0%nat)
        ["2024-01-01"; "2024-01-02"] blocks
    ∧ commits (concat blocks)
      = (Z.to_nat 2 * length ["2024-01-01"; "2024-01-02"])%nat
    ∧ pushes (concat blocks)
      = if true then length ["2024-01-01"; "2024-01-02"] else 0%nat.
Proof.
  apply (bulk_backdate_all_succeed quiet_env "/repo"
           ["2024-01-01"; "2024-01-02"] 2 true []).
  - intros tr op. reflexivity.
  - lia.
  - repeat constructor; by eexists.
Defined.

(** X16: whatever fails, the events of [bulk_backdate] are one block per
    date that was reached, in the order of the dates, and the commits
    attempted in the block of a date are an initial part of the
    [commit_count] commits of that date: at most [commit_count] for each
    date. *)
Theorem bulk_backdate_commit_bound
    (env : Env) (repo_path : string) (dates : list string)
    (commit_count : Z) (push : bool) (tr : list Event) :
  ∃ r blocks,
    bulk_backdate env repo_path dates commit_count push tr
    = (r, tr ++ concat blocks)
    ∧ (length blocks ≤ length dates)%nat
    ∧ Forall2 (λ d block,
                 committed block `prefix_of` date_messages d commit_count
                 ∧ (commits block ≤ Z.to_nat commit_count)%nat)
        (take (length blocks) dates) blocks
    ∧ (commits (concat blocks) ≤ Z.to_nat commit_count * length dates)%nat.
Proof.
  unfold bulk_backdate. generalize (∅ : gmap string bool). revert tr.
  induction dates as [|d0 dates IH]; intros tr results0.
  - exists (Return results0), []. simpl. rewrite app_nil_r. split; [done|].
    split; [done|]. split; [constructor|]. unfold commits. simpl. lia.
  - simpl. unfold bind at 1.
    destruct (backdate_date_committed env repo_path d0 commit_count push tr)
      as (r1 & block & -> & Hpre).
    assert (commits block ≤ Z.to_nat commit_count)%nat as Hle1.
    { rewrite commits_committed, <- (date_messages_length d0 commit_count).
      by apply prefix_length. }
    destruct r1 as [b|e].
    + destruct (IH (tr ++ block) (<[d0:=b]> results0))
        as (r & blocks & -> & Hlen & Hall & Hle2).
      exists r, (block :: blocks). simpl. rewrite app_assoc.
      split; [done|]. split; [lia|]. split; [by constructor|].
      rewrite commits_app. lia.
    + exists (Raise e), [block]. simpl. rewrite app_nil_r.
      split; [done|]. split; [lia|].
      split; [by repeat constructor|]. lia.
Qed.

(** ** Filling the missing dates *)

Section FillFacts.
  Context (env : Env).

Lemma insert_string_perm x l : insert_string x l ≡ₚ x :: l.
Proof.
  induction l as [|y l IH]; simpl; [done|].
  destruct (String.ltb y x); [|done].
  by rewrite IH, Permutation_swap.
Qed.

Lemma sort_strings_perm l : sort_strings l ≡ₚ l.
Proof.
  induction l as [|x l IH]; simpl; [done|].
  by rewrite insert_string_perm, IH.
Qed.

Lemma insert_string_sorted x l :
  StronglySorted ascending l → StronglySorted ascending (insert_string x l).
Proof.
  induction 1 as [|y l Hl IH Hy]; simpl.
  - repeat constructor.
  - destruct (String.ltb y x) eqn:Hxy.
    + constructor; [done|].
      rewrite insert_string_perm. constructor; [|done].
      by apply ltb_leb_weak.
    + assert (ascending x y) as Hx.
      { unfold ascending. rewrite ltb_leb in Hxy.
        by apply negb_false_iff in Hxy. }
      constructor; [by constructor|]. constructor; [done|].
      eapply Forall_impl; [exact Hy|]. intros z Hz.
      unfold ascending in *. by eapply leb_trans.
Qed.

Lemma sort_strings_sorted l : StronglySorted ascending (sort_strings l).
Proof.
  induction l as [|x l IH]; simpl; [constructor|].
  by apply insert_string_sorted.
Qed.

(** Without repetitions the order is strict. *)
Lemma sorted_strict l :
  StronglySorted ascending l → NoDup l → StronglySorted earlier l.
Proof.
  induction 1 as [|x l Hl IH Hx]; intros Hnd; [constructor|].
  apply NoDup_cons in Hnd as [Hnin Hnd].
  constructor; [by apply IH|].
  apply Forall_forall. intros y Hy.
  rewrite Forall_forall in Hx. specialize (Hx y Hy).
  unfold earlier, ascending in *. rewrite ltb_leb. apply negb_true_iff.
  destruct (String.leb y x) eqn:Hyx; [|done].
  destruct Hnin. by rewrite (String.leb_antisym x y).
Qed.

Lemma window_NoDup today : valid_today today → NoDup (window today).
Proof.
  intros Hv. pose proof (window_newest_first today Hv) as Hs.
  induction Hs as [|x l Hl IH Hx]; constructor; [|done].
  intros Hin. rewrite Forall_forall in Hx. specialize (Hx x Hin).
  unfold newer in Hx. by rewrite ltb_irrefl in Hx.
Qed.

(** The order of the dates of the calendar is the order of their
    strings. *)
Lemma isoformat_leb n n' :
  1 <= n <= Calendar.MAXORDINAL → 1 <= n' <= Calendar.MAXORDINAL →
  String.leb (Calendar.isoformat n) (Calendar.isoformat n') = true ↔ n <= n'.
Proof.
  intros Hn Hn'. split.
  - intros Hle. destruct (decide (n <= n')) as [|Hgt]; [done|].
    assert (String.ltb (Calendar.isoformat n') (Calendar.isoformat n) = true)
      as Hlt by (apply isoformat_lt; lia).
    rewrite ltb_leb, Hle in Hlt. done.
  - intros Hle. destruct (decide (n = n')) as [->|Hne].
    + apply Is_true_true. by change (String.le (Calendar.isoformat n')
                                       (Calendar.isoformat n')).
    + apply ltb_leb_weak, isoformat_lt; lia.
Qed.

(** What [fill_missing_streak_dates] does after an analysis of the same
    day. *)
Lemma fill_missing_streak_dates_run today weeks streak_info repo_path
    days_back push tr :
  valid_today today →
  1 <= today - days_back <= Calendar.MAXORDINAL →
  analyze_streak today weeks = Some streak_info →
  ∃ dates,
    StronglySorted earlier dates
    ∧ (∀ s, s ∈ dates ↔ to_fill streak_info today days_back s)
    ∧ match dates with
      | [] =>
          fill_missing_streak_dates env streak_info today repo_path
            days_back push tr
          = (Return ∅,
             tr ++ [Printed
                      "No missing dates found in the specified time range."])
      | _ =>
          ∃ v commit_count,
            1 <= commit_count <= 3
            ∧ fill_missing_streak_dates env streak_info today repo_path
                days_back push tr
              = bulk_backdate env repo_path dates commit_count push
                  (tr ++ [Random v])
      end.
Proof.
  intros Hv Hcut Hinfo.
  rewrite analyze_streak_Some in Hinfo by done. injection Hinfo as <-.
  cbn [missing_dates]. unfold to_fill. cbn [missing_dates].
  set (missing := filter _ (window today)).
  set (cutoff_date := Calendar.isoformat (today - days_back)).
  set (kept := filter (λ date, String.leb cutoff_date date = true) missing).
  assert (NoDup missing) as Hnd.
  { apply NoDup_filter. by apply window_NoDup. }
  assert (∀ s, s ∈ kept ↔
               s ∈ missing
               ∧ ∃ i : nat, (i < 30)%nat ∧ Z.of_nat i <= days_back
                            ∧ s = Calendar.isoformat (today - Z.of_nat i))
    as Hkept.
  { intros s. unfold kept. rewrite list_elem_of_filter. split.
    - intros [Hle Hin]. split; [done|].
      assert (s ∈ window today) as Hw.
      { unfold missing in Hin. by apply list_elem_of_filter in Hin as [_ ?]. }
      unfold window in Hw.
      apply list_elem_of_fmap in Hw as (i & -> & Hi%elem_of_seq).
      exists i. split; [lia|]. split; [|done]. unfold valid_today in Hv.
      apply isoformat_leb in Hle; lia.
    - intros [Hin (i & Hi & Hdb & ->)]. split; [|done].
      unfold valid_today in Hv. apply isoformat_leb; lia. }
  unfold fill_missing_streak_dates, Calendar.sub_days. cbv zeta.
  rewrite (proj2 (Z.ltb_ge 999999999 (Z.abs days_back)))
    by (unfold valid_today, Calendar.MAXORDINAL in *; lia).
  rewrite (proj2 (Z.ltb_lt _ _)), (proj2 (Z.leb_le _ _)) by lia.
  cbn [andb]. fold cutoff_date. cbn [missing_dates]. fold missing. fold kept.
  destruct kept as [|s0 kept'] eqn:Hk.
  - exists []. split; [constructor|]. split; [done|].
    reflexivity.
  - exists (sort_strings (s0 :: kept')). split; [|split].
    + apply sorted_strict; [apply sort_strings_sorted|].
      rewrite sort_strings_perm, <- Hk. by apply NoDup_filter.
    + intros s. by rewrite sort_strings_perm.
    + destruct (sort_strings (s0 :: kept')) eqn:Hsort.
      { apply (f_equal length) in Hsort.
        rewrite (Permutation_length (sort_strings_perm _)) in Hsort.
        done. }
      rewrite <- Hsort.
      exists (draw env tr), (1 + draw env tr mod (3 - 1 + 1)).
      split; [pose proof (Z.mod_pos_bound (draw env tr) (3 - 1 + 1) eq_refl);
              lia|].
      reflexivity.
Qed.

End FillFacts.

(** X17: after an analysis of the same day, [fill_missing_streak_dates]
    hands to [bulk_backdate] the missing dates of the report that are at
    most [days_back] days old, oldest first and each one once, with one
    commit count from 1 to 3 for all of them. When there is no such date
    it only prints a message and returns the empty mapping, without a
    call into git or the file system. *)
Theorem fill_missing_streak_dates_plan
    (env : Env) (today : Z) (weeks : list (list ContributionDay))
    (repo_path : string) (days_back : Z) (push : bool) (tr : list Event) :
  valid_today today →
  1 <= today - days_back <= Calendar.MAXORDINAL →
  ∃ streak_info dates,
    analyze_streak today weeks = Some streak_info
    ∧ StronglySorted earlier dates
    ∧ (∀ s, s ∈ dates ↔ to_fill streak_info today days_back s)
    ∧ match dates with
      | [] =>
          fill_missing_streak_dates env streak_info today repo_path
            days_back push tr
          = (Return ∅,
             tr ++ [Printed
                      "No missing dates found in the specified time range."])
      | _ =>
          ∃ v commit_count,
            1 <= commit_count <= 3
            ∧ fill_missing_streak_dates env streak_info today repo_path
                days_back push tr
              = bulk_backdate env repo_path dates commit_count push
                  (tr ++ [Random v])
      end.
Proof.
  intros Hv Hcut.
  destruct (analyze_streak today weeks) as [streak_info|] eqn:Hinfo;
    [|by rewrite analyze_streak_Some in Hinfo].
  destruct (fill_missing_streak_dates_run env today weeks streak_info
              repo_path days_back push tr Hv Hcut Hinfo)
    as (dates & Hsorted & Hdates & Hrun).
  by exists streak_info, dates.
Qed.

Lemma fill_missing_streak_dates_plan_witness :
  ∃ streak_info dates,
    analyze_streak today_2024_03_10 calendar_three_days = Some streak_info
    ∧ StronglySorted earlier dates
    ∧ (∀ s, s ∈ dates ↔ to_fill streak_info today_2024_03_10 3 s)
    ∧ match dates with
      | [] =>
          fill_missing_streak_dates quiet_env streak_info today_2024_03_10
            "/repo" 3 true []
          = (Return ∅,
             [] ++ [Printed
                      "No missing dates found in the specified time range."])
      | _ =>
          ∃ v commit_count,
            1 <= commit_count <= 3
            ∧ fill_missing_streak_dates quiet_env streak_info
                today_2024_03_10 "/repo" 3 true []
              = bulk_backdate quiet_env "/repo" dates commit_count true
                  ([] ++ [Random v])
      end.
Proof.
  apply (fill_missing_streak_dates_plan quiet_env today_2024_03_10
           calendar_three_days "/repo" 3 true []).
  - unfold valid_today. vm_compute. split; discriminate.
  - vm_compute. split; discriminate.
Defined.

(** X18: when [fill_missing_streak_dates] returns after an analysis of the
    same day, the keys of its result are exactly the missing dates of the
    report that are at most [days_back] days old. *)
Theorem fill_missing_streak_dates_keys
    (env : Env) (today : Z) (weeks : list (list ContributionDay))
    (repo_path : string) (days_back : Z) (push : bool) (tr : list Event) :
  valid_today today →
  1 <= today - days_back <= Calendar.MAXORDINAL →
  ∃ streak_info,
    analyze_streak today weeks = Some streak_info
    ∧ ∀ results tr',
        fill_missing_streak_dates env streak_info today repo_path days_back
          push tr = (Return results, tr') →
        ∀ s, s ∈ dom results ↔ to_fill streak_info today days_back s.
Proof.
  intros Hv Hcut.
  destruct (analyze_streak today weeks) as [streak_info|] eqn:Hinfo;
    [|by rewrite analyze_streak_Some in Hinfo].
  destruct (fill_missing_streak_dates_run env today weeks streak_info
              repo_path days_back push tr Hv Hcut Hinfo)
    as (dates & Hsorted & Hdates & Hrun).
  exists streak_info. split; [done|]. intros results tr' Hres s.
  rewrite <- Hdates. destruct dates as [|d dates].
  - rewrite Hrun in Hres. injection Hres as <- _.
    rewrite dom_empty_L, elem_of_nil. split; [|done].
    intros Hin. by apply not_elem_of_empty in Hin.
  - destruct Hrun as (v & commit_count & _ & Hrun).
    rewrite Hrun in Hres. by apply (bulk_backdate_dom env _ _ _ _ _ _ _ Hres).
Qed.

Lemma fill_missing_streak_dates_keys_witness :
  ∃ streak_info,
    analyze_streak today_2024_03_10 calendar_three_days = Some streak_info
    ∧ ∀ results tr',
        fill_missing_streak_dates quiet_env streak_info today_2024_03_10
          "/repo" 3 false [] = (Return results, tr') →
        ∀ s, s ∈ dom results ↔ to_fill streak_info today_2024_03_10 3 s.
Proof.
  apply (fill_missing_streak_dates_keys quiet_env today_2024_03_10
           calendar_three_days "/repo" 3 false []).
  - unfold valid_today. vm_compute. split; discriminate.
  - vm_compute. split; discriminate.
Defined.

(** ** The scheduler *)

(** X19: [check_and_fill_streak] never raises. When the analysis raises,
    the exception is logged and the result is [False], without any
    attempt to commit. *)
Theorem check_and_fill_streak_never_raises
    (env : Env) (analysis : M StreakReport) (today : Z)
    (repo_path : string) (tr : list Event) :
  1 <= today <= Calendar.MAXORDINAL →
  ∃ b tr',
    check_and_fill_streak env analysis today repo_path tr = (Return b, tr')
    ∧ ∀ e tr1,
        analysis (tr ++ [logged_info "Checking GitHub contribution streak..."])
        = (Raise e, tr1) →
        b = false
        ∧ tr' = tr1 ++ [logged_error ("Error checking and filling streak: "
                               +:+ exn_str e)].
Proof.
  intros Htoday.
  unfold check_and_fill_streak, bind at 1, logger_info at 1, try_except,
    bind at 1.
  fold (logged_info "Checking GitHub contribution streak...").
  destruct (analysis _) as [[streak_info|e] tr1].
  - destruct (bool_decide _).
    + eexists _, _. split; [reflexivity|]. by intros e tr2 [=].
    + unfold bind at 1, logger_info at 1, bind at 1.
      destruct (backdate_commit_result env repo_path
                  (DateStr (Calendar.isoformat today)) None None None true
                  (isoformat_parses today Htoday)
                  (tr1 ++ [Printed
                     ("INFO - "
                      +:+ "No contribution found for today. Creating one...")]))
        as (r & evs & -> & b & -> & _).
      destruct b; (eexists _, _; split; [reflexivity|by intros e tr2 [=]]).
  - eexists _, _. split; [reflexivity|]. by intros e' tr2 [= <- <-].
Qed.

Lemma check_and_fill_streak_never_raises_witness :
  ∃ b tr',
    check_and_fill_streak quiet_env
      (raise (Exception "GitHub GraphQL API Error: 401 - ")) today_2024_03_10
      "/repo" [] = (Return b, tr')
    ∧ ∀ e tr1,
        raise (A := StreakReport)
          (Exception "GitHub GraphQL API Error: 401 - ")
          ([] ++ [logged_info "Checking GitHub contribution streak..."])
        = (Raise e, tr1) →
        b = false
        ∧ tr' = tr1 ++ [logged_error ("Error checking and filling streak: "
                               +:+ exn_str e)].
Proof.
  apply (check_and_fill_streak_never_raises quiet_env
           (raise (Exception "GitHub GraphQL API Error: 401 - "))
           today_2024_03_10 "/repo" []).
  vm_compute. split; discriminate.
Defined.

(** X20: when the calendar has an entry for today, whatever its count
    (also zero), [check_and_fill_streak] after the analysis of this
    calendar makes no commit: it logs that there is a contribution
    already and returns [True]. The calendar is one of proper dates up to
    today, none of them twice. *)
Theorem check_and_fill_streak_entry_for_today
    (env : Env) (today : Z) (weeks : list (list ContributionDay))
    (repo_path : string) (tr : list Event) (entry : ContributionDay) :
  valid_today today →
  NoDup (date <$> concat weeks) →
  (∀ d, d ∈ concat weeks →
        ∃ n, 1 <= n <= today ∧ date d = Calendar.isoformat n) →
  entry ∈ concat weeks →
  date entry = Calendar.isoformat today →
  ∃ streak_info,
    analyze_streak today weeks = Some streak_info
    ∧ check_and_fill_streak env (ret streak_info) today repo_path tr
      = (Return true,
         tr ++ [logged_info "Checking GitHub contribution streak...";
                logged_info
                  "Already have a contribution for today! No action needed."]).
Proof.
  intros Hv Hnd Hdates Hentry Htoday.
  rewrite analyze_streak_Some by done. eexists. split; [done|].
  unfold check_and_fill_streak, bind at 1, logger_info at 1, try_except,
    bind at 1, ret at 1.
  cbn [missing_dates].
  set (l := sort_reverse (collect_days weeks)).
  assert (l ≡ₚ concat weeks) as Hperm.
  { unfold l. by rewrite sort_reverse_perm, collect_days_concat. }
  rewrite bool_decide_true.
  { unfold bind, logger_info, ret, logged_info. by rewrite <- app_assoc. }
  intros [Hnot _]%list_elem_of_filter. destruct Hnot.
  apply elem_of_list_to_set, list_elem_of_fmap.
  exists entry. split; [done|].
  rewrite <- Hperm in Hentry.
  apply list_elem_of_lookup in Hentry as [k Hk].
  assert (k ≤ 0)%nat as Hk0.
  { apply (recent_entry_position today l 0 k entry); try done.
    - apply sort_reverse_sorted.
    - by rewrite Hperm.
    - intros d Hd. apply Hdates. by rewrite <- Hperm.
    - by rewrite Z.sub_0_r.
    - lia. }
  apply list_elem_of_lookup. exists k. rewrite lookup_take_lt by lia. done.
Qed.

Lemma check_and_fill_streak_entry_for_today_witness :
  ∃ streak_info,
    analyze_streak today_2024_03_10 calendar_idle_today = Some streak_info
    ∧ check_and_fill_streak quiet_env (ret streak_info) today_2024_03_10
        "/repo" []
      = (Return true,
         [] ++ [logged_info "Checking GitHub contribution streak...";
                logged_info
                  "Already have a contribution for today! No action needed."]).
Proof.
  apply (check_and_fill_streak_entry_for_today quiet_env today_2024_03_10
           calendar_idle_today "/repo" [] (mkDay "2024-03-10" 0)).
  - unfold valid_today. vm_compute. split; discriminate.
  - apply (bool_decide_unpack _). vm_compute. exact I.
  - intros d Hd. simpl in Hd.
    apply elem_of_cons in Hd as [->|Hd];
      [exists (today_2024_03_10 - 1); split; [by vm_compute|by vm_compute]|].
    apply elem_of_cons in Hd as [->|Hd];
      [exists today_2024_03_10; split; [by vm_compute|by vm_compute]|].
    by apply elem_of_nil in Hd.
  - simpl. right. left.
  - by vm_compute.
Defined.

(** X21: when the calendar has no entry for today,
    [check_and_fill_streak] after the analysis of this calendar makes one
    call of [backdate_commit], for today's date, with a stock commit
    message, the default file and a push; it logs the outcome and returns
    the result of that call. *)
Theorem check_and_fill_streak_no_entry_for_today
    (env : Env) (today : Z) (weeks : list (list ContributionDay))
    (repo_path : string) (tr : list Event) :
  valid_today today →
  Calendar.isoformat today ∉ date <$> concat weeks →
  ∃ streak_info b evs,
    analyze_streak today weeks = Some streak_info
    ∧ backdate_commit env repo_path (DateStr (Calendar.isoformat today))
        None None None true
        (tr ++ [logged_info "Checking GitHub contribution streak...";
                logged_info
                  "No contribution found for today. Creating one..."])
      = (Return b,
         (tr ++ [logged_info "Checking GitHub contribution streak...";
                 logged_info
                   "No contribution found for today. Creating one..."])
         ++ evs)
    ∧ check_and_fill_streak env (ret streak_info) today repo_path tr
      = (Return b,
         tr ++ [logged_info "Checking GitHub contribution streak...";
                logged_info
                  "No contribution found for today. Creating one..."]
         ++ evs
         ++ [if b
             then logged_info "Successfully created commit for today!"
             else logged_error "Failed to create commit for today."]).
Proof.
  intros Hv Hnone.
  rewrite analyze_streak_Some by done.
  set (tr2 := tr ++ [logged_info "Checking GitHub contribution streak...";
                     logged_info
                       "No contribution found for today. Creating one..."]).
  assert (1 <= today <= Calendar.MAXORDINAL) as Htoday
    by (unfold valid_today in Hv; lia).
  destruct (backdate_commit_result env repo_path
              (DateStr (Calendar.isoformat today)) None None None true
              (isoformat_parses today Htoday) tr2)
    as (r & evs & Hrun & b & -> & _).
  eexists _, b, evs. split; [done|]. split; [exact Hrun|].
  unfold check_and_fill_streak, bind at 1, logger_info at 1, try_except,
    bind at 1, ret at 1.
  cbn [missing_dates].
  set (l := sort_reverse (collect_days weeks)).
  assert (l ≡ₚ concat weeks) as Hperm.
  { unfold l. by rewrite sort_reverse_perm, collect_days_concat. }
  rewrite bool_decide_false.
  2:{ intros Hnot. apply Hnot. apply list_elem_of_filter. split.
      - intros (y & Hy & (k & Hk & _)%elem_of_take)%elem_of_list_to_set%list_elem_of_fmap.
        apply Hnone. rewrite Hy, <- Hperm.
        by eapply list_elem_of_fmap_2, list_elem_of_lookup_2.
      - unfold window. apply list_elem_of_fmap. exists 0%nat.
        split; [by rewrite Z.sub_0_r|]. apply elem_of_seq. lia. }
  unfold bind at 1, logger_info at 1, bind at 1.
  fold (logged_info "Checking GitHub contribution streak...").
  fold (logged_info "No contribution found for today. Creating one...").
  rewrite <- app_assoc. change (tr ++ [_] ++ [_]) with tr2. rewrite Hrun.
  destruct b; unfold bind, logger_info, logger_error, ret, logged_info,
    logged_error; subst tr2; by rewrite <- !app_assoc.
Qed.

Lemma check_and_fill_streak_no_entry_for_today_witness :
  ∃ streak_info b evs,
    analyze_streak today_2024_03_10 [[mkDay "2024-03-09" 1]]
    = Some streak_info
    ∧ backdate_commit push_fails_env "/repo"
        (DateStr (Calendar.isoformat today_2024_03_10)) None None None true
        ([] ++ [logged_info "Checking GitHub contribution streak...";
                logged_info
                  "No contribution found for today. Creating one..."])
      = (Return b,
         ([] ++ [logged_info "Checking GitHub contribution streak...";
                 logged_info
                   "No contribution found for today. Creating one..."])
         ++ evs)
    ∧ check_and_fill_streak push_fails_env (ret streak_info)
        today_2024_03_10 "/repo" []
      = (Return b,
         [] ++ [logged_info "Checking GitHub contribution streak...";
                logged_info
                  "No contribution found for today. Creating one..."]
         ++ evs
         ++ [if b
             then logged_info "Successfully created commit for today!"
             else logged_error "Failed to create commit for today."]).
Proof.
  apply (check_and_fill_streak_no_entry_for_today push_fails_env
           today_2024_03_10 [[mkDay "2024-03-09" 1]] "/repo" []).
  - unfold valid_today. vm_compute. split; discriminate.
  - apply (bool_decide_unpack _). vm_compute. exact I.
Defined.

(** ** Suggested repositories *)

Section Suggest.

Lemma insert_repo_perm x l : insert_repo x l ≡ₚ x :: l.
Proof.
  induction l as [|y l IH]; simpl; [done|].
  destruct (String.ltb (updated_key y) (updated_key x)); [|done].
  by rewrite IH, Permutation_swap.
Qed.

Lemma sort_repos_perm l : sort_repos l ≡ₚ l.
Proof.
  induction l as [|x l IH]; simpl; [done|].
  by rewrite insert_repo_perm, IH.
Qed.

Lemma insert_repo_sorted x l :
  StronglySorted not_updated_later l →
  StronglySorted not_updated_later (insert_repo x l).
Proof.
  induction 1 as [|y l Hl IH Hy]; simpl.
  - repeat constructor.
  - destruct (String.ltb (updated_key y) (updated_key x)) eqn:Hxy.
    + constructor; [done|].
      rewrite insert_repo_perm. constructor; [|done].
      by apply ltb_leb_weak.
    + assert (not_updated_later x y) as Hx.
      { unfold not_updated_later. rewrite ltb_leb in Hxy.
        by apply negb_false_iff in Hxy. }
      constructor; [by constructor|]. constructor; [done|].
      eapply Forall_impl; [exact Hy|]. intros z Hz.
      unfold not_updated_later in *. by eapply leb_trans.
Qed.

Lemma sort_repos_sorted l : StronglySorted not_updated_later (sort_repos l).
Proof.
  induction l as [|x l IH]; simpl; [constructor|].
  by apply insert_repo_sorted.
Qed.

Lemma insert_repo_stable s x l :
  filter (λ r, updated_key r = s) (insert_repo x l)
  = filter (λ r, updated_key r = s) (x :: l).
Proof.
  induction l as [|y l IH]; simpl; [done|].
  destruct (String.ltb (updated_key y) (updated_key x)) eqn:Hxy; [|done].
  rewrite filter_cons, IH, !filter_cons.
  destruct (decide (updated_key y = s)) as [Hy|]; [|done].
  destruct (decide (updated_key x = s)) as [Hx|]; [|done].
  rewrite Hy, Hx, ltb_irrefl in Hxy. done.
Qed.

Lemma sort_repos_stable s l :
  filter (λ r, updated_key r = s) (sort_repos l)
  = filter (λ r, updated_key r = s) l.
Proof.
  induction l as [|x l IH]; simpl; [done|].
  by rewrite insert_repo_stable, !filter_cons, IH.
Qed.

End Suggest.

(** X22: [suggest_repos] returns the repositories of the answer, only
    those whose language is the one asked for when a non-empty language
    is given, sorted by the time of their last update, oldest first and
    those without one in front; repositories with the same time keep the
    order of the answer. *)
Theorem suggest_repos_oldest_first
    (repos : list RepoInfo) (lang : option string) :
  StronglySorted not_updated_later (suggest_repos repos lang)
  ∧ suggest_repos repos lang ≡ₚ selected repos lang
  ∧ ∀ s, filter (λ r, updated_key r = s) (suggest_repos repos lang)
         = filter (λ r, updated_key r = s) (selected repos lang).
Proof.
  assert ((if falsy lang then repos
           else filter (λ repo, language repo = lang) repos)
          = selected repos lang) as Hsel.
  { destruct lang as [[|c l]|]; done. }
  unfold suggest_repos. rewrite Hsel.
  split; [apply sort_repos_sorted|].
  split; [apply sort_repos_perm|]. intros s. apply sort_repos_stable.
Qed.

(** ** The dates of a bulk run *)

Section BulkDates.
  Import Calendar.

Lemma ymd_trichotomy (a b : Z * Z * Z) : ymd_lt a b ∨ a = b ∨ ymd_lt b a.
Proof.
  destruct a as [[y m] d], b as [[y' m'] d']. unfold ymd_lt.
  destruct (Z.lt_trichotomy y y') as [?|[->|?]]; [tauto| |tauto].
  destruct (Z.lt_trichotomy m m') as [?|[->|?]]; [tauto| |tauto].
  destruct (Z.lt_trichotomy d d') as [?|[->|?]]; tauto.
Qed.

Lemma ymd2ord_range y m d :
  ymd_valid (y, m, d) → 1 <= ymd2ord y m d <= MAXORDINAL.
Proof.
  intros Hv.
  assert (ymd_valid (1, 1, 1)) as H1 by (vm_compute; repeat split; discriminate).
  assert (ymd_valid (9999, 12, 31)) as H2
    by (vm_compute; repeat split; discriminate).
  split.
  - destruct (ymd_trichotomy (1, 1, 1) (y, m, d)) as [Hlt|[[= <- <- <-]|Hgt]].
    + pose proof (ymd2ord_lt _ _ _ _ _ _ H1 Hv Hlt) as Hlt'.
      change (ymd2ord 1 1 1) with 1 in Hlt'. lia.
    + by vm_compute.
    + destruct Hv as (Hy & Hm & Hd). unfold ymd_lt in Hgt. lia.
  - destruct (ymd_trichotomy (y, m, d) (9999, 12, 31))
      as [Hlt|[[= -> -> ->]|Hgt]].
    + pose proof (ymd2ord_lt _ _ _ _ _ _ Hv H2 Hlt) as Hlt'.
      change (ymd2ord 9999 12 31) with MAXORDINAL in Hlt'. lia.
    + by vm_compute.
    + destruct Hv as (Hy & Hm & Hd). unfold ymd_lt in Hgt.
      assert (days_in_month y m <= 31).
      { unfold days_in_month. destruct ((m =? 2) && is_leap y); [lia|].
        month_cases m Hc; simpl; lia. }
      lia.
Qed.

Lemma ord2ymd_ymd2ord y m d :
  ymd_valid (y, m, d) → ord2ymd (ymd2ord y m d) = (y, m, d).
Proof.
  intros Hv. pose proof (ymd2ord_range y m d Hv) as Hr.
  destruct (ord2ymd (ymd2ord y m d)) as [[y' m'] d'] eqn:E.
  apply ord2ymd_spec in E as (Hy & Hm & Hd & Heq); [|done].
  assert (ymd_valid (y', m', d')) as Hv' by done.
  destruct (ymd_trichotomy (y', m', d') (y, m, d)) as [Hlt|[?|Hgt]]; [|done|].
  - pose proof (ymd2ord_lt _ _ _ _ _ _ Hv' Hv Hlt). lia.
  - pose proof (ymd2ord_lt _ _ _ _ _ _ Hv Hv' Hgt). lia.
Qed.

(** *** What [strptime] returns *)

Lemma is_digit_value c :
  Strptime.is_digit c = true → 0 <= Strptime.value c <= 9.
Proof.
  unfold Strptime.is_digit, Strptime.value. cbv zeta.
  intros [H1%Z.leb_le H2%Z.leb_le]%andb_prop. lia.
Qed.

Lemma between_value lo hi c :
  Strptime.between lo hi c = true → lo <= Strptime.value c <= hi.
Proof.
  unfold Strptime.between.
  intros [[_ H1%Z.leb_le]%andb_prop H2%Z.leb_le]%andb_prop. lia.
Qed.

Lemma parse_Y_range s y rest :
  Strptime.parse_Y s = Some (y, rest) → 0 <= y <= 9999.
Proof.
  unfold Strptime.parse_Y.
  destruct s as [|a [|b [|c [|d s]]]]; try done.
  destruct (Strptime.is_digit a) eqn:Ha; [|done].
  destruct (Strptime.is_digit b) eqn:Hb; [|done].
  destruct (Strptime.is_digit c) eqn:Hc; [|done].
  destruct (Strptime.is_digit d) eqn:Hd; [|done].
  simpl. intros [= <- _].
  apply is_digit_value in Ha, Hb, Hc, Hd. lia.
Qed.

Lemma parse_m_range s m rest :
  Strptime.parse_m s = Some (m, rest) → 1 <= m <= 12.
Proof.
  unfold Strptime.parse_m. intros H.
  repeat (case_match; simplify_eq);
    repeat match goal with
    | H : _ && _ = true |- _ => apply andb_prop in H as [? ?]
    | H : Strptime.between _ _ _ = true |- _ => apply between_value in H
    end; lia.
Qed.

Lemma parse_d_range s d rest :
  Strptime.parse_d s = Some (d, rest) → 1 <= d.
Proof.
  unfold Strptime.parse_d. intros H.
  repeat (case_match; simplify_eq);
    repeat match goal with
    | H : _ && _ = true |- _ => apply andb_prop in H as [? ?]
    | H : Strptime.between _ _ _ = true |- _ => apply between_value in H
    | H : Strptime.is_digit _ = true |- _ => apply is_digit_value in H
    end; lia.
Qed.

Lemma strptime_valid s d :
  Strptime.strptime s = Some d →
  ymd_valid (year d, month d, day d)
  ∧ hour d = 0 ∧ minute d = 0 ∧ second d = 0.
Proof.
  intros Hs. split; [|by apply (strptime_midnight s)].
  unfold Strptime.strptime in Hs.
  destruct (Strptime.parse_Y s) as [[y s1]|] eqn:HY; [|done].
  simpl in Hs.
  destruct (Strptime.expect_sep s1) as [s2|]; [|done]. simpl in Hs.
  destruct (Strptime.parse_m s2) as [[m s3]|] eqn:HM; [|done]. simpl in Hs.
  destruct (Strptime.expect_sep s3) as [s4|]; [|done]. simpl in Hs.
  destruct (Strptime.parse_d s4) as [[dd s5]|] eqn:HD; [|done]. simpl in Hs.
  destruct (String.eqb s5 "" && (1 <=? y) && (dd <=? days_in_month y m))
    eqn:Hc; [|done].
  injection Hs as <-. simpl.
  apply andb_prop in Hc as [[_ Hy%Z.leb_le]%andb_prop Hd%Z.leb_le].
  apply parse_Y_range in HY. apply parse_m_range in HM.
  apply parse_d_range in HD. unfold ymd_valid. lia.
Qed.

Lemma strptime_day_start s d :
  Strptime.strptime s = Some d →
  d = day_start (toordinal d) ∧ 1 <= toordinal d <= MAXORDINAL.
Proof.
  intros (Hv & Hh & Hm & Hs)%strptime_valid.
  split; [|by apply ymd2ord_range].
  unfold day_start, toordinal. rewrite ord2ymd_ymd2ord by done.
  destruct d; simpl in *. by subst.
Qed.

(** *** One step of the loop *)

Lemma strftime_date_day_start n : strftime_date (day_start n) = isoformat n.
Proof.
  unfold strftime_date, day_start, isoformat.
  by destruct (ord2ymd n) as [[y m] d].
Qed.

Lemma datetime_le_day_start a b :
  1 <= a <= MAXORDINAL → 1 <= b <= MAXORDINAL →
  datetime_le (day_start a) (day_start b) = (a <=? b).
Proof.
  intros Ha Hb.
  assert (∀ x y, 1 <= x → x < y → y <= MAXORDINAL →
            datetime_le (day_start x) (day_start y) = true
            ∧ datetime_le (day_start y) (day_start x) = false) as Hlt.
  { intros x y H1 H2 H3.
    destruct (ord2ymd_lt x y H1 H2 H3) as (_ & _ & Hl).
    unfold datetime_le, day_start.
    destruct (ord2ymd x) as [[y1 m1] d1], (ord2ymd y) as [[y2 m2] d2].
    simpl. unfold ymd_lt in Hl.
    destruct Hl as [Hl|[<- [Hl|[<- Hl]]]].
    - rewrite (proj2 (Z.compare_lt_iff _ _) Hl).
      by rewrite (proj2 (Z.compare_gt_iff _ _) Hl).
    - rewrite Z.compare_refl, (proj2 (Z.compare_lt_iff _ _) Hl).
      by rewrite (proj2 (Z.compare_gt_iff _ _) Hl).
    - rewrite !Z.compare_refl, (proj2 (Z.compare_lt_iff _ _) Hl).
      by rewrite (proj2 (Z.compare_gt_iff _ _) Hl). }
  destruct (Z.lt_trichotomy a b) as [Hab|[<-|Hba]].
  - destruct (Hlt a b) as [-> _]; [lia..|]. symmetry. apply Z.leb_le. lia.
  - rewrite Z.leb_refl. unfold datetime_le.
    rewrite !Z.compare_refl. apply Z.leb_refl.
  - destruct (Hlt b a) as [_ ->]; [lia..|]. symmetry. apply Z.leb_gt. lia.
Qed.

Lemma next_day_day_start n :
  1 <= n <= MAXORDINAL →
  next_day (day_start n)
  = if n + 1 <=? MAXORDINAL then Some (day_start (n + 1)) else None.
Proof.
  intros Hn. unfold next_day, day_start.
  destruct (ord2ymd n) as [[y m] d] eqn:E. simpl.
  apply ord2ymd_spec in E as (_ & _ & _ & ->); [|done].
  rewrite (proj2 (Z.ltb_lt 0 (n + 1))) by lia. simpl.
  destruct (n + 1 <=? MAXORDINAL); [|done].
  by destruct (ord2ymd (n + 1)) as [[y' m'] d'].
Qed.

(** *** The loop *)

Lemma days_between_cons first last :
  first <= last →
  days_between first last = isoformat first :: days_between (first + 1) last.
Proof.
  intros Hle. unfold days_between.
  rewrite seqZ_cons by lia. rewrite fmap_cons.
  do 3 f_equal; lia.
Qed.

Lemma days_between_empty first last :
  last < first → days_between first last = [].
Proof.
  intros Hlt. unfold days_between, seqZ.
  by replace (Z.to_nat (last - first + 1)) with 0%nat by lia.
Qed.

Lemma date_range_loop_returns fuel current last dates :
  1 <= current → current <= last + 1 → 1 <= last < MAXORDINAL →
  (Z.to_nat (last - current + 1) < fuel)%nat →
  date_range_loop fuel (day_start current) (day_start last) dates
  = Some (Return (dates ++ days_between current last)).
Proof.
  revert current dates.
  induction fuel as [|fuel IH]; intros current dates H1 H2 H3 Hfuel; [lia|].
  cbn [date_range_loop]. destruct (decide (current <= last)) as [Hle|Hgt].
  - rewrite datetime_le_day_start, (proj2 (Z.leb_le _ _)) by lia.
    rewrite next_day_day_start, (proj2 (Z.leb_le _ _)) by lia.
    rewrite IH by lia.
    rewrite strftime_date_day_start, <- app_assoc.
    by rewrite (days_between_cons current last).
  - rewrite datetime_le_day_start, (proj2 (Z.leb_gt _ _)) by lia.
    by rewrite days_between_empty, app_nil_r by lia.
Qed.

Lemma date_range_loop_overflows fuel current dates :
  1 <= current <= MAXORDINAL →
  (Z.to_nat (MAXORDINAL - current + 1) < fuel)%nat →
  date_range_loop fuel (day_start current) (day_start MAXORDINAL) dates
  = Some (Raise (Exception "date value out of range")).
Proof.
  revert current dates.
  induction fuel as [|fuel IH]; intros current dates Hc Hfuel; [lia|].
  cbn [date_range_loop]. rewrite datetime_le_day_start, (proj2 (Z.leb_le _ _)) by lia.
  rewrite next_day_day_start by lia.
  destruct (decide (current = MAXORDINAL)) as [->|Hne]; [done|].
  rewrite (proj2 (Z.leb_le _ _)) by lia. apply IH; lia.
Qed.

End BulkDates.

(** X23: the dates of a bulk run are the days from the start date to the
    end date, both included, in order and written as [YYYY-MM-DD],
    whatever the padding of the arguments; there is none when the start
    date is after the end date. This holds for an end date before
    9999-12-31 and a start date from the year 1000 on. *)
Theorem bulk_dates_inclusive
    (fuel : nat) (start_date end_date : string) (start end_ : datetime) :
  Strptime.strptime start_date = Some start →
  Strptime.strptime end_date = Some end_ →
  1000 <= year start →
  toordinal end_ < Calendar.MAXORDINAL →
  (Z.to_nat (toordinal end_ - toordinal start + 1) < fuel)%nat →
  bulk_dates fuel start_date end_date
  = Some (Return (days_between (toordinal start) (toordinal end_))).
Proof.
  intros Hs He _ Hmax Hfuel. unfold bulk_dates. rewrite Hs, He.
  destruct (strptime_day_start _ _ Hs) as [Hds Hrs].
  destruct (strptime_day_start _ _ He) as [Hde Hre].
  rewrite Hds, Hde at 1.
  destruct (decide (toordinal start <= toordinal end_ + 1)) as [Hle|Hgt].
  - by rewrite date_range_loop_returns by (done || lia).
  - destruct fuel as [|fuel]; [lia|]. cbn [date_range_loop].
    rewrite datetime_le_day_start, (proj2 (Z.leb_gt _ _)) by lia.
    by rewrite days_between_empty by lia.
Qed.

Lemma bulk_dates_inclusive_witness :
  bulk_dates 10 "2024-2-28" "2024-03-01"
  = Some (Return (days_between (toordinal (mkDatetime 2024 2 28 0 0 0))
                    (toordinal (mkDatetime 2024 3 1 0 0 0)))).
Proof.
  apply (bulk_dates_inclusive 10 "2024-2-28" "2024-03-01"
           (mkDatetime 2024 2 28 0 0 0) (mkDatetime 2024 3 1 0 0 0)).
  - reflexivity.
  - reflexivity.
  - simpl. lia.
  - by vm_compute.
  - vm_compute. lia.
Defined.

(** X24: with the end date 9999-12-31 the loop that collects the dates of
    a bulk run raises [OverflowError] when it steps past the end date, so
    that no bulk run takes place. *)
Theorem bulk_dates_overflow
    (fuel : nat) (start_date end_date : string) (start end_ : datetime) :
  Strptime.strptime start_date = Some start →
  Strptime.strptime end_date = Some end_ →
  toordinal end_ = Calendar.MAXORDINAL →
  (Z.to_nat (Calendar.MAXORDINAL - toordinal start + 1) < fuel)%nat →
  bulk_dates fuel start_date end_date
  = Some (Raise (Exception "date value out of range")).
Proof.
  intros Hs He Hmax Hfuel. unfold bulk_dates. rewrite Hs, He.
  destruct (strptime_day_start _ _ Hs) as [Hds Hrs].
  destruct (strptime_day_start _ _ He) as [Hde Hre].
  rewrite Hds, Hde, Hmax at 1.
  by apply date_range_loop_overflows.
Qed.

Lemma bulk_dates_overflow_witness :
  bulk_dates 5 "9999-12-30" "9999-12-31"
  = Some (Raise (Exception "date value out of range")).
Proof.
  apply (bulk_dates_overflow 5 "9999-12-30" "9999-12-31"
           (mkDatetime 9999 12 30 0 0 0) (mkDatetime 9999 12 31 0 0 0)).
  - reflexivity.
  - reflexivity.
  - reflexivity.
  - vm_compute. lia.
Defined.

(** ** Dates and file names *)

Section Strings.

Lemma list_ascii_of_string_app s t :
  list_ascii_of_string (s +:+ t)
  = list_ascii_of_string s ++ list_ascii_of_string t.
Proof.
  induction s as [|c s IH]; [done|].
  change (c :: list_ascii_of_string (s +:+ t)
          = c :: (list_ascii_of_string s ++ list_ascii_of_string t)).
  by rewrite IH.
Qed.

Lemma string_app_inv_tail s1 s2 t : s1 +:+ t = s2 +:+ t → s1 = s2.
Proof.
  intros Heq. apply (f_equal list_ascii_of_string) in Heq.
  rewrite !list_ascii_of_string_app in Heq. apply app_inv_tail in Heq.
  apply (f_equal string_of_list_ascii) in Heq.
  by rewrite !string_of_list_ascii_of_string in Heq.
Qed.

Lemma path_join_relative_inj a b b' :
  path_join a (String "s" b) = path_join a (String "s" b') → b = b'.
Proof.
  unfold path_join. cbn [String.prefix Ascii.eqb Bool.eqb].
  change (String.prefix "/" (String "s" b)) with false.
  change (String.prefix "/" (String "s" b')) with false. cbv iota.
  destruct (String.eqb a "" || ends_with_sep a).
  - intros Heq%(inj (String.app a)). by injection Heq.
  - intros Heq%(inj (String.app a))%(inj (String.app "/")).
    by injection Heq.
Qed.

End Strings.

(** X25: the commits of one date are written to different files: for
    different indices [bulk_backdate] uses different paths, in whatever
    repository. *)
Theorem bulk_files_distinct
    (repo_path date_str : string) (i j : nat) :
  i ≠ j →
  path_join repo_path (bulk_file_path date_str i)
  ≠ path_join repo_path (bulk_file_path date_str j).
Proof.
  intros Hne Heq. apply Hne. unfold bulk_file_path in Heq.
  cbn [String.append] in Heq.
  apply path_join_relative_inj in Heq.
  apply (inj (String.app "treak_updates/")) in Heq.
  apply (inj (String.app date_str)) in Heq.
  apply (inj (String.app "/")) in Heq.
  apply string_app_inv_tail in Heq.
  by apply (inj pretty) in Heq.
Qed.

Lemma bulk_files_distinct_witness :
  path_join "/repo" (bulk_file_path "2024-01-01" 1)
  ≠ path_join "/repo" (bulk_file_path "2024-01-01" 10).
Proof.
  apply (bulk_files_distinct "/repo" "2024-01-01" 1 10). lia.
Defined.

(** X26: the text that [isoformat] gives for a day of the calendar is
    accepted by [strptime] and read back as that day at 00:00:00. So
    every date of the 30-day window, and with it every missing date of a
    report, can be handed to [backdate_commit]. *)
Theorem strptime_reads_isoformat (n : Z) :
  1 <= n <= Calendar.MAXORDINAL →
  Strptime.strptime (Calendar.isoformat n) = Some (day_start n)
  ∧ toordinal (day_start n) = n.
Proof.
  intros Hn. unfold day_start, toordinal.
  destruct (Calendar.ord2ymd n) as [[y m] d] eqn:E.
  split; [by apply strptime_isoformat|].
  by apply ord2ymd_spec in E as (_ & _ & _ & ?).
Qed.

Lemma strptime_reads_isoformat_witness :
  Strptime.strptime (Calendar.isoformat today_2024_03_10)
  = Some (day_start today_2024_03_10)
  ∧ toordinal (day_start today_2024_03_10) = today_2024_03_10.
Proof.
  apply (strptime_reads_isoformat today_2024_03_10).
  vm_compute. split; discriminate.
Defined.
